(** * Block-graph reconstruction and row shaping of the Textract pipelines

    A shallow embedding of [src/pdf_to_sheet.py] (batch form/table pipeline)
    and [src/process_invoice.py] (single-document query/summary pipeline),
    with the properties of the reconstruction logic stated as theorems.

    Conventions of the embedding.
    - A Python [str] is a [string]; each character stands for the code point
      of the same number (code points below 256).
    - A Textract block is a JSON object. It is a record whose fields are the
      keys the two programs read; a key that is missing from the object is
      [None]. Values have the type the Textract response schema gives them.
    - [d[k]] on a missing key raises [KeyError]; [d.get(k, x)] does not.
      Fallible code lives in the [result] monad.
    - A [dict] that is only looked up is a [gmap]. A [dict] that is iterated
      ([key_map]) is an association list in insertion order. *)

From stdpp Require Import gmap strings list sorting pretty.
From Stdlib Require Import ZArith Ascii.

Local Open Scope Z_scope.

(** ** Python strings *)

Module PyStr.

(** [str.isspace] on one character, for code points below 256:
    TAB..CR, FS..US, SPACE, NEL and NBSP. *)
Definition isspace (c : ascii) : bool :=
  let n := Z.of_N (Ascii.N_of_ascii c) in
  ((9 <=? n) && (n <=? 13)) || ((28 <=? n) && (n <=? 32))
  || (n =? 133) || (n =? 160).

Fixpoint lstrip (s : string) : string :=
  match s with
  | EmptyString => EmptyString
  | String c s' => if isspace c then lstrip s' else s
  end.

Fixpoint rstrip (s : string) : string :=
  match s with
  | EmptyString => EmptyString
  | String c s' =>
      match rstrip s' with
      | EmptyString => if isspace c then EmptyString else String c EmptyString
      | r => String c r
      end
  end.

(** [s.strip()] *)
Definition strip (s : string) : string := rstrip (lstrip s).

(** [sep.join(l)] *)
Fixpoint join (sep : string) (l : list string) : string :=
  match l with
  | [] => ""
  | [x] => x
  | x :: l' => x +:+ sep +:+ join sep l'
  end.

(** [v] occurs in [s] as a contiguous piece. *)
Definition infix (v s : string) : Prop :=
  ∃ pre post, s = pre +:+ v +:+ post.

Definition all_space (s : string) : Prop :=
  Forall (λ c, isspace c = true) (String.list_ascii_of_string s).

End PyStr.

(** ** Exceptions and the error monad *)

Inductive exn :=
| KeyError (key : string)
| EnvironmentError (msg : string)
| ValueError (msg : string)
| SystemExit (code : Z)
| WorksheetNotFound (title : string)
| ServiceError (msg : string).

(** [str(e)]. A [KeyError] prints the [repr] of its key, written here for
    keys without quotes or escapes. *)
Definition exn_str (e : exn) : string :=
  match e with
  | KeyError key => "'" +:+ key +:+ "'"
  | EnvironmentError msg | ValueError msg | ServiceError msg => msg
  | SystemExit code => pretty code
  | WorksheetNotFound title => title
  end.

Inductive result (A : Type) :=
| Ok (a : A)
| Raise (e : exn).
Arguments Ok {A} a.
Arguments Raise {A} e.

#[global] Instance result_ret : MRet result := @Ok.
#[global] Instance result_bind : MBind result := λ A B f m,
  match m with Ok a => f a | Raise e => Raise e end.

Definition succeeds {A} (r : result A) : Prop := ∃ a, r = Ok a.

(** A [for] loop that threads the variables it assigns. *)
Fixpoint foldM {A B} (f : A → B → result A) (a : A) (l : list B) : result A :=
  match l with
  | [] => Ok a
  | x :: l' => a' ← f a x; foldM f a' l'
  end.

(** [d[key]] where the object [d] may lack [key]. *)
Definition getitem {A} (key : string) (field : option A) : result A :=
  match field with
  | Some v => Ok v
  | None => Raise (KeyError key)
  end.

(** ** Blocks *)

Record Relationship := {
  rel_Type : option string;
  rel_Ids : option (list string)
}.

Record QueryInfo := { Alias : option string }.

Record Block := {
  Id : option string;
  BlockType : option string;
  EntityTypes : option (list string);
  Relationships : option (list Relationship);
  Text : option string;
  SelectionStatus : option string;
  RowIndex : option Z;
  ColumnIndex : option Z;
  Query : option QueryInfo
}.

(** The object [{}], the only block that is falsy. *)
Definition empty_block : Block :=
  {| Id := None; BlockType := None; EntityTypes := None;
     Relationships := None; Text := None; SelectionStatus := None;
     RowIndex := None; ColumnIndex := None; Query := None |}.

Definition is_empty_block (b : Block) : bool :=
  match b with
  | {| Id := None; BlockType := None; EntityTypes := None;
       Relationships := None; Text := None; SelectionStatus := None;
       RowIndex := None; ColumnIndex := None; Query := None |} => true
  | _ => false
  end.

(** Truth value of [block] where [block] is [None] or an object. *)
Definition truthy (block : option Block) : bool :=
  match block with
  | None => false
  | Some b => negb (is_empty_block b)
  end.

(** Truth value of [rel.get("Ids")]. *)
Definition has_ids (rel : Relationship) : bool :=
  match rel_Ids rel with
  | Some (_ :: _) => true
  | _ => false
  end.

(** The type of [block_map] and [value_map]: block identifier (or [None],
    for a block without ["Id"]) to block. *)
Abbreviation BlockMap := (gmap (option string) Block).

(** A document-analysis response; [response.get("Blocks", [])]. *)
Record Response := { Blocks : option (list Block) }.

(** ** The outside world

    Calls to S3, Textract, OpenAI and Google Sheets, and what is printed or
    logged, are recorded as events. The answers of the services are
    parameters of the pipelines. The spreadsheet is part of the state: a
    worksheet title maps to the rows of that worksheet. *)

Inductive level := INFO | WARNING | ERROR.

Inductive event :=
| S3ListObjects (bucket : option string) (prefix : string)
| TextractAnalyze (bucket : option string) (key : string)
| OpenAIChat (content : string)
| SheetsAuthorize (keyfile : string)
| SheetsOpen (sheet_id : option string)
| SheetsAppendRow (title : string) (row : list string)
| Sleep
| Print (line : string)
| Log (lvl : level) (msg : string).

Record world := {
  sheets : gmap string (list (list string));
  trace : list event
}.

Definition io (A : Type) : Type := world → result A * world.

#[global] Instance io_ret : MRet io := λ A a w, (Ok a, w).
#[global] Instance io_bind : MBind io := λ A B f m w,
  match m w with
  | (Ok a, w') => f a w'
  | (Raise e, w') => (Raise e, w')
  end.

Definition lift {A} (r : result A) : io A := λ w, (r, w).
Definition raise {A} (e : exn) : io A := lift (Raise e).
Definition emit (e : event) : io unit := λ w,
  (Ok (), {| sheets := sheets w; trace := trace w ++ [e] |}).

(** A [for] loop run for its effects. *)
Fixpoint for_each {B} (f : B → io unit) (l : list B) : io unit :=
  match l with
  | [] => mret ()
  | x :: l' => _ ← f x; for_each f l'
  end.

(** [try: m except Exception as e: h(e); raise] *)
Definition reraising {A} (m : io A) (h : exn → io unit) : io A := λ w,
  match m w with
  | (Ok a, w') => (Ok a, w')
  | (Raise e, w') =>
      match h e w' with
      | (Ok _, w'') => (Raise e, w'')
      | (Raise e', w'') => (Raise e', w'')
      end
  end.

(** [sh.worksheet(title)]: the rows of the worksheet, or
    [WorksheetNotFound]. *)
Definition worksheet (title : string) : io (list (list string)) := λ w,
  (match sheets w !! title with
   | Some rows => Ok rows
   | None => Raise (WorksheetNotFound title)
   end, w).

(** [worksheet.row_values(1)] *)
Definition first_row_values (rows : list (list string)) : list string :=
  default [] (rows !! 0%nat).

(** [worksheet.append_row(row)] on the worksheet called [title]. *)
Definition append_row (title : string) (row : list string) : io unit := λ w,
  (Ok (),
   {| sheets := <[title := default [] (sheets w !! title) ++ [row]]> (sheets w);
      trace := trace w ++ [SheetsAppendRow title row] |}).

(** Truth value of a string read from the environment. *)
Definition nonempty (v : option string) : bool :=
  match v with
  | Some (String _ _) => true
  | _ => false
  end.

(** ** Insertion-ordered dictionaries *)

Module PyDict.
Section dict.
Context {K V : Type} `{EqDecision K}.

(** [d[k] = v]: an existing key keeps its place, a new key goes last. *)
Fixpoint set (k : K) (v : V) (d : list (K * V)) : list (K * V) :=
  match d with
  | [] => [(k, v)]
  | (k', v') :: d' =>
      if decide (k' = k) then (k, v) :: d' else (k', v') :: set k v d'
  end.

(** [d.get(k)] *)
Fixpoint get (k : K) (d : list (K * V)) : option V :=
  match d with
  | [] => None
  | (k', v') :: d' => if decide (k' = k) then Some v' else get k d'
  end.
End dict.
End PyDict.

(** ** [pdf_to_sheet.py] *)

Module PdfToSheet.

(** The body of the innermost loop of [extract_text]: what one child
    adds to [text]. *)
Definition add_child (text : string) (word : Block) : string :=
  if bool_decide (BlockType word = Some "WORD") then
    text +:+ (default "" (Text word) +:+ " ")
  else if bool_decide (BlockType word = Some "SELECTION_ELEMENT") then
    if bool_decide (SelectionStatus word = Some "SELECTED") then
      text +:+ "X "
    else text
  else text.

Definition visit_child (bm : BlockMap) (text : string) (cid : string)
  : result string :=
  word ← getitem cid (bm !! Some cid);
  Ok (add_child text word).

Definition visit_rel (bm : BlockMap) (text : string) (rel : Relationship)
  : result string :=
  ty ← getitem "Type" (rel_Type rel);
  if bool_decide (ty = "CHILD") && has_ids rel then
    foldM (visit_child bm) text (default [] (rel_Ids rel))
  else Ok text.

Definition extract_text (block : option Block) (bm : BlockMap)
  : result string :=
  match block with
  | None => Ok ""
  | Some b =>
      if is_empty_block b then Ok ""
      else
        text ← foldM (visit_rel bm) "" (default [] (Relationships b));
        Ok (PyStr.strip text)
  end.

(** *** [build_kv_map] *)

Record kv_index := {
  key_map : list (option string * Block);
  value_map : BlockMap;
  block_map : BlockMap
}.

Definition empty_index : kv_index :=
  {| key_map := []; value_map := ∅; block_map := ∅ |}.

(** Body of the first loop. *)
Definition index_block (st : kv_index) (block : Block) : result kv_index :=
  let block_id := Id block in
  let bm := <[block_id := block]> (block_map st) in
  bt ← getitem "BlockType" (BlockType block);
  if bool_decide (bt = "KEY_VALUE_SET") then
    if bool_decide ("KEY" ∈ default [] (EntityTypes block)) then
      Ok {| key_map := PyDict.set block_id block (key_map st);
            value_map := value_map st;
            block_map := bm |}
    else
      Ok {| key_map := key_map st;
            value_map := <[block_id := block]> (value_map st);
            block_map := bm |}
  else
    Ok {| key_map := key_map st; value_map := value_map st;
          block_map := bm |}.

(** Body of the loop over a key block's relationships. *)
Definition pick_value (vm : BlockMap) (value_block : option Block)
    (rel : Relationship) : result (option Block) :=
  ty ← getitem "Type" (rel_Type rel);
  if bool_decide (ty = "VALUE") && has_ids rel then
    match rel_Ids rel with
    | Some (value_id :: _) => Ok (vm !! Some value_id)
    | _ => Ok value_block
    end
  else Ok value_block.

Definition find_value (vm : BlockMap) (key_block : Block)
  : result (option Block) :=
  foldM (pick_value vm) None (default [] (Relationships key_block)).

(** Body of the second loop. *)
Definition pair_key (vm bm : BlockMap) (kv_pairs : gmap string string)
    (entry : option string * Block) : result (gmap string string) :=
  let key_block := entry.2 in
  value_block ← find_value vm key_block;
  key_text ← extract_text (Some key_block) bm;
  val_text ← (if truthy value_block then extract_text value_block bm
              else Ok "");
  Ok (<[key_text := val_text]> kv_pairs).

Definition build_kv_map (blocks : list Block) : result (gmap string string) :=
  st ← foldM index_block empty_index blocks;
  foldM (pair_key (value_map st) (block_map st)) ∅ (key_map st).

(** *** [extract_tables] *)

(** [{b["Id"]: b for b in blocks}] *)
Definition add_block (bm : BlockMap) (b : Block) : result BlockMap :=
  block_id ← getitem "Id" (Id b);
  Ok (<[Some block_id := b]> bm).

(** [sorted(d.keys())] for integer keys. *)
Definition sorted_keys {V} (d : gmap Z V) : list Z :=
  merge_sort Z.le (map_to_list d).*1.

(** [rows.setdefault(row_idx, {})[col_idx] = text] *)
Definition set_cell (row_idx col_idx : Z) (text : string)
    (rows : gmap Z (gmap Z string)) : gmap Z (gmap Z string) :=
  <[row_idx := <[col_idx := text]> (default ∅ (rows !! row_idx))]> rows.

Definition add_cell (bm : BlockMap) (rows : gmap Z (gmap Z string))
    (cell_id : string) : result (gmap Z (gmap Z string)) :=
  cell ← getitem cell_id (bm !! Some cell_id);
  bt ← getitem "BlockType" (BlockType cell);
  if bool_decide (bt = "CELL") then
    row_idx ← getitem "RowIndex" (RowIndex cell);
    col_idx ← getitem "ColumnIndex" (ColumnIndex cell);
    text ← extract_text (Some cell) bm;
    Ok (set_cell row_idx col_idx text rows)
  else Ok rows.

Definition add_rel (bm : BlockMap) (rows : gmap Z (gmap Z string))
    (rel : Relationship) : result (gmap Z (gmap Z string)) :=
  ty ← getitem "Type" (rel_Type rel);
  if bool_decide (ty = "CHILD") then
    foldM (add_cell bm) rows (default [] (rel_Ids rel))
  else Ok rows.

(** [[row.get(c, "") for c in sorted(row.keys())]] *)
Definition row_values (row : gmap Z string) : list string :=
  (λ c, default "" (row !! c)) <$> sorted_keys row.

(** The loop that fills [table_data]; [rows[row_idx]] is a key of [rows],
    so the lookup cannot fail. *)
Definition table_data (rows : gmap Z (gmap Z string)) : list (list string) :=
  (λ row_idx, row_values (rows !!! row_idx)) <$> sorted_keys rows.

Definition table_rows (bm : BlockMap) (block : Block)
  : result (gmap Z (gmap Z string)) :=
  foldM (add_rel bm) ∅ (default [] (Relationships block)).

(** Body of the loop over [blocks]. *)
Definition visit_block (bm : BlockMap) (tables : list (list (list string)))
    (block : Block) : result (list (list (list string))) :=
  bt ← getitem "BlockType" (BlockType block);
  if bool_decide (bt = "TABLE") then
    rows ← table_rows bm block;
    Ok (tables ++ [table_data rows])
  else Ok tables.

Definition extract_tables (blocks : list Block)
  : result (list (list (list string))) :=
  bm ← foldM add_block ∅ blocks;
  foldM (visit_block bm) [] blocks.

(** *** Row shaping and the batch loop *)

Section pipeline.
(** [os.environ] when the module is imported. *)
Variable env : gmap string string.
(** What [list_objects_v2] and [analyze_document] answer. *)
Variable s3_pages : option string → string → result (list (option (list string))).
Variable textract : option string → string → result Response.

Definition AWS_REGION : string := default "us-east-1" (env !! "AWS_REGION").
Definition S3_BUCKET : option string := env !! "S3_BUCKET".
Definition S3_PREFIX : string := default "" (env !! "S3_PREFIX").
Definition GOOGLE_SHEETS_KEYFILE : string :=
  default "credentials.json" (env !! "GOOGLE_SHEETS_KEYFILE").
Definition SPREADSHEET_ID : option string := env !! "SPREADSHEET_ID".
Definition FORM_TAB : string := default "Form Data" (env !! "FORM_TAB").
Definition TABLE_TAB : string := default "Table Data" (env !! "TABLE_TAB").

(** [key.lower().endswith(".pdf")] *)
Definition lower_char (c : ascii) : ascii :=
  let n := Z.of_N (Ascii.N_of_ascii c) in
  if ((65 <=? n) && (n <=? 90)) || ((192 <=? n) && (n <=? 222) && negb (n =? 215))
  then Ascii.ascii_of_N (Z.to_N (n + 32)) else c.

Fixpoint lower (s : string) : string :=
  match s with
  | EmptyString => EmptyString
  | String c s' => String (lower_char c) (lower s')
  end.

Fixpoint endswith (s suffix : string) : bool :=
  bool_decide (s = suffix) ||
  match s with
  | EmptyString => false
  | String _ s' => endswith s' suffix
  end.

Definition list_pdfs : io (list string) :=
  _ ← emit (S3ListObjects S3_BUCKET S3_PREFIX);
  pages ← lift (s3_pages S3_BUCKET S3_PREFIX);
  mret (filter (λ key, endswith (lower key) ".pdf" = true)
               (concat ((λ page, default [] page) <$> pages))).

Definition analyze_document (key : string) : io Response :=
  _ ← emit (TextractAnalyze S3_BUCKET key);
  lift (textract S3_BUCKET key).

Definition authorize_gspread : io unit :=
  emit (SheetsAuthorize GOOGLE_SHEETS_KEYFILE).

Definition append_form_data (data : gmap string string) : io unit :=
  rows ← worksheet FORM_TAB;
  let headers := first_row_values rows in
  let row := (λ h, default "" (data !! h)) <$> headers in
  append_row FORM_TAB row.

Definition append_table_data (table : list (list string))
    (source_key : string) : io unit :=
  _ ← worksheet TABLE_TAB;
  for_each (λ row, append_row TABLE_TAB (source_key :: row)) table.

Definition process_pdf (key : string) : io unit :=
  response ← analyze_document key;
  let blocks := default [] (Blocks response) in
  kv_pairs ← lift (build_kv_map blocks);
  _ ← append_form_data kv_pairs;
  tables ← lift (extract_tables blocks);
  for_each (λ table, append_table_data table key) tables.

Definition main : io unit :=
  if negb (nonempty S3_BUCKET && nonempty SPREADSHEET_ID) then
    raise (ValueError
      "S3_BUCKET and SPREADSHEET_ID environment variables must be set")
  else
    keys ← list_pdfs;
    _ ← authorize_gspread;
    _ ← emit (SheetsOpen SPREADSHEET_ID);
    _ ← for_each (λ key,
          _ ← emit (Print ("Processing " +:+ key +:+ "..."));
          _ ← process_pdf key;
          emit Sleep) keys;
    emit (Print "Done").
End pipeline.

End PdfToSheet.

(** ** [process_invoice.py] *)

Module ProcessInvoice.

Definition ADAPTER_ID : string := "YOUR_ADAPTER_ID".
Definition ADAPTER_VERSION : string := "1".

Definition env_vars : list string :=
  [ "AWS_ACCESS_KEY_ID"; "AWS_SECRET_ACCESS_KEY"; "AWS_REGION";
    "S3_BUCKET_NAME"; "OPENAI_API_KEY"; "GOOGLE_SHEET_ID";
    "GOOGLE_CREDENTIALS_FILE" ].

(** Body of the loop of [load_config]; the state is [(config, missing)]. *)
Definition load_var (env : gmap string string)
    (st : gmap string string * list string) (var : string)
  : gmap string string * list string :=
  let val := env !! var in
  if negb (nonempty val) then (st.1, st.2 ++ [var])
  else (<[var := default "" val]> st.1, st.2).

Definition load_config (env : gmap string string)
  : result (gmap string string) :=
  let st := foldl (load_var env) (∅, []) env_vars in
  match st.2 with
  | [] => Ok st.1
  | missing =>
      Raise (EnvironmentError
        ("Missing environment variables: " +:+ PyStr.join ", " missing))
  end.

(** The date a [datetime] carries. *)
Record datetime := { year : Z; month : Z; day : Z }.

(** What the constructor of [datetime] checks: a year from [MINYEAR] to
    [MAXYEAR], a month of the year and a day of that month. *)
Definition MINYEAR : Z := 1.
Definition MAXYEAR : Z := 9999.

Definition is_leap (y : Z) : bool :=
  (y `mod` 4 =? 0) && (negb (y `mod` 100 =? 0) || (y `mod` 400 =? 0)).

Definition days_in_month (y m : Z) : Z :=
  if m =? 2 then (if is_leap y then 29 else 28)
  else if (m =? 4) || (m =? 6) || (m =? 9) || (m =? 11) then 30
  else 31.

Definition datetime_ok (dt : datetime) : bool :=
  (MINYEAR <=? year dt) && (year dt <=? MAXYEAR)
  && (1 <=? month dt) && (month dt <=? 12)
  && (1 <=? day dt) && (day dt <=? days_in_month (year dt) (month dt)).

(** [dt.strftime("%Y/%m/%d")]. CPython hands the format to the C library;
    with glibc [%Y] is the year in decimal, not padded (a year below 1000
    has fewer than four characters), and [%m] and [%d] are the month and
    the day padded with zeros to two characters. *)
Fixpoint zeros (n : nat) : string :=
  match n with
  | O => EmptyString
  | S n' => String "0"%char (zeros n')
  end.

Definition zero_padded (width : nat) (n : Z) : string :=
  zeros (width - String.length (pretty n)) +:+ pretty n.

Definition strftime_Ymd (dt : datetime) : string :=
  pretty (year dt) +:+ "/" +:+ zero_padded 2 (month dt) +:+ "/"
  +:+ zero_padded 2 (day dt).

Definition newline : string := String (Ascii.ascii_of_N 10) EmptyString.

(** [block.get("Query", {}).get("Alias")] *)
Definition alias_of (block : Block) : option string :=
  match Query block with
  | Some q => Alias q
  | None => None
  end.

(** Body of the loop of [parse_response]; the state is
    [(results, full_lines)]. *)
Definition scan_block (st : gmap string string * list string)
    (block : Block) : gmap string string * list string :=
  let b_type := BlockType block in
  if bool_decide (b_type = Some "QUERY_RESULT") then
    let alias := alias_of block in
    let text := default "" (Text block) in
    if nonempty alias then (<[default "" alias := text]> st.1, st.2)
    else st
  else if bool_decide (b_type = Some "LINE") then
    (st.1, st.2 ++ [default "" (Text block)])
  else st.

Section pipeline.
(** [os.environ], and what [dateutil], Textract and OpenAI answer;
    [date_parser_parse text fuzzy] is [date_parser.parse(text, fuzzy=fuzzy)]. *)
Variable env : gmap string string.
Variable date_parser_parse : string → bool → result datetime.
Variable textract : string → string → result Response.
Variable openai_chat : string → result string.

(** The [if "Date" in results: try ... except ...] statement: the new
    [results] and what it logs. *)
Definition normalize_date (results : gmap string string)
  : gmap string string * list event :=
  match results !! "Date" with
  | Some text =>
      match date_parser_parse text true with
      | Ok dt => (<["Date" := strftime_Ymd dt]> results, [])
      | Raise e =>
          (results,
           [Log WARNING
              ("Failed to parse date '" +:+ text +:+ "': " +:+ exn_str e)])
      end
  | None => (results, [])
  end.

(** Returns [results] and the records logged on the way. *)
Definition parse_response (response : Response)
  : gmap string string * list event :=
  let st := foldl scan_block (∅, []) (default [] (Blocks response)) in
  let norm := normalize_date st.1 in
  (<["full_text" := PyStr.join newline st.2]> norm.1, norm.2).

Definition analyze_document (bucket key : string) : io Response :=
  reraising
    (_ ← emit (TextractAnalyze (Some bucket) key);
     lift (textract bucket key))
    (λ e, emit (Log ERROR ("Textract call failed: " +:+ exn_str e))).

Definition summarize_text (full_text api_key : string) : io string :=
  reraising
    (_ ← emit (OpenAIChat full_text);
     content ← lift (openai_chat full_text);
     mret (PyStr.strip content))
    (λ e, emit (Log ERROR ("OpenAI API call failed: " +:+ exn_str e))).

Definition append_to_sheet (creds_file sheet_id : string)
    (row : list string) : io unit :=
  _ ← emit (SheetsAuthorize creds_file);
  reraising
    (_ ← emit (SheetsOpen (Some sheet_id));
     _ ← worksheet "Form Data";
     append_row "Form Data" row)
    (λ e, emit (Log ERROR ("Failed to update Google Sheet: " +:+ exn_str e))).

Definition config_get (config : gmap string string) (key : string)
  : io string :=
  lift (getitem key (config !! key)).

Definition main (argv : list string) : io unit :=
  if bool_decide (length argv ≠ 2%nat) then
    _ ← emit (Print "Usage: process_invoice.py <s3_key>");
    raise (SystemExit 1)
  else
    let s3_key := default "" (argv !! 1%nat) in
    config ← lift (load_config env);
    _ ← config_get config "OPENAI_API_KEY";
    _ ← config_get config "AWS_ACCESS_KEY_ID";
    _ ← config_get config "AWS_SECRET_ACCESS_KEY";
    _ ← config_get config "AWS_REGION";
    bucket ← config_get config "S3_BUCKET_NAME";
    _ ← emit (Log INFO
          ("Analyzing " +:+ s3_key +:+ " from bucket " +:+ bucket));
    response ← analyze_document bucket s3_key;
    let parsed := parse_response response in
    _ ← for_each emit parsed.2;
    full_text ← lift (getitem "full_text" (parsed.1 !! "full_text"));
    api_key ← config_get config "OPENAI_API_KEY";
    summary ← summarize_text full_text api_key;
    let parsed := <["Description" := summary]> parsed.1 in
    let row := [ default "" (parsed !! "Title");
                 default "" (parsed !! "Date");
                 default "" (parsed !! "Description");
                 default "" (parsed !! "VolumeIssueNumber") ] in
    creds ← config_get config "GOOGLE_CREDENTIALS_FILE";
    sheet_id ← config_get config "GOOGLE_SHEET_ID";
    _ ← append_to_sheet creds sheet_id row;
    emit (Log INFO "Row appended successfully").

(** The [if __name__ == "__main__"] block; [SystemExit] is not an
    [Exception] and passes through. *)
Definition script (argv : list string) : io unit := λ w,
  match main argv w with
  | (Raise (SystemExit code), w') => (Raise (SystemExit code), w')
  | (Raise e, w') =>
      (Raise (SystemExit 1),
       {| sheets := sheets w';
          trace := trace w' ++ [Log ERROR ("Processing failed: " +:+ exn_str e)] |})
  | (Ok tt, w') => (Ok tt, w')
  end.
End pipeline.

End ProcessInvoice.

(** * Vocabulary of the statements *)

Import PdfToSheet.
Import ProcessInvoice.

(** ** Whitespace at the ends of a string *)

Definition starts_with_space (s : string) : bool :=
  match s with
  | EmptyString => false
  | String c _ => PyStr.isspace c
  end.

Fixpoint ends_with_space (s : string) : bool :=
  match s with
  | EmptyString => false
  | String c EmptyString => PyStr.isspace c
  | String _ s' => ends_with_space s'
  end.

(** ** Rendering *)

(** The targets of the CHILD relationships of a block, in listed order. *)
Definition rel_targets (rel : Relationship) : list string :=
  if bool_decide (rel_Type rel = Some "CHILD") then default [] (rel_Ids rel)
  else [].

Definition child_targets (b : Block) : list string :=
  default [] (Relationships b) ≫= rel_targets.

(** What one child contributes to the text of its parent. *)
Definition piece (child : Block) : string :=
  if bool_decide (BlockType child = Some "WORD") then
    default "" (Text child) +:+ " "
  else if bool_decide (BlockType child = Some "SELECTION_ELEMENT"
                       ∧ SelectionStatus child = Some "SELECTED") then "X "
  else "".

(** The strings of a list, one after the other. *)
Definition concat_str (l : list string) : string := foldr String.app "" l.

(** Every relationship of the block has a ["Type"]. *)
Definition typed (b : Block) : Prop :=
  Forall (λ rel, is_Some (rel_Type rel)) (default [] (Relationships b)).

(** If the computation raises, it raises [KeyError]. *)
Definition only_KeyError {A} (r : result A) : Prop :=
  ∀ e, r = Raise e → ∃ key, e = KeyError key.

(** ** Block collections *)

(** [block_map] as both reconstructions fill it: each block under its
    identifier, a later block replacing an earlier one of the same
    identifier. *)
Definition block_index (blocks : list Block) : BlockMap :=
  foldl (λ bm b, <[Id b := b]> bm) ∅ blocks.

(** The collection follows the response schema: every block has an
    identifier and a type, every relationship has a type, every CHILD
    target is the identifier of a block of the collection, and every CELL
    has a row and a column index. *)
Definition rel_closed (ids : list (option string)) (rel : Relationship) : bool :=
  bool_decide (is_Some (rel_Type rel))
  && forallb (λ cid, bool_decide (Some cid ∈ ids)) (rel_targets rel).

Definition block_closed (ids : list (option string)) (b : Block) : bool :=
  bool_decide (is_Some (Id b)) && bool_decide (is_Some (BlockType b))
  && forallb (rel_closed ids) (default [] (Relationships b))
  && (if bool_decide (BlockType b = Some "CELL")
      then bool_decide (is_Some (RowIndex b) ∧ is_Some (ColumnIndex b))
      else true).

Definition well_formed (blocks : list Block) : bool :=
  forallb (block_closed (Id <$> blocks)) blocks.

(** ** Key blocks and value blocks *)

(** A KEY_VALUE_SET block is a key block when its entity types include
    "KEY", and a value block otherwise. *)
Definition has_key_role (b : Block) : bool :=
  bool_decide ("KEY" ∈ default [] (EntityTypes b)).

Definition is_key_block (b : Block) : bool :=
  bool_decide (BlockType b = Some "KEY_VALUE_SET") && has_key_role b.

Definition is_value_block (b : Block) : bool :=
  bool_decide (BlockType b = Some "KEY_VALUE_SET") && negb (has_key_role b).

(** The first target of each VALUE relationship that lists targets. *)
Definition value_target (rel : Relationship) : list string :=
  if bool_decide (rel_Type rel = Some "VALUE")
  then option_list (head (default [] (rel_Ids rel)))
  else [].

Definition value_targets (b : Block) : list string :=
  default [] (Relationships b) ≫= value_target.

(** The value block paired with a key block: among the value blocks of
    the collection, the one whose identifier is the first target of the
    key block's VALUE relationship (of the last one, should there be
    several). *)
Definition paired_value (blocks : list Block) (kb : Block) : option Block :=
  vid ← last (value_targets kb);
  head (filter (λ b, Id b = Some vid)
               (filter (λ b, is_value_block b = true) blocks)).

(** [value_map] after the first loop. *)
Definition value_index (blocks : list Block) : BlockMap :=
  block_index (filter (λ b, is_value_block b = true) blocks).

(** [key_map.items()] after the first loop, for distinct identifiers. *)
Definition key_entries (blocks : list Block) : list (option string * Block) :=
  (λ b, (Id b, b)) <$> filter (λ b, is_key_block b = true) blocks.

(** The entry one key block adds to [kv_pairs]. *)
Definition kv_entry (vm bm : BlockMap) (key_block : Block)
  : result (string * string) :=
  value_block ← find_value vm key_block;
  key_text ← extract_text (Some key_block) bm;
  val_text ← (if truthy value_block then extract_text value_block bm
              else Ok "");
  Ok (key_text, val_text).

(** The same entry as a total function of the key block. *)
Definition entry_of (blocks : list Block) (kb : Block) : string * string :=
  match kv_entry (value_index blocks) (block_index blocks) kb with
  | Ok p => p
  | Raise _ => ("", "")
  end.

(** ** Sample blocks and collections *)

Definition word_block (id text : string) : Block :=
  {| Id := Some id; BlockType := Some "WORD"; EntityTypes := None;
     Relationships := None; Text := Some text; SelectionStatus := None;
     RowIndex := None; ColumnIndex := None; Query := None |}.

Definition selection_block (id status : string) : Block :=
  {| Id := Some id; BlockType := Some "SELECTION_ELEMENT"; EntityTypes := None;
     Relationships := None; Text := None; SelectionStatus := Some status;
     RowIndex := None; ColumnIndex := None; Query := None |}.

Definition child_rel (ids : list string) : Relationship :=
  {| rel_Type := Some "CHILD"; rel_Ids := Some ids |}.

Definition value_rel (ids : list string) : Relationship :=
  {| rel_Type := Some "VALUE"; rel_Ids := Some ids |}.

Definition kv_block (id : string) (roles : list string)
    (rels : list Relationship) : Block :=
  {| Id := Some id; BlockType := Some "KEY_VALUE_SET";
     EntityTypes := Some roles; Relationships := Some rels; Text := None;
     SelectionStatus := None; RowIndex := None; ColumnIndex := None;
     Query := None |}.

Definition cell_block (id : string) (row col : Z) (kids : list string) : Block :=
  {| Id := Some id; BlockType := Some "CELL"; EntityTypes := None;
     Relationships := Some [child_rel kids]; Text := None;
     SelectionStatus := None; RowIndex := Some row; ColumnIndex := Some col;
     Query := None |}.

Definition table_block (id : string) (cells : list string) : Block :=
  {| Id := Some id; BlockType := Some "TABLE"; EntityTypes := None;
     Relationships := Some [child_rel cells]; Text := None;
     SelectionStatus := None; RowIndex := None; ColumnIndex := None;
     Query := None |}.

(** A form with two fields of the same label: the first has a value, the
    second has none. *)
Definition sample_form : list Block :=
  [ kv_block "k1" ["KEY"] [value_rel ["v1"]; child_rel ["w1"]];
    kv_block "v1" ["VALUE"] [child_rel ["w2"; "s1"]];
    word_block "w1" "Name:"; word_block "w2" "Ada";
    selection_block "s1" "SELECTED";
    kv_block "k2" ["KEY"] [value_rel ["v9"]; child_rel ["w3"]];
    word_block "w3" "Name:" ].

(** A check box: a block whose only child is a selected selection element. *)
Definition sample_checkbox : Block :=
  kv_block "v2" ["VALUE"] [child_rel ["s1"]].

(** A key block whose child is not in the collection. *)
Definition dangling_key : Block := kv_block "k1" ["KEY"] [child_rel ["w9"]].

(** A table whose cell is not in the collection. *)
Definition dangling_table : Block := table_block "t1" ["c9"].

(** ** Tables *)

Definition is_table (b : Block) : bool :=
  bool_decide (BlockType b = Some "TABLE").

(** What a CHILD target of a table contributes: for a CELL, its row
    index, its column index and its text. *)
Definition observe (bm : BlockMap) (cid : string) : option (Z * Z * string) :=
  cell ← bm !! Some cid;
  if bool_decide (BlockType cell = Some "CELL") then
    r ← RowIndex cell;
    c ← ColumnIndex cell;
    match extract_text (Some cell) bm with
    | Ok text => Some (r, c, text)
    | Raise _ => None
    end
  else None.

(** The cells observed in a table, in the order its CHILD relationships
    list them. *)
Definition observed_cells (bm : BlockMap) (tb : Block) : list (Z * Z * string) :=
  omap (observe bm) (child_targets tb).

(** The text observed at a position: that of the last cell listed
    there. *)
Definition cell_text (cells : list (Z * Z * string)) (r c : Z) : option string :=
  snd <$> last (filter (λ x, x.1 = (r, c)) cells).

(** One observed cell written into [rows]. *)
Definition place (rows : gmap Z (gmap Z string)) (x : Z * Z * string)
  : gmap Z (gmap Z string) :=
  set_cell x.1.1 x.1.2 x.2 rows.

(** [rows] after the loops over the relationships of a table. *)
Definition rows_of (bm : BlockMap) (tb : Block) : gmap Z (gmap Z string) :=
  foldl place ∅ (observed_cells bm tb).

(** [table_data] with the indices kept. *)
Definition grid_row (row : gmap Z string) : list (Z * string) :=
  (λ c, (c, default "" (row !! c))) <$> sorted_keys row.

Definition grid (rows : gmap Z (gmap Z string)) : list (Z * list (Z * string)) :=
  (λ r, (r, grid_row (rows !!! r))) <$> sorted_keys rows.

(** The table a grid stands for. *)
Definition drop_indices (g : list (Z * list (Z * string))) : list (list string) :=
  (λ r, r.2.*2) <$> g.

(** The text [rows] holds at a position. *)
Definition lookup2 (rows : gmap Z (gmap Z string)) (r c : Z) : option string :=
  rows !! r ≫= λ row, row !! c.

(** A CHILD target of a table that the code can process. *)
Definition cell_ok (bm : BlockMap) (cid : string) : Prop :=
  ∃ cell, bm !! Some cid = Some cell ∧ is_Some (BlockType cell)
          ∧ (BlockType cell = Some "CELL" →
             is_Some (RowIndex cell) ∧ is_Some (ColumnIndex cell)
             ∧ succeeds (extract_text (Some cell) bm)).

(** The table of three cells: (1,1) = "A", (1,2) = "B", (2,1) = "C". *)
Definition sample_table : list Block :=
  [ table_block "t1" ["c21"; "c12"; "c11"];
    cell_block "c11" 1 1 ["wa"]; cell_block "c12" 1 2 ["wb"];
    cell_block "c21" 2 1 ["wc"];
    word_block "wa" "A"; word_block "wb" "B"; word_block "wc" "C" ].

(** A table with holes: (1,1) = "A", (1,3) = "C", (3,2) = "B". *)
Definition sparse_table : list Block :=
  [ table_block "t1" ["c11"; "c13"; "c32"];
    cell_block "c11" 1 1 ["wa"]; cell_block "c13" 1 3 ["wc"];
    cell_block "c32" 3 2 ["wb"];
    word_block "wa" "A"; word_block "wb" "B"; word_block "wc" "C" ].

(** The column indices observed in a row, and the row indices observed
    in a table, with repetitions. *)
Definition observed_columns (cells : list (Z * Z * string)) (r : Z) : list Z :=
  (filter (λ x, x.1.1 = r) cells).*1.*2.

Definition observed_rows (cells : list (Z * Z * string)) : list Z :=
  cells.*1.*1.

(** ** Query results *)

Definition is_line (b : Block) : bool :=
  bool_decide (BlockType b = Some "LINE").

(** The block answers the query of alias [a]. *)
Definition answers (a : string) (b : Block) : Prop :=
  BlockType b = Some "QUERY_RESULT" ∧ alias_of b = Some a.

#[global] Instance answers_dec a b : Decision (answers a b).
Proof. unfold answers. apply _. Defined.

(** The texts of the LINE blocks, in the order of the collection. *)
Definition line_texts (blocks : list Block) : list string :=
  (λ b, default "" (Text b)) <$> filter (λ b, is_line b = true) blocks.

Definition is_digit (c : ascii) : bool :=
  let n := Z.of_N (Ascii.N_of_ascii c) in (48 <=? n) && (n <=? 57).


(** The number a digit stands for. *)
Definition digit_value (c : ascii) : Z := Z.of_N (Ascii.N_of_ascii c) - 48.


Definition query_result_block (id alias text : string) : Block :=
  {| Id := Some id; BlockType := Some "QUERY_RESULT"; EntityTypes := None;
     Relationships := None; Text := Some text; SelectionStatus := None;
     RowIndex := None; ColumnIndex := None;
     Query := Some {| Alias := Some alias |} |}.

Definition line_block (id text : string) : Block :=
  {| Id := Some id; BlockType := Some "LINE"; EntityTypes := None;
     Relationships := None; Text := Some text; SelectionStatus := None;
     RowIndex := None; ColumnIndex := None; Query := None |}.

(** A response to the three queries: the title is answered twice, one
    answer carries an empty alias. *)
Definition sample_answers : list Block :=
  [ line_block "l1" "The Gazette";
    query_result_block "q1" "Title" "The Gazete";
    query_result_block "q2" "Date" "2023-03-03";
    line_block "l2" "Vol. 4 No. 2";
    query_result_block "q3" "" "stray";
    query_result_block "q4" "Title" "The Gazette" ].

(** The date that a text of the form YYYY-MM-DD names, when there is
    one. *)
Definition read_iso (s : string) : option ProcessInvoice.datetime :=
  match String.list_ascii_of_string s with
  | [y1; y2; y3; y4; s1; m1; m2; s2; d1; d2] =>
      let dt :=
        {| ProcessInvoice.year :=
             1000 * digit_value y1 + 100 * digit_value y2
             + 10 * digit_value y3 + digit_value y4;
           ProcessInvoice.month := 10 * digit_value m1 + digit_value m2;
           ProcessInvoice.day := 10 * digit_value d1 + digit_value d2 |} in
      if is_digit y1 && is_digit y2 && is_digit y3 && is_digit y4
         && bool_decide (s1 = "-"%char)
         && is_digit m1 && is_digit m2
         && bool_decide (s2 = "-"%char)
         && is_digit d1 && is_digit d2
         && ProcessInvoice.datetime_ok dt
      then Some dt else None
  | _ => None
  end.

(** A date parser that knows one format, YYYY-MM-DD, in either mode; it
    stands for [dateutil] where a concrete parser is needed. *)
Definition iso_date_parser (s : string) (fuzzy : bool)
  : result ProcessInvoice.datetime :=
  match read_iso s with
  | Some dt => Ok dt
  | None => Raise (ValueError ("Unknown string format: " +:+ s))
  end.


(** ** Configuration and worksheets *)

(** The required variables that are unset or empty. *)
Definition missing_vars (env : gmap string string) : list string :=
  filter (λ var, nonempty (env !! var) = false) env_vars.

(** A world with the two worksheets of the batch pipeline, the form
    worksheet having a header row. *)
Definition sample_world : world :=
  {| sheets := {[ "Form Data" := [["Name:"; "Phone:"]]; "Table Data" := [] ]};
     trace := [] |}.

(** The world after [append_row] was called for each row in turn. *)
Definition after_rows (title : string) (rows : list (list string))
    (w : world) : world :=
  foldl (λ w row, (append_row title row w).2) w rows.

(** A document with two form fields and one 2x2 table. *)
Definition sample_document : list Block :=
  [ kv_block "k1" ["KEY"] [value_rel ["v1"]; child_rel ["w1"]];
    kv_block "v1" ["VALUE"] [child_rel ["w2"]];
    kv_block "k2" ["KEY"] [value_rel ["v2"]; child_rel ["w3"]];
    kv_block "v2" ["VALUE"] [child_rel ["w4"]];
    word_block "w1" "Name:"; word_block "w2" "Ada";
    word_block "w3" "Phone:"; word_block "w4" "555";
    table_block "t1" ["c11"; "c12"; "c21"; "c22"];
    cell_block "c11" 1 1 ["wa"]; cell_block "c12" 1 2 ["wb"];
    cell_block "c21" 2 1 ["wc"]; cell_block "c22" 2 2 ["wd"];
    word_block "wa" "A"; word_block "wb" "B";
    word_block "wc" "C"; word_block "wd" "D" ].

(** ** The batch run *)

(** The keys [list_pdfs] keeps from the pages of a listing. *)
Definition pdf_keys (pages : list (option (list string))) : list string :=
  filter (λ key, endswith (lower key) ".pdf" = true)
         (concat ((λ page, default [] page) <$> pages)).

(** A listing in two pages with a page without ["Contents"] in between. *)
Definition sample_pages : list (option (list string)) :=
  [ Some ["in/a.pdf"; "in/notes.txt"]; None; Some ["in/B.PDF"; "in/pdf"] ].

(** One turn of the loop of [main]: the document is announced, processed,
    and the loop pauses. *)
Definition batch_step (env : gmap string string)
    (textract : option string → string → result Response) (key : string)
  : io unit :=
  _ ← emit (Print ("Processing " +:+ key +:+ "..."));
  _ ← process_pdf env textract key;
  emit Sleep.

(** The number of rows of the form worksheet. *)
Definition form_count (env : gmap string string) (w : world) : nat :=
  length (default [] (sheets w !! FORM_TAB env)).

(** The state when the loop of [main] starts. *)
Definition batch_start (env : gmap string string) (w : world) : world :=
  {| sheets := sheets w;
     trace := trace w ++ [ S3ListObjects (S3_BUCKET env) (S3_PREFIX env);
                           SheetsAuthorize (GOOGLE_SHEETS_KEYFILE env);
                           SheetsOpen (SPREADSHEET_ID env) ] |}.

(** An environment that names the bucket and the spreadsheet. *)
Definition sample_env : gmap string string :=
  {[ "S3_BUCKET" := "scans"; "SPREADSHEET_ID" := "sheet-1" ]}.

(** A collection whose form is sound and whose table has a cell that is
    not in the collection. *)
Definition sample_broken_table : list Block :=
  [ kv_block "k1" ["KEY"] [value_rel ["v1"]; child_rel ["w1"]];
    kv_block "v1" ["VALUE"] [child_rel ["w2"]];
    word_block "w1" "Name:"; word_block "w2" "Ada";
    table_block "t1" ["c9"] ].

(** The state after [process_pdf] has called Textract. *)
Definition analyzed (env : gmap string string) (key : string) (w : world)
  : world :=
  {| sheets := sheets w;
     trace := trace w ++ [TextractAnalyze (S3_BUCKET env) key] |}.

(** The row [append_form_data] shapes from the header row. *)
Definition form_row_of (kv_pairs : gmap string string)
    (form_rows : list (list string)) : list string :=
  (λ h, default "" (kv_pairs !! h)) <$> first_row_values form_rows.

(** A spreadsheet that has the form worksheet and no table worksheet. *)
Definition sample_world_no_table : world :=
  {| sheets := {[ "Form Data" := [["Name:"; "Phone:"]] ]}; trace := [] |}.

(** Textract answers with the sample document for every key but one. *)
Definition flaky_textract (bad : string) (bucket : option string)
    (key : string) : result Response :=
  if bool_decide (key = bad) then Raise (ServiceError "throttled")
  else Ok {| Blocks := Some sample_document |}.

(** ** More sample collections *)

(** A key block whose VALUE relationship points to a WORD block. *)
Definition sample_misdirected : list Block :=
  [ kv_block "k1" ["KEY"] [value_rel ["w2"]; child_rel ["w1"]];
    word_block "w1" "Name:"; word_block "w2" "Ada" ].

(** A key block with two VALUE relationships: the first one finds a value
    block, the second one points nowhere. *)
Definition sample_two_values : Block :=
  kv_block "k1" ["KEY"] [value_rel ["v1"]; child_rel ["w1"]; value_rel ["v9"; "v1"]].

(** A block without ["BlockType"] and a block without ["Id"]. *)
Definition untyped_block : Block :=
  {| Id := Some "u1"; BlockType := None; EntityTypes := None;
     Relationships := None; Text := None; SelectionStatus := None;
     RowIndex := None; ColumnIndex := None; Query := None |}.

Definition anonymous_block : Block :=
  {| Id := None; BlockType := Some "PAGE"; EntityTypes := None;
     Relationships := None; Text := None; SelectionStatus := None;
     RowIndex := None; ColumnIndex := None; Query := None |}.

(** ** More on the invoice pipeline *)

(** An environment with everything [process_invoice.py] requires, and one
    variable more. *)
Definition full_env : gmap string string :=
  {[ "AWS_ACCESS_KEY_ID" := "AKIA"; "AWS_SECRET_ACCESS_KEY" := "secret";
     "AWS_REGION" := "eu-west-1"; "S3_BUCKET_NAME" := "scans";
     "OPENAI_API_KEY" := "sk-1"; "GOOGLE_SHEET_ID" := "sheet-1";
     "GOOGLE_CREDENTIALS_FILE" := "creds.json"; "HOME" := "/root" ]}.

(** A response without answer to the Date query. *)
Definition sample_undated : list Block :=
  [ line_block "l1" "The Gazette";
    query_result_block "q1" "Title" "The Gazette" ].


(** The computation never changes a worksheet. *)
Definition quiet {A} (m : io A) : Prop :=
  ∀ w r w', m w = (r, w') → sheets w' = sheets w.

(** The computation changes no worksheet unless it returns normally. *)
Definition all_or_nothing {A} (m : io A) : Prop :=
  ∀ w r w', m w = (r, w') → (∃ a, r = Ok a) ∨ sheets w' = sheets w.

(** A spreadsheet with the worksheet of the invoice pipeline. *)
Definition invoice_world : world :=
  {| sheets := {[ "Form Data" := [["Title"; "Date"; "Description"; "Volume"]] ]};
     trace := [] |}.

(** ** Words *)

(** A text without whitespace at either end, and not empty. *)
Definition trimmed (t : string) : Prop :=
  t ≠ "" ∧ starts_with_space t = false ∧ ends_with_space t = false.

(** A field whose value is made of three words. *)
Definition sample_sentence : list Block :=
  [ kv_block "v1" ["VALUE"] [child_rel ["w1"; "w2"; "w3"]];
    word_block "w1" "12"; word_block "w2" "Main"; word_block "w3" "St." ].

(** ** Listing order of cells *)

(** The table of [sample_table] with its cells listed in reading order. *)
Definition sample_table_reordered : Block :=
  table_block "t1" ["c11"; "c12"; "c21"].

(** * Properties *)

(** ** Strings and loops *)

Section basics.

Lemma append_cons (c : ascii) (s t : string) :
  String c s +:+ t = String c (s +:+ t).
Proof. reflexivity. Qed.

Lemma append_nil_l (s : string) : "" +:+ s = s.
Proof. reflexivity. Qed.

Lemma append_nil_r (s : string) : s +:+ "" = s.
Proof.
  induction s as [|c s IH]; [done|]. by rewrite append_cons, IH.
Qed.

Lemma append_assoc (s1 s2 s3 : string) :
  (s1 +:+ s2) +:+ s3 = s1 +:+ (s2 +:+ s3).
Proof.
  induction s1 as [|c s1 IH]; [done|]. by rewrite !append_cons, IH.
Qed.

Lemma infix_refl (s : string) : PyStr.infix s s.
Proof. exists "", "". by rewrite append_nil_r, append_nil_l. Qed.

Lemma infix_app_l (v s t : string) : PyStr.infix v s → PyStr.infix v (s +:+ t).
Proof.
  intros (pre & post & ->). exists pre, (post +:+ t).
  by rewrite !append_assoc.
Qed.

Lemma infix_app_r (v s t : string) : PyStr.infix v t → PyStr.infix v (s +:+ t).
Proof.
  intros (pre & post & ->). exists (s +:+ pre), post.
  by rewrite !append_assoc.
Qed.

(** Every element of a list occurs in its [join]. *)
Lemma infix_join (sep v : string) (l : list string) :
  v ∈ l → PyStr.infix v (PyStr.join sep l).
Proof.
  induction l as [|x l IH]; [by intros ?%elem_of_nil|].
  intros [->|Hin]%elem_of_cons.
  - destruct l; cbn; [apply infix_refl|apply infix_app_l, infix_refl].
  - destruct l as [|y l]; [by apply elem_of_nil in Hin|].
    change (PyStr.infix v (x +:+ sep +:+ PyStr.join sep (y :: l))).
    by apply infix_app_r, infix_app_r, IH.
Qed.

Lemma bind_Ok {A B} (a : A) (f : A → result B) : Ok a ≫= f = f a.
Proof. reflexivity. Qed.

Lemma foldM_cons {A B} (f : A → B → result A) (a : A) x (l : list B) :
  foldM f a (x :: l) = a' ← f a x; foldM f a' l.
Proof. reflexivity. Qed.

Lemma foldM_app {A B} (f : A → B → result A) (a : A) (l k : list B) :
  foldM f a (l ++ k) = a' ← foldM f a l; foldM f a' k.
Proof.
  revert a. induction l as [|x l IH]; intros a; [done|].
  cbn. destruct (f a x); cbn; [apply IH|done].
Qed.

(** A loop that ends normally ran each of its iterations normally. *)
Lemma foldM_Ok_elem {A B} (f : A → B → result A) (a r : A) (l : list B) x :
  foldM f a l = Ok r → x ∈ l → ∃ a1 a2, f a1 x = Ok a2.
Proof.
  revert a. induction l as [|y l IH]; intros a Hr Hin.
  { by apply elem_of_nil in Hin. }
  cbn in Hr. destruct (f a y) as [a'|e] eqn:Hf; [|done].
  apply elem_of_cons in Hin as [->|Hin]; eauto.
Qed.

(** A loop whose body never raises is a plain left fold. *)
Lemma foldM_pure {A B} (f : A → B → result A) (g : A → B → A) (a : A)
    (l : list B) :
  (∀ a' x, x ∈ l → f a' x = Ok (g a' x)) → foldM f a l = Ok (foldl g a l).
Proof.
  revert a. induction l as [|x l IH]; intros a Hf; [done|].
  cbn. rewrite Hf by left. cbn. apply IH. intros. apply Hf. by right.
Qed.

End basics.

(** ** [str.strip] trims exactly the surrounding whitespace *)

Section strip.
Import PyStr.

Lemma all_space_nil : all_space "".
Proof. constructor. Qed.

Lemma all_space_cons c s : isspace c = true → all_space s → all_space (String c s).
Proof. intros. by constructor. Qed.

Lemma lstrip_split (s : string) :
  ∃ l, s = l +:+ lstrip s ∧ all_space l ∧ starts_with_space (lstrip s) = false.
Proof.
  induction s as [|c s (l & Hs & Hl & Hhd)].
  { exists "". split_and!; [done|apply all_space_nil|done]. }
  cbn [lstrip]. destruct (isspace c) eqn:Hc.
  - exists (String c l). split_and!; [|by apply all_space_cons|done].
    by rewrite append_cons, <-Hs.
  - exists "". split_and!; [done|apply all_space_nil|done].
Qed.

Lemma rstrip_split (s : string) :
  ∃ r, s = rstrip s +:+ r ∧ all_space r ∧ ends_with_space (rstrip s) = false.
Proof.
  induction s as [|c s (r & Hs & Hr & Htl)].
  { exists "". split_and!; [done|apply all_space_nil|done]. }
  cbn [rstrip]. destruct (rstrip s) as [|c' s'] eqn:Hrs.
  - rewrite append_nil_l in Hs. subst r. destruct (isspace c) eqn:Hc.
    + exists (String c s). split_and!; [done|by apply all_space_cons|done].
    + exists s. split_and!; [done|done|]. cbn. by rewrite Hc.
  - exists r. split_and!; [|done|done].
    by rewrite append_cons, <-Hs.
Qed.

Lemma rstrip_head (s : string) :
  starts_with_space s = false → starts_with_space (rstrip s) = false.
Proof.
  destruct s as [|c s]; [done|]. cbn [rstrip starts_with_space]. intros Hc.
  destruct (rstrip s); [by rewrite Hc|done].
Qed.

(** [strip s] is [s] without a longest prefix and a longest suffix of
    whitespace. *)
Lemma strip_trimmed (s : string) :
  ∃ l r, s = l +:+ strip s +:+ r ∧ all_space l ∧ all_space r ∧
         starts_with_space (strip s) = false ∧
         ends_with_space (strip s) = false.
Proof.
  destruct (lstrip_split s) as (l & Hs & Hl & Hhd).
  destruct (rstrip_split (lstrip s)) as (r & Hs' & Hr & Htl).
  exists l, r. unfold strip. split_and!; [|done|done|by apply rstrip_head|done].
  by rewrite <-Hs', <-Hs.
Qed.

End strip.

(** ** Text rendering *)

Section rendering.
Import PdfToSheet.

Lemma concat_str_app (l k : list string) :
  concat_str (l ++ k) = concat_str l +:+ concat_str k.
Proof.
  unfold concat_str. induction l as [|x l IH]; [done|].
  cbn. by rewrite IH, append_assoc.
Qed.

Lemma add_child_piece (text : string) (word : Block) :
  add_child text word = text +:+ piece word.
Proof.
  unfold add_child, piece.
  destruct (decide (BlockType word = Some "WORD")) as [Hw|Hw].
  { by rewrite !bool_decide_eq_true_2. }
  rewrite !(bool_decide_eq_false_2 _ Hw).
  destruct (decide (BlockType word = Some "SELECTION_ELEMENT")) as [Hs|Hs];
    [rewrite (bool_decide_eq_true_2 _ Hs)|rewrite (bool_decide_eq_false_2 _ Hs)].
  - destruct (decide (SelectionStatus word = Some "SELECTED")) as [Hx|Hx].
    + by rewrite !bool_decide_eq_true_2.
    + rewrite !bool_decide_eq_false_2 by tauto.
      by rewrite append_nil_r.
  - rewrite bool_decide_eq_false_2 by tauto. by rewrite append_nil_r.
Qed.

Lemma visit_child_Some (bm : BlockMap) text cid child :
  bm !! Some cid = Some child →
  visit_child bm text cid = Ok (add_child text child).
Proof. intros H. unfold visit_child. by rewrite H. Qed.

Lemma visit_rel_typed (bm : BlockMap) text rel ty :
  rel_Type rel = Some ty →
  visit_rel bm text rel
  = if bool_decide (ty = "CHILD") && has_ids rel
    then foldM (visit_child bm) text (default [] (rel_Ids rel))
    else Ok text.
Proof. intros H. unfold visit_rel. by rewrite H. Qed.

Lemma visit_children (bm : BlockMap) (text : string) ids children :
  Forall2 (λ cid child, bm !! Some cid = Some child) ids children →
  foldM (visit_child bm) text ids
  = Ok (text +:+ concat_str (piece <$> children)).
Proof.
  intros H. revert text.
  induction H as [|cid child ids children Hc _ IH]; intros text.
  { cbn. by rewrite append_nil_r. }
  cbn [foldM]. rewrite (visit_child_Some _ _ _ _ Hc). cbn.
  by rewrite IH, add_child_piece, append_assoc.
Qed.

Lemma visit_rels (bm : BlockMap) (text : string) rels children :
  Forall (λ rel, is_Some (rel_Type rel)) rels →
  Forall2 (λ cid child, bm !! Some cid = Some child)
          (rels ≫= rel_targets) children →
  foldM (visit_rel bm) text rels
  = Ok (text +:+ concat_str (piece <$> children)).
Proof.
  intros Hty. revert text children.
  induction Hty as [|rel rels [ty Hrel] _ IH]; intros text children H.
  { apply Forall2_nil_inv_l in H as ->. cbn. by rewrite append_nil_r. }
  rewrite bind_cons in H.
  apply Forall2_app_inv_l in H as (k1 & k2 & H1 & H2 & ->).
  cbn [foldM]. rewrite (visit_rel_typed _ _ _ _ Hrel).
  unfold rel_targets in H1. rewrite Hrel in H1.
  rewrite fmap_app, concat_str_app, <-append_assoc.
  destruct (decide (ty = "CHILD")) as [->|Hchild].
  - rewrite bool_decide_eq_true_2 in H1 by done.
    rewrite bool_decide_eq_true_2 by done. cbn [andb].
    destruct (has_ids rel) eqn:Hids.
    + rewrite (visit_children _ _ _ _ H1). cbn. by apply IH.
    + assert (default [] (rel_Ids rel) = []) as Hnil.
      { unfold has_ids in Hids. by destruct (rel_Ids rel) as [[|??]|]. }
      rewrite Hnil in H1. apply Forall2_nil_inv_l in H1 as ->.
      cbn. rewrite append_nil_r. by apply IH.
  - rewrite bool_decide_eq_false_2 in H1 by congruence.
    rewrite (bool_decide_eq_false_2 _ Hchild). cbn [andb].
    apply Forall2_nil_inv_l in H1 as ->.
    cbn. rewrite append_nil_r. by apply IH.
Qed.

Lemma extract_text_children (b : Block) (bm : BlockMap) children :
  typed b →
  Forall2 (λ cid child, bm !! Some cid = Some child) (child_targets b) children →
  extract_text (Some b) bm = Ok (PyStr.strip (concat_str (piece <$> children))).
Proof.
  intros Hty H. unfold extract_text.
  destruct (is_empty_block b) eqn:He.
  - destruct b as [[] [] [] [] [] [] [] [] []]; try done.
    apply Forall2_nil_inv_l in H as ->. done.
  - by rewrite (visit_rels _ _ _ _ Hty H).
Qed.

(** A block without CHILD relationship has no child target. *)
Lemma child_targets_no_child (b : Block) :
  Forall (λ rel, rel_Type rel ≠ Some "CHILD") (default [] (Relationships b)) →
  child_targets b = [].
Proof.
  unfold child_targets. induction 1 as [|rel rels Hrel _ IH]; [done|].
  rewrite bind_cons, IH. unfold rel_targets.
  by rewrite bool_decide_eq_false_2.
Qed.

(** If the text of a block is computed, each CHILD target was found. *)
Lemma extract_text_Ok_resolved (b : Block) (bm : BlockMap) text cid :
  extract_text (Some b) bm = Ok text → cid ∈ child_targets b →
  is_Some (bm !! Some cid).
Proof.
  unfold extract_text, child_targets. intros Hok Hcid.
  apply list_elem_of_bind in Hcid as (rel & Hcid & Hrel).
  destruct (is_empty_block b) eqn:He.
  { destruct b as [[] [] [] [] [] [] [] [] []]; try done.
    by apply elem_of_nil in Hrel. }
  destruct (foldM _ _ _) as [t|] eqn:Hfold; [|done].
  destruct (foldM_Ok_elem _ _ _ _ _ Hfold Hrel) as (t1 & t2 & Hstep).
  unfold rel_targets in Hcid. unfold visit_rel in Hstep.
  destruct (rel_Type rel) as [ty|] eqn:Hty; [|done]. cbn in Hstep.
  destruct (decide (ty = "CHILD")) as [->|Hne].
  - rewrite bool_decide_eq_true_2 in Hcid by done.
    rewrite bool_decide_eq_true_2 in Hstep by done.
    destruct (has_ids rel) eqn:Hids; cbn [andb] in Hstep.
    + destruct (foldM_Ok_elem _ _ _ _ _ Hstep Hcid) as (u1 & u2 & Hvisit).
      unfold visit_child in Hvisit.
      by destruct (bm !! Some cid).
    + unfold has_ids in Hids. destruct (rel_Ids rel) as [[|??]|]; try done;
        by apply elem_of_nil in Hcid.
  - rewrite bool_decide_eq_false_2 in Hcid by congruence.
    by apply elem_of_nil in Hcid.
Qed.

End rendering.

(** ** The only exception of the reconstruction is [KeyError] *)

Section key_errors.
Import PdfToSheet.

Lemma only_KeyError_Ok {A} (a : A) : only_KeyError (Ok a).
Proof. by intros e. Qed.

Lemma only_KeyError_getitem {A} key (field : option A) :
  only_KeyError (getitem key field).
Proof. intros e. destruct field; cbn; [done|]. intros [= <-]. eauto. Qed.

Lemma only_KeyError_bind {A B} (m : result A) (f : A → result B) :
  only_KeyError m → (∀ a, only_KeyError (f a)) → only_KeyError (m ≫= f).
Proof.
  intros Hm Hf e. destruct m as [a|e']; cbn; [apply Hf|].
  intros [= <-]. by apply Hm.
Qed.

Lemma only_KeyError_foldM {A B} (f : A → B → result A) a l :
  (∀ a' x, only_KeyError (f a' x)) → only_KeyError (foldM f a l).
Proof.
  intros Hf. revert a. induction l as [|x l IH]; intros a.
  - apply only_KeyError_Ok.
  - apply only_KeyError_bind; [apply Hf|apply IH].
Qed.

Lemma only_KeyError_if {A} (c : bool) (r1 r2 : result A) :
  only_KeyError r1 → only_KeyError r2 → only_KeyError (if c then r1 else r2).
Proof. by destruct c. Qed.

Ltac key_error :=
  repeat first
    [ progress intros
    | apply only_KeyError_foldM; intros
    | apply only_KeyError_bind; [|intros]
    | apply only_KeyError_if
    | apply only_KeyError_Ok
    | apply only_KeyError_getitem ].

Lemma only_KeyError_extract_text (block : option Block) (bm : BlockMap) :
  only_KeyError (extract_text block bm).
Proof. destruct block as [b|]; unfold extract_text; key_error. Qed.

Lemma only_KeyError_pick_value (vm : BlockMap) value_block rel :
  only_KeyError (pick_value vm value_block rel).
Proof.
  unfold pick_value. key_error. destruct (rel_Ids rel) as [[|??]|]; key_error.
Qed.

Lemma only_KeyError_build_kv_map (blocks : list Block) :
  only_KeyError (build_kv_map blocks).
Proof.
  unfold build_kv_map. apply only_KeyError_bind.
  { apply only_KeyError_foldM. intros. unfold index_block. key_error. }
  intros st. apply only_KeyError_foldM. intros kv entry. unfold pair_key.
  apply only_KeyError_bind.
  { apply only_KeyError_foldM. intros. apply only_KeyError_pick_value. }
  intros vb. apply only_KeyError_bind; [apply only_KeyError_extract_text|].
  intros kt. apply only_KeyError_bind; [|key_error].
  apply only_KeyError_if; [apply only_KeyError_extract_text|key_error].
Qed.

Lemma only_KeyError_add_cell (bm : BlockMap) rows cell_id :
  only_KeyError (add_cell bm rows cell_id).
Proof.
  unfold add_cell. do 2 (apply only_KeyError_bind; [key_error|intros]).
  apply only_KeyError_if; [|key_error].
  do 2 (apply only_KeyError_bind; [key_error|intros]).
  apply only_KeyError_bind; [apply only_KeyError_extract_text|key_error].
Qed.

Lemma only_KeyError_extract_tables (blocks : list Block) :
  only_KeyError (extract_tables blocks).
Proof.
  unfold extract_tables. apply only_KeyError_bind.
  { apply only_KeyError_foldM. intros. unfold add_block. key_error. }
  intros bm. apply only_KeyError_foldM. intros tables block.
  unfold visit_block. apply only_KeyError_bind; [key_error|intros bt].
  apply only_KeyError_if; [|key_error].
  apply only_KeyError_bind; [|key_error].
  apply only_KeyError_foldM. intros rows rel. unfold add_rel.
  apply only_KeyError_bind; [key_error|intros ty].
  apply only_KeyError_if; [|key_error].
  apply only_KeyError_foldM. intros. apply only_KeyError_add_cell.
Qed.

(** A computation that cannot end normally raises [KeyError]. *)
Lemma only_KeyError_raises {A} (r : result A) :
  only_KeyError r → ¬ succeeds r → ∃ key, r = Raise (KeyError key).
Proof.
  intros Hr Hno. destruct r as [a|e].
  - destruct Hno. by exists a.
  - destruct (Hr e eq_refl) as [key ->]. eauto.
Qed.

End key_errors.

(** ** Block collections *)

Section collections.
Import PdfToSheet.

Lemma block_index_snoc (l : list Block) (b : Block) :
  block_index (l ++ [b]) = <[Id b := b]> (block_index l).
Proof. unfold block_index. by rewrite foldl_app. Qed.

Lemma block_index_Some (l : list Block) i b :
  block_index l !! i = Some b → b ∈ l ∧ Id b = i.
Proof.
  induction l as [|x l IH] using rev_ind; [done|].
  rewrite block_index_snoc, lookup_insert. case_decide as Hi.
  - intros [= ->]. split; [|done]. apply elem_of_app. right. by left.
  - intros [??]%IH. split; [|done]. apply elem_of_app. by left.
Qed.

Lemma block_index_is_Some (l : list Block) i :
  i ∈ Id <$> l → is_Some (block_index l !! i).
Proof.
  induction l as [|x l IH] using rev_ind; [by intros ?%elem_of_nil|].
  rewrite fmap_app, elem_of_app, block_index_snoc, lookup_insert.
  case_decide; [by eauto|].
  intros [?|Hx]; [by auto|]. cbn in Hx.
  apply list_elem_of_singleton in Hx. congruence.
Qed.

Lemma block_index_None (l : list Block) i :
  i ∉ Id <$> l → block_index l !! i = None.
Proof.
  intros Hi. destruct (block_index l !! i) as [b|] eqn:Hb; [|done].
  apply block_index_Some in Hb as [Hb <-]. destruct Hi.
  by apply list_elem_of_fmap_2.
Qed.

Lemma block_index_NoDup (l : list Block) b :
  NoDup (Id <$> l) → b ∈ l → block_index l !! Id b = Some b.
Proof.
  induction l as [|x l IH] using rev_ind; [by intros _ ?%elem_of_nil|].
  rewrite fmap_app, block_index_snoc, lookup_insert.
  intros (Hl & Hx & _)%NoDup_app [Hb|Hb]%elem_of_app.
  - case_decide as Heq; [|by apply IH].
    destruct (Hx (Id b)); [by apply list_elem_of_fmap_2|].
    rewrite <-Heq. by left.
  - apply list_elem_of_singleton in Hb as ->. by rewrite decide_True.
Qed.

Lemma well_formed_closed (blocks : list Block) b :
  well_formed blocks = true → b ∈ blocks →
  block_closed (Id <$> blocks) b = true.
Proof.
  unfold well_formed. rewrite forallb_forall. intros H Hb.
  by apply H, list_elem_of_In.
Qed.

Lemma block_closed_typed ids (b : Block) : block_closed ids b = true → typed b.
Proof.
  unfold block_closed, typed. rewrite !andb_true_iff, forallb_forall.
  intros [[_ Hrels] _]. apply Forall_forall. intros rel Hrel.
  apply list_elem_of_In, Hrels in Hrel. unfold rel_closed in Hrel.
  apply andb_true_iff in Hrel as [Hty _]. by apply bool_decide_eq_true in Hty.
Qed.

Lemma block_closed_targets ids (b : Block) cid :
  block_closed ids b = true → cid ∈ child_targets b → Some cid ∈ ids.
Proof.
  unfold block_closed, child_targets. rewrite !andb_true_iff, forallb_forall.
  intros [[_ Hrels] _] (rel & Hcid & Hrel)%list_elem_of_bind.
  apply list_elem_of_In, Hrels in Hrel. unfold rel_closed in Hrel.
  apply andb_true_iff in Hrel as [_ Hids].
  rewrite forallb_forall in Hids. apply list_elem_of_In, Hids in Hcid.
  by apply bool_decide_eq_true in Hcid.
Qed.

(** In a well-formed collection every block has a text. *)
Lemma well_formed_text (blocks : list Block) b :
  well_formed blocks = true → b ∈ blocks →
  ∃ children,
    Forall2 (λ cid child, block_index blocks !! Some cid = Some child)
            (child_targets b) children
    ∧ extract_text (Some b) (block_index blocks)
      = Ok (PyStr.strip (concat_str (piece <$> children))).
Proof.
  intros Hwf Hb. pose proof (well_formed_closed _ _ Hwf Hb) as Hc.
  assert (Forall (λ cid, ∃ child, block_index blocks !! Some cid = Some child)
                 (child_targets b)) as Hall.
  { apply Forall_forall. intros cid Hcid.
    apply block_index_is_Some. by eapply block_closed_targets. }
  apply Forall_exists_Forall2_l in Hall as (children & Hch).
  exists children. split; [done|].
  apply extract_text_children; [by eapply block_closed_typed|done].
Qed.

End collections.

(** ** Key-value reconstruction *)

Section key_values.
Import PdfToSheet.

Lemma PyDict_set_fresh {K V} `{EqDecision K} (k : K) (v : V) d :
  k ∉ d.*1 → PyDict.set k v d = d ++ [(k, v)].
Proof.
  induction d as [|[k' v'] d IH]; [done|]. cbn.
  intros [Hne Hd]%not_elem_of_cons.
  rewrite decide_False by done. by rewrite IH.
Qed.

Lemma index_block_typed (st : kv_index) (b : Block) bt :
  BlockType b = Some bt →
  index_block st b
  = Ok (if is_key_block b then
          {| key_map := PyDict.set (Id b) b (key_map st);
             value_map := value_map st;
             block_map := <[Id b := b]> (block_map st) |}
        else if is_value_block b then
          {| key_map := key_map st;
             value_map := <[Id b := b]> (value_map st);
             block_map := <[Id b := b]> (block_map st) |}
        else
          {| key_map := key_map st; value_map := value_map st;
             block_map := <[Id b := b]> (block_map st) |}).
Proof.
  intros Hbt. unfold index_block, is_key_block, is_value_block, has_key_role.
  rewrite Hbt. cbn.
  destruct (decide (bt = "KEY_VALUE_SET")) as [->|Hne].
  - rewrite !bool_decide_eq_true_2 by done. cbn.
    by destruct (bool_decide ("KEY" ∈ default [] (EntityTypes b))).
  - rewrite (bool_decide_eq_false_2 _ Hne).
    rewrite !bool_decide_eq_false_2 by congruence. done.
Qed.

(** The first loop, on blocks with a type and distinct identifiers. *)
Lemma index_blocks (blocks : list Block) (st : kv_index) :
  Forall (λ b, is_Some (BlockType b)) blocks →
  NoDup (Id <$> blocks) →
  (∀ i, i ∈ (key_map st).*1 → i ∉ Id <$> blocks) →
  foldM index_block st blocks
  = Ok {| key_map := key_map st ++ key_entries blocks;
          value_map := foldl (λ bm b, <[Id b := b]> bm) (value_map st)
                         (filter (λ b, is_value_block b = true) blocks);
          block_map := foldl (λ bm b, <[Id b := b]> bm) (block_map st) blocks |}.
Proof.
  intros Hty. revert st.
  induction Hty as [|b blocks [bt Hbt] _ IH]; intros st Hnd Hfresh.
  { cbn. unfold key_entries. cbn. rewrite app_nil_r. by destruct st. }
  rewrite fmap_cons in Hnd. apply NoDup_cons in Hnd as [Hb Hnd].
  rewrite foldM_cons, (index_block_typed _ _ _ Hbt), bind_Ok.
  unfold key_entries. rewrite !filter_cons.
  destruct (is_key_block b) eqn:Hk.
  - assert (is_value_block b = false) as Hv.
    { unfold is_key_block, is_value_block in *.
      apply andb_true_iff in Hk as [_ ->]. by rewrite andb_false_r. }
    rewrite Hv, decide_True, decide_False by done.
    rewrite IH; [..|done|]; cbn.
    + rewrite PyDict_set_fresh, <-app_assoc; [done|].
      intros Hin. apply (Hfresh _ Hin). rewrite fmap_cons. by left.
    + rewrite PyDict_set_fresh.
      2:{ intros Hin. apply (Hfresh _ Hin). rewrite fmap_cons. by left. }
      intros i. rewrite fmap_app, elem_of_app. cbn.
      intros [Hi|Hi].
      * intros Hi'. apply (Hfresh _ Hi). rewrite fmap_cons. by right.
      * apply list_elem_of_singleton in Hi as ->. done.
  - rewrite decide_False by done.
    destruct (is_value_block b) eqn:Hv.
    + rewrite decide_True by done. rewrite IH; [done|done|]. cbn.
      intros i Hi Hi'. apply (Hfresh _ Hi). rewrite fmap_cons. by right.
    + rewrite decide_False by done. rewrite IH; [done|done|]. cbn.
      intros i Hi Hi'. apply (Hfresh _ Hi). rewrite fmap_cons. by right.
Qed.

Lemma index_blocks_start (blocks : list Block) :
  Forall (λ b, is_Some (BlockType b)) blocks →
  NoDup (Id <$> blocks) →
  foldM index_block empty_index blocks
  = Ok {| key_map := key_entries blocks;
          value_map := value_index blocks;
          block_map := block_index blocks |}.
Proof.
  intros Hty Hnd. rewrite index_blocks; [done..|].
  intros i Hi. by apply elem_of_nil in Hi.
Qed.

Lemma pick_value_typed (vm : BlockMap) value_block rel :
  is_Some (rel_Type rel) →
  pick_value vm value_block rel
  = Ok (match last (value_target rel) with
        | Some vid => vm !! Some vid
        | None => value_block
        end).
Proof.
  intros [ty Hty]. unfold pick_value, value_target, has_ids. rewrite Hty. cbn.
  destruct (decide (ty = "VALUE")) as [->|Hne].
  - rewrite !bool_decide_eq_true_2 by done.
    by destruct (rel_Ids rel) as [[|??]|].
  - rewrite (bool_decide_eq_false_2 _ Hne).
    by rewrite bool_decide_eq_false_2 by congruence.
Qed.

Lemma pick_values (vm : BlockMap) value_block rels :
  Forall (λ rel, is_Some (rel_Type rel)) rels →
  foldM (pick_value vm) value_block rels
  = Ok (match last (rels ≫= value_target) with
        | Some vid => vm !! Some vid
        | None => value_block
        end).
Proof.
  intros Hty. revert value_block.
  induction Hty as [|rel rels Hrel _ IH]; intros value_block; [done|].
  rewrite foldM_cons, (pick_value_typed _ _ _ Hrel), bind_Ok, IH, bind_cons.
  rewrite last_app. by destruct (last (rels ≫= value_target)).
Qed.

Lemma find_value_typed (vm : BlockMap) (kb : Block) :
  typed kb →
  find_value vm kb = Ok (last (value_targets kb) ≫= λ vid, vm !! Some vid).
Proof.
  intros Hty. unfold find_value, value_targets. rewrite pick_values by done.
  by destruct (last _).
Qed.

Lemma filter_same_key {A B} `{EqDecision B} (f : A → B) (l : list A) x :
  NoDup (f <$> l) → x ∈ l → filter (λ y, f y = f x) l = [x].
Proof.
  induction l as [|y l IH]; [by intros _ ?%elem_of_nil|].
  rewrite fmap_cons, NoDup_cons, filter_cons.
  intros [Hy Hnd] [->|Hx]%elem_of_cons.
  - rewrite decide_True by done. f_equal.
    apply elem_of_nil_inv. intros z [Hz Hin]%list_elem_of_filter.
    apply Hy. rewrite <-Hz. by apply list_elem_of_fmap_2.
  - rewrite decide_False; [by apply IH|].
    intros Heq. apply Hy. rewrite Heq. by apply list_elem_of_fmap_2.
Qed.

Lemma NoDup_fmap_filter {A B} (f : A → B) (P : A → Prop)
    `{∀ x, Decision (P x)} (l : list A) :
  NoDup (f <$> l) → NoDup (f <$> filter P l).
Proof.
  induction l as [|y l IH]; [done|].
  rewrite fmap_cons, NoDup_cons, filter_cons. intros [Hy Hnd].
  case_decide; [|by apply IH].
  rewrite fmap_cons, NoDup_cons. split; [|by apply IH].
  intros (z & Hz & [_ Hin]%list_elem_of_filter)%list_elem_of_fmap.
  apply Hy. rewrite Hz. by apply list_elem_of_fmap_2.
Qed.

(** With distinct identifiers, looking an identifier up in the index
    finds the block of that identifier. *)
Lemma block_index_head (l : list Block) i :
  NoDup (Id <$> l) →
  block_index l !! i = head (filter (λ b, Id b = i) l).
Proof.
  intros Hnd. destruct (block_index l !! i) as [b|] eqn:Hb.
  - apply block_index_Some in Hb as [Hb <-].
    by rewrite filter_same_key.
  - assert (filter (λ b, Id b = i) l = []) as ->; [|done].
    apply elem_of_nil_inv. intros z [Hz Hin]%list_elem_of_filter.
    destruct (block_index_is_Some l i) as [b' Hb'].
    { rewrite <-Hz. by apply list_elem_of_fmap_2. }
    congruence.
Qed.

Lemma find_value_paired (blocks : list Block) (kb : Block) :
  NoDup (Id <$> blocks) → typed kb →
  find_value (value_index blocks) kb = Ok (paired_value blocks kb).
Proof.
  intros Hnd Hty. rewrite find_value_typed by done.
  unfold paired_value, value_index. destruct (last _) as [vid|]; [|done].
  cbn. by rewrite block_index_head by by apply NoDup_fmap_filter.
Qed.

Lemma paired_value_elem (blocks : list Block) (kb vb : Block) :
  paired_value blocks kb = Some vb →
  vb ∈ blocks ∧ is_value_block vb = true.
Proof.
  unfold paired_value. destruct (last _) as [vid|]; [|done]. cbn.
  intros Hhd%head_Some_elem_of.
  apply list_elem_of_filter in Hhd as [_ Hvb].
  by apply list_elem_of_filter in Hvb as [??].
Qed.

Lemma pair_key_entry (vm bm : BlockMap) kv entry :
  pair_key vm bm kv entry
  = p ← kv_entry vm bm entry.2; Ok (<[p.1 := p.2]> kv).
Proof.
  unfold pair_key, kv_entry.
  destruct (find_value vm entry.2) as [vb|]; [|reflexivity].
  rewrite !bind_Ok.
  destruct (extract_text (Some entry.2) bm) as [kt|]; [|reflexivity].
  rewrite !bind_Ok.
  by destruct (if truthy vb then _ else _).
Qed.

(** The second loop writes the entries in order. *)
Lemma pair_keys (vm bm : BlockMap) kv entries ps :
  Forall2 (λ entry p, kv_entry vm bm entry.2 = Ok p) entries ps →
  foldM (pair_key vm bm) kv entries
  = Ok (foldl (λ m p, <[p.1 := p.2]> m) kv ps).
Proof.
  intros H. revert kv. induction H as [|e p es ps He _ IH]; intros kv.
  { reflexivity. }
  rewrite foldM_cons, pair_key_entry, He, !bind_Ok. apply IH.
Qed.

(** Among writes to a map, the last write to a key decides its value. *)
Lemma last_write_wins (m : gmap string string) pre k v post :
  k ∉ post.*1 →
  foldl (λ m p, <[p.1 := p.2]> m) m (pre ++ (k, v) :: post) !! k = Some v.
Proof.
  intros Hk. rewrite foldl_app. cbn [foldl].
  generalize (foldl (λ m p, <[p.1 := p.2]> m) m pre). intros m'. cbn.
  assert (<[k:=v]> m' !! k = Some v) as Hm by apply lookup_insert_eq.
  revert Hm. generalize (<[k:=v]> m'). clear m'.
  induction post as [|[k' v'] post IH]; intros m' Hm; [done|].
  rewrite fmap_cons in Hk. apply not_elem_of_cons in Hk as [Hne Hk].
  cbn. apply IH; [done|]. by rewrite lookup_insert_ne.
Qed.

Lemma written_is_Some (m : gmap string string) ps k :
  k ∈ ps.*1 → is_Some (foldl (λ m p, <[p.1 := p.2]> m) m ps !! k).
Proof.
  induction ps as [|[k' v'] ps IH] using rev_ind; [by intros ?%elem_of_nil|].
  rewrite fmap_app, elem_of_app, foldl_app. cbn.
  destruct (decide (k' = k)) as [->|Hne].
  - intros _. rewrite lookup_insert_eq. eauto.
  - rewrite lookup_insert_ne by done. intros [?|Hk]; [by auto|].
    by apply list_elem_of_singleton in Hk.
Qed.

Lemma well_formed_BlockType (blocks : list Block) :
  well_formed blocks = true → Forall (λ b, is_Some (BlockType b)) blocks.
Proof.
  intros Hwf. apply Forall_forall. intros b Hb.
  pose proof (well_formed_closed _ _ Hwf Hb) as Hc. unfold block_closed in Hc.
  rewrite !andb_true_iff in Hc. destruct Hc as [[[_ Hbt] _] _].
  by apply bool_decide_eq_true in Hbt.
Qed.

Lemma value_block_truthy (vb : Block) :
  is_value_block vb = true → truthy (Some vb) = true.
Proof.
  unfold is_value_block. intros [Hbt _]%andb_true_iff.
  apply bool_decide_eq_true in Hbt.
  by destruct vb as [[] [] [] [] [] [] [] [] []].
Qed.

(** In a well-formed collection with distinct identifiers, every key
    block yields an entry: its own text, and the text of its paired value
    block or the empty string. *)
Lemma kv_entry_well_formed (blocks : list Block) (kb : Block) :
  well_formed blocks = true → NoDup (Id <$> blocks) → kb ∈ blocks →
  ∃ key_text val_text,
    kv_entry (value_index blocks) (block_index blocks) kb
    = Ok (key_text, val_text)
    ∧ extract_text (Some kb) (block_index blocks) = Ok key_text
    ∧ match paired_value blocks kb with
      | Some vb => extract_text (Some vb) (block_index blocks) = Ok val_text
      | None => val_text = ""
      end.
Proof.
  intros Hwf Hnd Hkb.
  destruct (well_formed_text _ _ Hwf Hkb) as (children & _ & Hkt).
  unfold kv_entry. rewrite find_value_paired; [|done|].
  2:{ eapply block_closed_typed. by apply well_formed_closed. }
  rewrite bind_Ok, Hkt, bind_Ok.
  destruct (paired_value blocks kb) as [vb|] eqn:Hvb.
  - apply paired_value_elem in Hvb as [Hin Hval].
    destruct (well_formed_text _ _ Hwf Hin) as (children' & _ & Hvt).
    rewrite (value_block_truthy _ Hval), Hvt, bind_Ok. eauto.
  - cbn. eauto.
Qed.

(** The whole of [build_kv_map]: the entries of the key blocks, written
    in the order of the collection. *)
Lemma build_kv_map_writes (blocks : list Block) :
  well_formed blocks = true → NoDup (Id <$> blocks) →
  build_kv_map blocks
  = Ok (foldl (λ m p, <[p.1 := p.2]> m) ∅
          (entry_of blocks <$> filter (λ b, is_key_block b = true) blocks)).
Proof.
  intros Hwf Hnd. unfold build_kv_map.
  rewrite index_blocks_start, bind_Ok by auto using well_formed_BlockType.
  cbn [key_map value_map block_map]. apply pair_keys.
  unfold key_entries. apply Forall2_fmap, Forall_Forall2_diag, Forall_forall.
  intros kb [_ Hkb]%list_elem_of_filter. cbn. unfold entry_of.
  by destruct (kv_entry_well_formed _ _ Hwf Hnd Hkb) as (kt & vt & -> & _).
Qed.

End key_values.

(** C1. For a block collection that follows the schema and has distinct
    identifiers, [build_kv_map] returns a mapping such that every key block
    has an entry under its rendered text. Unless a later key block renders
    to the same text, the value of that entry is the rendered text of the
    paired value block when that block is found among the value blocks,
    and the empty string when it is not: the last key block of a given text
    decides. *)
Theorem build_kv_map_entries (blocks : list Block) :
  well_formed blocks = true →
  NoDup (Id <$> blocks) →
  ∃ kv_pairs,
    PdfToSheet.build_kv_map blocks = Ok kv_pairs ∧
    ∀ pre kb post,
      blocks = pre ++ kb :: post → is_key_block kb = true →
      ∃ key_text val_text,
        PdfToSheet.extract_text (Some kb) (block_index blocks) = Ok key_text
        ∧ match paired_value blocks kb with
          | Some vb =>
              PdfToSheet.extract_text (Some vb) (block_index blocks) = Ok val_text
          | None => val_text = ""
          end
        ∧ is_Some (kv_pairs !! key_text)
        ∧ ((∀ kb', kb' ∈ post → is_key_block kb' = true →
              PdfToSheet.extract_text (Some kb') (block_index blocks) ≠ Ok key_text) →
           kv_pairs !! key_text = Some val_text).
Proof.
  intros Hwf Hnd. eexists. split; [by apply build_kv_map_writes|].
  intros pre kb post Hblocks Hkey.
  assert (kb ∈ blocks) as Hkb.
  { rewrite Hblocks. apply elem_of_app. right. by left. }
  destruct (kv_entry_well_formed _ _ Hwf Hnd Hkb) as (kt & vt & He & Hkt & Hvt).
  assert (entry_of blocks kb = (kt, vt)) as Hentry.
  { unfold entry_of. by rewrite He. }
  exists kt, vt. split_and!; [done|done|..].
  - apply written_is_Some. apply list_elem_of_fmap. exists (kt, vt).
    split; [done|]. rewrite <-Hentry. apply list_elem_of_fmap_2.
    by apply list_elem_of_filter.
  - intros Hlater. rewrite Hblocks at 2.
    rewrite filter_app, filter_cons_True, fmap_app, fmap_cons, Hentry by done.
    apply last_write_wins.
    intros ([kt' vt'] & Hfst & Hin)%list_elem_of_fmap. cbn in Hfst. subst kt'.
    apply list_elem_of_fmap in Hin as (kb' & Hentry' & [Hkey' Hin]%list_elem_of_filter).
    apply (Hlater kb' Hin Hkey').
    assert (kb' ∈ blocks) as Hkb'.
    { rewrite Hblocks. apply elem_of_app. right. by right. }
    destruct (kv_entry_well_formed _ _ Hwf Hnd Hkb') as (kt' & vt'' & He' & Hkt' & _).
    unfold entry_of in Hentry'. rewrite He' in Hentry'. congruence.
Qed.

(** C4. [extract_text] gives the empty string for an absent block and for
    a block without CHILD relationship. For a block whose relationships are
    typed and whose CHILD targets are all found, it gives the concatenation,
    in listed order, of what each child contributes (the text and a space for
    a WORD, "X" and a space for a selected SELECTION_ELEMENT, nothing
    otherwise), without the whitespace at both ends; a block whose only child
    is a selected SELECTION_ELEMENT renders to "X". *)
Theorem extract_text_renders (b : Block) (bm : BlockMap) (children : list Block) :
  typed b →
  Forall2 (λ cid child, bm !! Some cid = Some child) (child_targets b) children →
  PdfToSheet.extract_text None bm = Ok ""
  ∧ (Forall (λ rel, rel_Type rel ≠ Some "CHILD") (default [] (Relationships b)) →
     PdfToSheet.extract_text (Some b) bm = Ok "")
  ∧ PdfToSheet.extract_text (Some b) bm
    = Ok (PyStr.strip (concat_str (piece <$> children)))
  ∧ (∃ text l r,
       PdfToSheet.extract_text (Some b) bm = Ok text
       ∧ concat_str (piece <$> children) = l +:+ text +:+ r
       ∧ PyStr.all_space l ∧ PyStr.all_space r
       ∧ starts_with_space text = false ∧ ends_with_space text = false)
  ∧ (∀ child, children = [child] →
       BlockType child = Some "SELECTION_ELEMENT" →
       SelectionStatus child = Some "SELECTED" →
       PdfToSheet.extract_text (Some b) bm = Ok "X").
Proof.
  intros Hty Hch.
  pose proof (extract_text_children b bm children Hty Hch) as Htext.
  split_and!; [done| |done| |].
  - intros Hno. rewrite (child_targets_no_child _ Hno) in Hch.
    apply Forall2_nil_inv_l in Hch as ->. by rewrite Htext.
  - destruct (strip_trimmed (concat_str (piece <$> children)))
      as (l & r & Hsplit & Hl & Hr & Hhd & Htl).
    by exists (PyStr.strip (concat_str (piece <$> children))), l, r.
  - intros child -> Hsel Hstatus. rewrite Htext. cbn. unfold piece.
    rewrite bool_decide_eq_false_2 by congruence.
    by rewrite bool_decide_eq_true_2.
Qed.

Lemma extract_text_renders_witness :
  PdfToSheet.extract_text (Some sample_checkbox) (block_index sample_form)
  = Ok "X".
Proof.
  refine (proj2 (proj2 (proj2 (proj2
    (extract_text_renders sample_checkbox (block_index sample_form)
       [selection_block "s1" "SELECTED"] _ _)))) _ eq_refl eq_refl eq_refl).
  - repeat constructor; by eexists.
  - repeat constructor.
Defined.

Lemma build_kv_map_entries_witness :
  ∃ kv_pairs,
    PdfToSheet.build_kv_map sample_form = Ok kv_pairs ∧
    ∀ pre kb post,
      sample_form = pre ++ kb :: post → is_key_block kb = true →
      ∃ key_text val_text,
        PdfToSheet.extract_text (Some kb) (block_index sample_form) = Ok key_text
        ∧ match paired_value sample_form kb with
          | Some vb =>
              PdfToSheet.extract_text (Some vb) (block_index sample_form)
              = Ok val_text
          | None => val_text = ""
          end
        ∧ is_Some (kv_pairs !! key_text)
        ∧ ((∀ kb', kb' ∈ post → is_key_block kb' = true →
              PdfToSheet.extract_text (Some kb') (block_index sample_form)
              ≠ Ok key_text) →
           kv_pairs !! key_text = Some val_text).
Proof.
  apply (build_kv_map_entries sample_form).
  - reflexivity.
  - apply (bool_decide_unpack _). reflexivity.
Defined.

(** ** Targets that are not in the collection *)

Section dangling.
Import PdfToSheet.

Lemma index_blocks_Ok_typed (blocks : list Block) st st' :
  foldM index_block st blocks = Ok st' →
  Forall (λ b, is_Some (BlockType b)) blocks.
Proof.
  intros Hok. apply Forall_forall. intros b Hb.
  destruct (foldM_Ok_elem _ _ _ _ _ Hok Hb) as (s1 & s2 & Hstep).
  unfold index_block in Hstep. by destruct (BlockType b).
Qed.

Lemma build_kv_map_dangling (blocks : list Block) (kb : Block) cid :
  NoDup (Id <$> blocks) → kb ∈ blocks → is_key_block kb = true →
  cid ∈ child_targets kb → Some cid ∉ Id <$> blocks →
  ¬ succeeds (build_kv_map blocks).
Proof.
  intros Hnd Hkb Hkey Hcid Hmiss [kv Hok]. unfold build_kv_map in Hok.
  destruct (foldM index_block empty_index blocks) as [st|] eqn:Hst; [|done].
  pose proof (index_blocks_Ok_typed _ _ _ Hst) as Hty.
  rewrite index_blocks_start in Hst by done. injection Hst as <-.
  rewrite bind_Ok in Hok. cbn [key_map value_map block_map] in Hok.
  assert ((Id kb, kb) ∈ key_entries blocks) as Hentry.
  { unfold key_entries. apply (list_elem_of_fmap_2 (λ b, (Id b, b))).
    by apply list_elem_of_filter. }
  destruct (foldM_Ok_elem _ _ _ _ _ Hok Hentry) as (m1 & m2 & Hstep).
  rewrite pair_key_entry in Hstep. unfold kv_entry in Hstep.
  cbn [snd] in Hstep.
  destruct (find_value _ kb); [|done]. rewrite bind_Ok in Hstep.
  destruct (extract_text (Some kb) _) as [kt|] eqn:Hkt; [|done].
  destruct (extract_text_Ok_resolved _ _ _ _ Hkt Hcid) as [b Hb].
  by rewrite block_index_None in Hb.
Qed.

Lemma add_blocks_index (blocks : list Block) (m bm : BlockMap) :
  foldM add_block m blocks = Ok bm →
  bm = foldl (λ bm b, <[Id b := b]> bm) m blocks.
Proof.
  revert m. induction blocks as [|b blocks IH]; intros m.
  { cbn. congruence. }
  rewrite foldM_cons.
  assert (add_block m b = match Id b with
                          | Some i => Ok (<[Id b := b]> m)
                          | None => Raise (KeyError "Id")
                          end) as ->.
  { unfold add_block. by destruct (Id b). }
  destruct (Id b) as [i|] eqn:Hi; [|by cbn].
  rewrite bind_Ok. intros ->%IH. cbn. by rewrite Hi.
Qed.

Lemma extract_tables_dangling (blocks : list Block) (tb : Block) cid :
  tb ∈ blocks → BlockType tb = Some "TABLE" →
  cid ∈ child_targets tb → Some cid ∉ Id <$> blocks →
  ¬ succeeds (extract_tables blocks).
Proof.
  intros Htb Hty Hcid Hmiss [ts Hok]. unfold extract_tables in Hok.
  destruct (foldM add_block ∅ blocks) as [bm|] eqn:Hbm; [|done].
  apply add_blocks_index in Hbm. fold (block_index blocks) in Hbm. subst bm.
  rewrite bind_Ok in Hok.
  destruct (foldM_Ok_elem _ _ _ _ _ Hok Htb) as (t1 & t2 & Hstep).
  unfold visit_block in Hstep. rewrite Hty in Hstep. cbn in Hstep.
  destruct (table_rows _ tb) as [rows|] eqn:Hrows; [|done].
  unfold table_rows in Hrows.
  apply list_elem_of_bind in Hcid as (rel & Hcid & Hrel).
  destruct (foldM_Ok_elem _ _ _ _ _ Hrows Hrel) as (r1 & r2 & Hadd).
  unfold add_rel in Hadd. unfold rel_targets in Hcid.
  destruct (rel_Type rel) as [ty|]; [|done]. cbn in Hadd.
  destruct (decide (ty = "CHILD")) as [->|Hne].
  2:{ rewrite bool_decide_eq_false_2 in Hcid by congruence.
      by apply elem_of_nil in Hcid. }
  rewrite bool_decide_eq_true_2 in Hcid by done.
  rewrite bool_decide_eq_true_2 in Hadd by done.
  destruct (foldM_Ok_elem _ _ _ _ _ Hadd Hcid) as (c1 & c2 & Hcell).
  unfold add_cell in Hcell. rewrite block_index_None in Hcell by done.
  done.
Qed.

Lemma paired_value_dangling (blocks : list Block) (kb : Block) vid :
  last (value_targets kb) = Some vid → Some vid ∉ Id <$> blocks →
  paired_value blocks kb = None.
Proof.
  intros Hlast Hmiss. unfold paired_value. rewrite Hlast. cbn.
  destruct (head _) as [vb|] eqn:Hhd; [|done].
  apply head_Some_elem_of, list_elem_of_filter in Hhd as [Hid Hvb].
  apply list_elem_of_filter in Hvb as [_ Hvb].
  destruct Hmiss. rewrite <-Hid. by apply list_elem_of_fmap_2.
Qed.

End dangling.

(** C3 does not hold for CHILD relationships: a CHILD target that is not in
    the collection makes [extract_text], [build_kv_map] and
    [extract_tables] raise [KeyError], where the same collections without
    the relationship's target list are reconstructed normally. *)
Lemma dangling_child_raises :
(Some "w9" ∉ Id <$> [dangling_key])
  ∧ PdfToSheet.extract_text (Some dangling_key) (block_index [dangling_key])
    = Raise (KeyError "w9")
  ∧ PdfToSheet.build_kv_map [dangling_key] = Raise (KeyError "w9")
  ∧ PdfToSheet.build_kv_map [kv_block "k1" ["KEY"] []] = Ok {[ "" := "" ]}
  ∧ (Some "c9" ∉ Id <$> [dangling_table])
  ∧ PdfToSheet.extract_tables [dangling_table] = Raise (KeyError "c9")
  ∧ PdfToSheet.extract_tables [table_block "t1" []] = Ok [[]].
Proof.
  split_and!; try (vm_compute; reflexivity);
    by intros [=]%list_elem_of_singleton.
Qed.

(** C3, amended. Let an identifier be absent from the collection. A key
    block whose VALUE relationship points to it is paired with no value
    block, and no exception is raised for it. A CHILD relationship that
    points to it is not tolerated: [extract_text] raises [KeyError] on a
    block with such a child, [build_kv_map] on a collection (of distinct
    identifiers) in which a key block has such a child, and
    [extract_tables] on a collection in which a TABLE block has such a
    child. *)
Theorem dangling_targets (blocks : list Block) (b : Block) (cid : string) :
  b ∈ blocks →
  Some cid ∉ Id <$> blocks →
  (typed b → last (value_targets b) = Some cid →
     PdfToSheet.find_value (value_index blocks) b = Ok None
     ∧ paired_value blocks b = None)
  ∧ (cid ∈ child_targets b →
     ∃ key, PdfToSheet.extract_text (Some b) (block_index blocks)
            = Raise (KeyError key))
  ∧ (NoDup (Id <$> blocks) → is_key_block b = true → cid ∈ child_targets b →
     ∃ key, PdfToSheet.build_kv_map blocks = Raise (KeyError key))
  ∧ (BlockType b = Some "TABLE" → cid ∈ child_targets b →
     ∃ key, PdfToSheet.extract_tables blocks = Raise (KeyError key)).
Proof.
  intros Hb Hmiss. split_and!.
  - intros Hty Hlast. split; [|by eapply paired_value_dangling].
    rewrite find_value_typed, Hlast by done. cbn. f_equal.
    apply block_index_None.
    intros (vb & Hid & [_ Hvb]%list_elem_of_filter)%list_elem_of_fmap.
    apply Hmiss. rewrite Hid. by apply list_elem_of_fmap_2.
  - intros Hcid. apply only_KeyError_raises.
    { apply only_KeyError_extract_text. }
    intros [text Hok].
    destruct (extract_text_Ok_resolved _ _ _ _ Hok Hcid) as [b' Hb'].
    by rewrite block_index_None in Hb'.
  - intros Hnd Hkey Hcid. apply only_KeyError_raises.
    { apply only_KeyError_build_kv_map. }
    by eapply build_kv_map_dangling.
  - intros Htable Hcid. apply only_KeyError_raises.
    { apply only_KeyError_extract_tables. }
    by eapply extract_tables_dangling.
Qed.

Lemma dangling_targets_witness :
  PdfToSheet.find_value (value_index sample_form)
    (kv_block "k2" ["KEY"] [value_rel ["v9"]; child_rel ["w3"]]) = Ok None
  ∧ paired_value sample_form
      (kv_block "k2" ["KEY"] [value_rel ["v9"]; child_rel ["w3"]]) = None.
Proof.
  refine (proj1 (dangling_targets sample_form
    (kv_block "k2" ["KEY"] [value_rel ["v9"]; child_rel ["w3"]]) "v9" _ _) _ _).
  - apply list_elem_of_In. do 5 right. left. reflexivity.
  - apply (bool_decide_unpack _). reflexivity.
  - repeat constructor; by eexists.
  - reflexivity.
Defined.

(** ** Table reconstruction *)

Section tables.
Import PdfToSheet.

Lemma elem_of_sorted_keys {V} (d : gmap Z V) k :
  k ∈ sorted_keys d ↔ is_Some (d !! k).
Proof.
  unfold sorted_keys. rewrite merge_sort_Permutation, list_elem_of_fmap. split.
  - intros ([k' v] & -> & Hin). apply elem_of_map_to_list in Hin. by eexists.
  - intros [v Hv]. exists (k, v). split; [done|]. by apply elem_of_map_to_list.
Qed.

Lemma StronglySorted_le_lt (l : list Z) :
  StronglySorted Z.le l → NoDup l → StronglySorted Z.lt l.
Proof.
  induction 1 as [|x l Hl IH Hx]; [constructor|].
  intros [Hnin Hnd]%NoDup_cons. constructor; [by apply IH|].
  apply Forall_forall. intros y Hy.
  rewrite Forall_forall in Hx. specialize (Hx y Hy).
  assert (x ≠ y) by (by intros ->). lia.
Qed.

Lemma sorted_keys_ascending {V} (d : gmap Z V) :
  StronglySorted Z.lt (sorted_keys d).
Proof.
  apply StronglySorted_le_lt.
  - apply (StronglySorted_merge_sort _).
  - unfold sorted_keys. rewrite merge_sort_Permutation.
    apply NoDup_fst_map_to_list.
Qed.

Lemma table_data_grid (rows : gmap Z (gmap Z string)) :
  table_data rows = drop_indices (grid rows).
Proof.
  unfold table_data, drop_indices, grid, row_values, grid_row.
  rewrite <-list_fmap_compose. apply list_fmap_ext. intros _ r _. cbn.
  by rewrite <-list_fmap_compose.
Qed.

Lemma fst_tagged {A B} (f : A → B) (l : list A) :
  ((λ x, (x, f x)) <$> l).*1 = l.
Proof. induction l as [|x l IH]; [done|]. cbn. by rewrite IH. Qed.

Lemma grid_rows_ascending (rows : gmap Z (gmap Z string)) :
  StronglySorted Z.lt (grid rows).*1.
Proof. unfold grid. rewrite fst_tagged. apply sorted_keys_ascending. Qed.

Lemma grid_row_ascending (row : gmap Z string) :
  StronglySorted Z.lt (grid_row row).*1.
Proof. unfold grid_row. rewrite fst_tagged. apply sorted_keys_ascending. Qed.

Lemma elem_of_grid_row (row : gmap Z string) c t :
  (c, t) ∈ grid_row row ↔ row !! c = Some t.
Proof.
  unfold grid_row. rewrite list_elem_of_fmap. split.
  - intros (c' & [= -> ->] & [t' Ht]%elem_of_sorted_keys). by rewrite Ht.
  - intros Ht. exists c. rewrite Ht. split; [done|].
    apply elem_of_sorted_keys. by eexists.
Qed.

Lemma elem_of_grid (rows : gmap Z (gmap Z string)) r row :
  (r, row) ∈ grid rows ↔ ∃ m, rows !! r = Some m ∧ row = grid_row m.
Proof.
  unfold grid. rewrite list_elem_of_fmap. split.
  - intros (r' & [= -> ->] & [m Hm]%elem_of_sorted_keys).
    exists m. by rewrite (lookup_total_correct _ _ _ Hm).
  - intros (m & Hm & ->). exists r.
    rewrite (lookup_total_correct _ _ _ Hm). split; [done|].
    apply elem_of_sorted_keys. by eexists.
Qed.

Lemma lookup2_place (rows : gmap Z (gmap Z string)) x r c :
  lookup2 (place rows x) r c
  = if decide (x.1 = (r, c)) then Some x.2 else lookup2 rows r c.
Proof.
  destruct x as [[r' c'] t]. unfold lookup2, place, set_cell. cbn.
  rewrite lookup_insert. destruct (decide (r' = r)) as [->|Hr]; cbn.
  - rewrite lookup_insert. destruct (decide (c' = c)) as [->|Hc].
    + by rewrite decide_True.
    + rewrite decide_False by congruence.
      destruct (rows !! r); [done|]. cbn. apply lookup_empty.
  - by rewrite decide_False by congruence.
Qed.

Lemma lookup2_rows cells (m : gmap Z (gmap Z string)) r c :
  lookup2 (foldl place m cells) r c
  = match cell_text cells r c with
    | Some t => Some t
    | None => lookup2 m r c
    end.
Proof.
  unfold cell_text.
  induction cells as [|x cells IH] using rev_ind; [done|].
  rewrite foldl_app, filter_app. cbn [foldl].
  rewrite lookup2_place, filter_cons, filter_nil.
  destruct (decide (x.1 = (r, c))); [by rewrite last_snoc|].
  by rewrite app_nil_r.
Qed.

Lemma rows_nonempty cells (m : gmap Z (gmap Z string)) :
  map_Forall (λ _ row, row ≠ ∅) m →
  map_Forall (λ _ row, row ≠ ∅) (foldl place m cells).
Proof.
  revert m. induction cells as [|x cells IH]; intros m Hm; [done|].
  cbn. apply IH. unfold place, set_cell.
  apply map_Forall_insert_2; [apply insert_non_empty|done].
Qed.

Lemma grid_row_nonempty (row : gmap Z string) : row ≠ ∅ → grid_row row ≠ [].
Proof.
  intros (c & t & Hc)%map_choose Hnil.
  apply elem_of_grid_row in Hc. rewrite Hnil in Hc. by apply elem_of_nil in Hc.
Qed.

(** The grid of a table holds exactly the observed cells. *)
Lemma grid_observed cells r c t :
  (∃ row, (r, row) ∈ grid (foldl place ∅ cells) ∧ (c, t) ∈ row)
  ↔ cell_text cells r c = Some t.
Proof.
  pose proof (lookup2_rows cells ∅ r c) as Hl.
  assert (lookup2 (foldl place ∅ cells) r c = cell_text cells r c) as Heq.
  { rewrite Hl. by destruct (cell_text cells r c). }
  rewrite <-Heq. unfold lookup2. split.
  - intros (row & (m & Hm & ->)%elem_of_grid & Hc%elem_of_grid_row).
    by rewrite Hm.
  - destruct (foldl place ∅ cells !! r) as [m|] eqn:Hm; [|done]. cbn.
    intros Hc. exists (grid_row m). split.
    + apply elem_of_grid. by exists m.
    + by apply elem_of_grid_row.
Qed.

Lemma add_cell_ok (bm : BlockMap) rows cid :
  cell_ok bm cid →
  add_cell bm rows cid = Ok (from_option (place rows) rows (observe bm cid)).
Proof.
  intros (cell & Hcell & [bt Hbt] & Hidx). unfold add_cell, observe.
  rewrite Hcell. cbn -[extract_text]. rewrite Hbt. cbn -[extract_text].
  destruct (decide (bt = "CELL")) as [->|Hne].
  - destruct (Hidx Hbt) as ([r Hr] & [c Hc] & [text Htext]).
    rewrite !bool_decide_eq_true_2 by done. rewrite Hr, Hc.
    cbn -[extract_text]. by rewrite Htext.
  - rewrite bool_decide_eq_false_2 by done.
    by rewrite bool_decide_eq_false_2 by congruence.
Qed.

Lemma add_cells (bm : BlockMap) rows ids :
  Forall (cell_ok bm) ids →
  foldM (add_cell bm) rows ids = Ok (foldl place rows (omap (observe bm) ids)).
Proof.
  intros H. revert rows. induction H as [|cid ids Hcid _ IH]; intros rows.
  { reflexivity. }
  rewrite foldM_cons, (add_cell_ok _ _ _ Hcid), bind_Ok, IH. cbn.
  by destruct (observe bm cid).
Qed.

Lemma add_rel_ok (bm : BlockMap) rows rel :
  is_Some (rel_Type rel) → Forall (cell_ok bm) (rel_targets rel) →
  add_rel bm rows rel
  = Ok (foldl place rows (omap (observe bm) (rel_targets rel))).
Proof.
  intros [ty Hty] Hok. unfold add_rel, rel_targets in *. rewrite Hty in *. cbn.
  destruct (decide (ty = "CHILD")) as [->|Hne].
  - rewrite bool_decide_eq_true_2 in Hok by done.
    rewrite !bool_decide_eq_true_2 by done. by apply add_cells.
  - rewrite bool_decide_eq_false_2 by done.
    by rewrite bool_decide_eq_false_2 by congruence.
Qed.

Lemma add_rels (bm : BlockMap) rows rels :
  Forall (λ rel, is_Some (rel_Type rel)) rels →
  Forall (cell_ok bm) (rels ≫= rel_targets) →
  foldM (add_rel bm) rows rels
  = Ok (foldl place rows (omap (observe bm) (rels ≫= rel_targets))).
Proof.
  intros Hty. revert rows.
  induction Hty as [|rel rels Hrel _ IH]; intros rows Hok; [reflexivity|].
  rewrite bind_cons in Hok. apply Forall_app in Hok as [Hok1 Hok2].
  rewrite foldM_cons, (add_rel_ok _ _ _ Hrel Hok1), bind_Ok, IH by done.
  by rewrite bind_cons, omap_app, foldl_app.
Qed.

Lemma table_rows_ok (bm : BlockMap) (tb : Block) :
  typed tb → Forall (cell_ok bm) (child_targets tb) →
  table_rows bm tb = Ok (rows_of bm tb).
Proof. intros. by apply add_rels. Qed.

Lemma well_formed_cell_ok (blocks : list Block) b :
  well_formed blocks = true → b ∈ blocks →
  Forall (cell_ok (block_index blocks)) (child_targets b).
Proof.
  intros Hwf Hb. apply Forall_forall. intros cid Hcid.
  pose proof (well_formed_closed _ _ Hwf Hb) as Hc.
  destruct (block_index_is_Some blocks (Some cid)) as [cell Hcell].
  { by eapply block_closed_targets. }
  exists cell. split; [done|].
  apply block_index_Some in Hcell as [Hin _].
  pose proof (well_formed_closed _ _ Hwf Hin) as Hcc.
  destruct (well_formed_text _ _ Hwf Hin) as (children & _ & Htext).
  unfold block_closed in Hcc. rewrite !andb_true_iff in Hcc.
  destruct Hcc as [[[_ Hbt] _] Hidx]. apply bool_decide_eq_true in Hbt.
  split; [done|]. intros Hty.
  rewrite bool_decide_eq_true_2 in Hidx by done.
  apply bool_decide_eq_true in Hidx as [??]. split_and!; [done..|by eexists].
Qed.

Lemma add_blocks_ok (blocks : list Block) (m : BlockMap) :
  Forall (λ b, is_Some (Id b)) blocks →
  foldM add_block m blocks = Ok (foldl (λ bm b, <[Id b := b]> bm) m blocks).
Proof.
  intros H. revert m. induction H as [|b blocks [i Hi] _ IH]; intros m.
  { reflexivity. }
  rewrite foldM_cons.
  assert (add_block m b = Ok (<[Id b := b]> m)) as ->.
  { unfold add_block. by rewrite Hi. }
  by rewrite bind_Ok, IH.
Qed.

Lemma visit_blocks (bm : BlockMap) tables (blocks : list Block) :
  Forall (λ b, is_Some (BlockType b)
               ∧ (is_table b = true → table_rows bm b = Ok (rows_of bm b)))
         blocks →
  foldM (visit_block bm) tables blocks
  = Ok (tables ++ ((λ tb, table_data (rows_of bm tb))
                   <$> filter (λ b, is_table b = true) blocks)).
Proof.
  intros H. revert tables.
  induction H as [|b blocks [[bt Hbt] Hrows] _ IH]; intros tables.
  { cbn. by rewrite app_nil_r. }
  rewrite foldM_cons, filter_cons.
  assert (visit_block bm tables b
          = Ok (if is_table b then tables ++ [table_data (rows_of bm b)]
                else tables)) as ->.
  { unfold visit_block, is_table in *. rewrite Hbt in *. cbn.
    destruct (decide (bt = "TABLE")) as [->|Hne].
    - rewrite !bool_decide_eq_true_2 by done.
      rewrite Hrows by (by rewrite bool_decide_eq_true_2). done.
    - rewrite bool_decide_eq_false_2 by done.
      by rewrite bool_decide_eq_false_2 by congruence. }
  rewrite bind_Ok, IH. destruct (is_table b).
  - rewrite decide_True by done. by rewrite fmap_cons, <-app_assoc.
  - by rewrite decide_False by done.
Qed.

(** The whole of [extract_tables] on a well-formed collection. *)
Lemma extract_tables_grids (blocks : list Block) :
  well_formed blocks = true →
  extract_tables blocks
  = Ok ((λ tb, drop_indices (grid (rows_of (block_index blocks) tb)))
        <$> filter (λ b, is_table b = true) blocks).
Proof.
  intros Hwf. unfold extract_tables.
  rewrite add_blocks_ok, bind_Ok.
  2:{ apply Forall_forall. intros b Hb.
      pose proof (well_formed_closed _ _ Hwf Hb) as Hc.
      unfold block_closed in Hc. rewrite !andb_true_iff in Hc.
      destruct Hc as [[[Hid _] _] _]. by apply bool_decide_eq_true in Hid. }
  fold (block_index blocks). rewrite visit_blocks.
  - cbn [app]. f_equal. apply list_fmap_ext. intros _ tb _.
    apply table_data_grid.
  - apply Forall_forall. intros b Hb. split.
    + pose proof (well_formed_BlockType _ Hwf) as Hty.
      rewrite Forall_forall in Hty. by apply Hty.
    + intros _. apply table_rows_ok.
      * eapply block_closed_typed. by apply well_formed_closed.
      * by apply well_formed_cell_ok.
Qed.

End tables.

(** C2. On a collection that follows the schema, [extract_tables] returns
    one table per TABLE block, in the order of the collection. Each table
    is a grid without its indices: the rows of the grid are in strictly
    ascending row index, the entries of a row in strictly ascending column
    index, no row is empty, and the grid has an entry at a position exactly
    when a cell was observed there, with the text of that cell; a column
    that was not observed in a row has no entry in it. The table with cells
    (1,1) = "A", (1,2) = "B", (2,1) = "C" reconstructs to
    [[["A","B"],["C"]]]. *)
Theorem extract_tables_sorted (blocks : list Block) :
  well_formed blocks = true →
  (∃ grids : list (list (Z * list (Z * string))),
     PdfToSheet.extract_tables blocks = Ok (drop_indices <$> grids)
     ∧ Forall2 (λ tb g,
          StronglySorted Z.lt g.*1
          ∧ Forall (λ r, StronglySorted Z.lt r.2.*1 ∧ r.2 ≠ []) g
          ∧ ∀ r c t,
              (∃ row, (r, row) ∈ g ∧ (c, t) ∈ row)
              ↔ cell_text (observed_cells (block_index blocks) tb) r c = Some t)
        (filter (λ b, is_table b = true) blocks) grids)
  ∧ PdfToSheet.extract_tables sample_table = Ok [[["A"; "B"]; ["C"]]].
Proof.
  intros Hwf. split; [|by vm_compute].
  exists ((λ tb, grid (rows_of (block_index blocks) tb))
          <$> filter (λ b, is_table b = true) blocks).
  split.
  { rewrite (extract_tables_grids _ Hwf). by rewrite <-list_fmap_compose. }
  apply Forall2_fmap_r, Forall_Forall2_diag, Forall_forall.
  intros tb _. split_and!.
  - apply grid_rows_ascending.
  - apply Forall_forall. intros [r row] (m & Hm & ->)%elem_of_grid. cbn. split.
    + apply grid_row_ascending.
    + apply grid_row_nonempty.
      by apply (rows_nonempty (observed_cells (block_index blocks) tb) ∅
                  (map_Forall_empty _) r m).
  - intros r c t. apply grid_observed.
Qed.

Lemma extract_tables_sorted_witness :
  PdfToSheet.extract_tables sample_table = Ok [[["A"; "B"]; ["C"]]].
Proof. exact (proj2 (extract_tables_sorted sample_table eq_refl)). Defined.

(** ** Sparse tables *)

Section sparse.
Import PdfToSheet.

Lemma cell_text_is_Some cells r c :
  is_Some (cell_text cells r c) ↔ c ∈ observed_columns cells r.
Proof.
  unfold cell_text, observed_columns. rewrite fmap_is_Some. split.
  - intros [x Hx]. apply last_Some_elem_of, list_elem_of_filter in Hx as [Hx Hin].
    destruct x as [[r' c'] t]. cbn in Hx. injection Hx as -> ->.
    apply list_elem_of_fmap. exists (r, c). split; [done|].
    apply list_elem_of_fmap. exists (r, c, t). split; [done|].
    by apply list_elem_of_filter.
  - intros (rc & -> & (x & -> & [Hr Hin]%list_elem_of_filter)%list_elem_of_fmap)%list_elem_of_fmap.
    destruct x as [[r' c'] t]. cbn in Hr. subst r'. cbn.
    destruct (last (filter (λ x, x.1 = (r, c')) cells)) as [x|] eqn:Hlast;
      [by eexists|].
    apply last_None in Hlast.
    assert ((r, c', t) ∈ filter (λ x, x.1 = (r, c')) cells) as Hx
      by by apply list_elem_of_filter.
    rewrite Hlast in Hx. by apply elem_of_nil in Hx.
Qed.

Lemma lookup_rows_is_Some cells (m : gmap Z (gmap Z string)) r :
  is_Some (foldl place m cells !! r)
  ↔ is_Some (m !! r) ∨ r ∈ observed_rows cells.
Proof.
  unfold observed_rows. revert m.
  induction cells as [|[[r' c'] t] cells IH]; intros m.
  { cbn. rewrite elem_of_nil. tauto. }
  cbn [foldl]. rewrite IH, !fmap_cons, elem_of_cons. cbn.
  unfold place, set_cell. cbn. rewrite lookup_insert.
  destruct (decide (r' = r)) as [->|Hne].
  - split; [tauto|]. intros _. left. by eexists.
  - split; [tauto|]. intros [?|[?|?]]; [tauto|congruence|tauto].
Qed.

Lemma sorted_keys_NoDup {V} (d : gmap Z V) : NoDup (sorted_keys d).
Proof.
  unfold sorted_keys. rewrite merge_sort_Permutation.
  apply NoDup_fst_map_to_list.
Qed.

(** A row of the grid has one entry per distinct observed column. *)
Lemma grid_row_length cells r row :
  (r, row) ∈ grid (foldl place ∅ cells) →
  length row = length (remove_dups (observed_columns cells r)).
Proof.
  intros (m & Hm & ->)%elem_of_grid.
  unfold grid_row. rewrite length_fmap.
  apply Permutation_length, NoDup_Permutation;
    [apply sorted_keys_NoDup|apply NoDup_remove_dups|].
  intros c. rewrite elem_of_sorted_keys, elem_of_remove_dups.
  rewrite <-cell_text_is_Some.
  pose proof (lookup2_rows cells ∅ r c) as Hl.
  unfold lookup2 in Hl. rewrite Hm in Hl. cbn in Hl. rewrite Hl.
  destruct (cell_text cells r c); [done|].
  rewrite lookup_empty. cbn. by split; intros [??].
Qed.

(** The grid has one row per distinct observed row index. *)
Lemma grid_length cells :
  length (grid (foldl place ∅ cells))
  = length (remove_dups (observed_rows cells)).
Proof.
  unfold grid. rewrite length_fmap.
  apply Permutation_length, NoDup_Permutation;
    [apply sorted_keys_NoDup|apply NoDup_remove_dups|].
  intros r. rewrite elem_of_sorted_keys, elem_of_remove_dups.
  rewrite lookup_rows_is_Some, lookup_empty.
  split; [intros [[??]|?]; done|by right].
Qed.

(** A position without observed cell has no entry in the grid. *)
Lemma grid_absent cells r c row t :
  cell_text cells r c = None →
  (r, row) ∈ grid (foldl place ∅ cells) → (c, t) ∉ row.
Proof.
  intros Hnone Hrow Hc.
  assert (cell_text cells r c = Some t) as Hsome.
  { apply grid_observed. by exists row. }
  congruence.
Qed.

End sparse.

(** C9 does not hold: in the table with cells (1,1) = "A", (1,3) = "C" and
    (3,2) = "B", no cell is observed at (1,2) or in row 2, and the
    reconstructed table has no empty text for them. *)
Lemma sparse_table_not_padded :
  cell_text (observed_cells (block_index sparse_table)
               (table_block "t1" ["c11"; "c13"; "c32"])) 1 2 = None
  ∧ PdfToSheet.extract_tables sparse_table = Ok [[["A"; "C"]; ["B"]]]
  ∧ PdfToSheet.extract_tables sparse_table
    ≠ Ok [[["A"; ""; "C"]; [""; ""; ""]; [""; "B"; ""]]].
Proof. split_and!; [by vm_compute..|]. vm_compute. discriminate. Qed.

(** C9, amended. On a collection that follows the schema, the cells that
    are absent from a table are skipped: each reconstructed table is a grid
    without its indices, in which a position where no cell was observed has
    no entry, a row has as many entries as distinct column indices were
    observed in it, and there are as many rows as distinct row indices
    were observed. *)
Theorem sparse_cells_skipped (blocks : list Block) :
  well_formed blocks = true →
  ∃ grids : list (list (Z * list (Z * string))),
    PdfToSheet.extract_tables blocks = Ok (drop_indices <$> grids)
    ∧ Forall2 (λ tb g,
         let cells := observed_cells (block_index blocks) tb in
         (∀ r c row t, cell_text cells r c = None → (r, row) ∈ g → (c, t) ∉ row)
         ∧ (∀ r row, (r, row) ∈ g →
              length row = length (remove_dups (observed_columns cells r)))
         ∧ length g = length (remove_dups (observed_rows cells)))
       (filter (λ b, is_table b = true) blocks) grids.
Proof.
  intros Hwf.
  exists ((λ tb, grid (rows_of (block_index blocks) tb))
          <$> filter (λ b, is_table b = true) blocks).
  split.
  { rewrite (extract_tables_grids _ Hwf). by rewrite <-list_fmap_compose. }
  apply Forall2_fmap_r, Forall_Forall2_diag, Forall_forall.
  intros tb _. cbn. split_and!.
  - intros r c row t. apply grid_absent.
  - intros r row. apply grid_row_length.
  - apply grid_length.
Qed.

Lemma sparse_cells_skipped_witness :
  ∃ grids : list (list (Z * list (Z * string))),
    PdfToSheet.extract_tables sparse_table = Ok (drop_indices <$> grids)
    ∧ Forall2 (λ tb g,
         let cells := observed_cells (block_index sparse_table) tb in
         (∀ r c row t, cell_text cells r c = None → (r, row) ∈ g → (c, t) ∉ row)
         ∧ (∀ r row, (r, row) ∈ g →
              length row = length (remove_dups (observed_columns cells r)))
         ∧ length g = length (remove_dups (observed_rows cells)))
       (filter (λ b, is_table b = true) sparse_table) grids.
Proof. apply (sparse_cells_skipped sparse_table). reflexivity. Defined.

(** ** Query results and full text *)

Section queries.
Import ProcessInvoice.

Lemma scan_block_cases (st : gmap string string * list string) (b : Block) :
  scan_block st b
  = if bool_decide (BlockType b = Some "QUERY_RESULT") then
      match alias_of b with
      | Some (String c a) => (<[String c a := default "" (Text b)]> st.1, st.2)
      | _ => st
      end
    else if is_line b then (st.1, st.2 ++ [default "" (Text b)])
    else st.
Proof.
  unfold scan_block, is_line. case_bool_decide; [|done].
  by destruct (alias_of b) as [[|??]|].
Qed.

Lemma scan_lines (blocks : list Block) st :
  (foldl scan_block st blocks).2 = st.2 ++ line_texts blocks.
Proof.
  unfold line_texts. revert st.
  induction blocks as [|b blocks IH]; intros st.
  { cbn. by rewrite app_nil_r. }
  cbn [foldl]. rewrite IH, scan_block_cases, filter_cons.
  destruct (bool_decide (BlockType b = Some "QUERY_RESULT")) eqn:Hq.
  - apply bool_decide_eq_true in Hq.
    assert (is_line b = false) as Hl.
    { unfold is_line. apply bool_decide_eq_false. congruence. }
    rewrite Hl, decide_False by done.
    by destruct (alias_of b) as [[|??]|].
  - destruct (is_line b).
    + rewrite decide_True by done. cbn. by rewrite <-app_assoc.
    + by rewrite decide_False by done.
Qed.

Lemma scan_block_answer (st : gmap string string * list string) b a :
  a ≠ "" → answers a b →
  (scan_block st b).1 !! a = Some (default "" (Text b)).
Proof.
  intros Ha [Hq Hal]. rewrite scan_block_cases, Hal.
  rewrite (bool_decide_eq_true_2 _ Hq).
  destruct a as [|c a]; [done|]. cbn. apply lookup_insert_eq.
Qed.

Lemma scan_block_other (st : gmap string string * list string) b a :
  ¬ answers a b → (scan_block st b).1 !! a = st.1 !! a.
Proof.
  intros Hn. rewrite scan_block_cases.
  destruct (decide (BlockType b = Some "QUERY_RESULT")) as [Hq|Hq].
  - rewrite (bool_decide_eq_true_2 _ Hq).
    destruct (alias_of b) as [[|c a']|] eqn:Hal; [done| |done]. cbn.
    apply lookup_insert_ne. intros Heq. apply Hn. by rewrite <-Heq.
  - rewrite (bool_decide_eq_false_2 _ Hq). by destruct (is_line b).
Qed.

(** After the loop, an alias maps to the inline text of the last block
    that answers it. *)
Lemma scan_results (blocks : list Block) st (a : string) :
  a ≠ "" →
  (foldl scan_block st blocks).1 !! a
  = match last (filter (answers a) blocks) with
    | Some b => Some (default "" (Text b))
    | None => st.1 !! a
    end.
Proof.
  intros Ha. induction blocks as [|b blocks IH] using rev_ind; [done|].
  rewrite foldl_app, filter_app. cbn [foldl].
  rewrite filter_cons, filter_nil.
  destruct (decide (answers a b)) as [Hb|Hb].
  - by rewrite last_snoc, scan_block_answer.
  - by rewrite app_nil_r, scan_block_other.
Qed.

Lemma last_filter_here {A} (P : A → Prop) `{∀ x, Decision (P x)} pre x post :
  P x → (∀ y, y ∈ post → ¬ P y) → last (filter P (pre ++ x :: post)) = Some x.
Proof.
  intros Hx Hpost. rewrite filter_app, filter_cons_True by done.
  assert (filter P post = []) as ->; [|apply last_snoc].
  apply elem_of_nil_inv. intros y [Hy Hin]%list_elem_of_filter.
  by apply (Hpost y).
Qed.

Lemma last_filter_none {A} (P : A → Prop) `{∀ x, Decision (P x)} l :
  (∀ y, y ∈ l → ¬ P y) → last (filter P l) = None.
Proof.
  intros Hl. assert (filter P l = []) as ->; [|done].
  apply elem_of_nil_inv. intros y [Hy Hin]%list_elem_of_filter.
  by apply (Hl y).
Qed.

Section parsed.
Variable date_parser_parse : string → bool → result datetime.

Lemma normalize_date_other (results : gmap string string) a :
  a ≠ "Date" → (normalize_date date_parser_parse results).1 !! a = results !! a.
Proof.
  intros Ha. unfold normalize_date.
  destruct (results !! "Date"); [|done].
  destruct (date_parser_parse _); [|done]. cbn.
  by rewrite lookup_insert_ne.
Qed.

Lemma parse_response_other (response : Response) a :
  a ≠ "Date" → a ≠ "full_text" →
  (parse_response date_parser_parse response).1 !! a
  = (foldl scan_block (∅, []) (default [] (Blocks response))).1 !! a.
Proof.
  intros Hd Hf. unfold parse_response. cbn.
  by rewrite lookup_insert_ne, normalize_date_other.
Qed.

Lemma parse_response_full (response : Response) :
  (parse_response date_parser_parse response).1 !! "full_text"
  = Some (PyStr.join newline (line_texts (default [] (Blocks response)))).
Proof.
  unfold parse_response. cbn. rewrite lookup_insert_eq.
  by rewrite scan_lines.
Qed.

End parsed.










End queries.

(** C5. Whatever the date parser does, [parse_response] maps an alias —
    other than the two keys the function rewrites afterwards, "Date" (see
    C6) and "full_text" — to the text carried by the last QUERY_RESULT block
    of that alias, read from the block itself; an alias that no
    QUERY_RESULT block carries is missing from the mapping; and "full_text"
    is the texts of the LINE blocks, in the order of the collection, joined
    with newlines. *)
Theorem parse_response_extracts
    (date_parser_parse : string → bool → result ProcessInvoice.datetime)
    (response : Response) (a : string) :
  a ≠ "" → a ≠ "Date" → a ≠ "full_text" →
  let blocks := default [] (Blocks response) in
  let results := (ProcessInvoice.parse_response date_parser_parse response).1 in
  (∀ pre b post,
     blocks = pre ++ b :: post → answers a b →
     (∀ b', b' ∈ post → ¬ answers a b') →
     results !! a = Some (default "" (Text b)))
  ∧ ((∀ b, b ∈ blocks → ¬ answers a b) → results !! a = None)
  ∧ results !! "full_text"
    = Some (PyStr.join ProcessInvoice.newline (line_texts blocks)).
Proof.
  intros Ha Hd Hf blocks results. subst results. split_and!.
  - intros pre b post Hblocks Hb Hpost.
    rewrite parse_response_other, scan_results by done.
    fold blocks. rewrite Hblocks. by rewrite last_filter_here.
  - intros Hnone. rewrite parse_response_other, scan_results by done.
    fold blocks. by rewrite last_filter_none.
  - apply parse_response_full.
Qed.

Lemma parse_response_extracts_witness :
  let blocks := default [] (Blocks {| Blocks := Some sample_answers |}) in
  let results :=
    (ProcessInvoice.parse_response iso_date_parser
       {| Blocks := Some sample_answers |}).1 in
  (∀ pre b post,
     blocks = pre ++ b :: post → answers "Title" b →
     (∀ b', b' ∈ post → ¬ answers "Title" b') →
     results !! "Title" = Some (default "" (Text b)))
  ∧ ((∀ b, b ∈ blocks → ¬ answers "Title" b) → results !! "Title" = None)
  ∧ results !! "full_text"
    = Some (PyStr.join ProcessInvoice.newline (line_texts blocks)).
Proof.
  apply (parse_response_extracts iso_date_parser
           {| Blocks := Some sample_answers |} "Title"); discriminate.
Defined.




(** C10. The mapping [parse_response] returns always has the key
    "full_text"; its value is the empty string when the collection has no
    LINE block; and a QUERY_RESULT block without alias, or with the empty
    alias, changes nothing in what is returned. *)
Theorem parse_response_full_text
    (date_parser_parse : string → bool → result ProcessInvoice.datetime)
    (pre post : list Block) (b : Block) :
  BlockType b = Some "QUERY_RESULT" →
  ProcessInvoice.alias_of b = None ∨ ProcessInvoice.alias_of b = Some "" →
  (∀ response,
     is_Some ((ProcessInvoice.parse_response date_parser_parse response).1
              !! "full_text"))
  ∧ (∀ response,
       Forall (λ b, BlockType b ≠ Some "LINE") (default [] (Blocks response)) →
       (ProcessInvoice.parse_response date_parser_parse response).1
       !! "full_text" = Some "")
  ∧ ProcessInvoice.parse_response date_parser_parse
      {| Blocks := Some (pre ++ b :: post) |}
    = ProcessInvoice.parse_response date_parser_parse
        {| Blocks := Some (pre ++ post) |}.
Proof.
  intros Hq Hal. split_and!.
  - intros response. rewrite parse_response_full. by eexists.
  - intros response Hno. rewrite parse_response_full.
    assert (line_texts (default [] (Blocks response)) = []) as ->; [|done].
    unfold line_texts.
    assert (filter (λ b, is_line b = true) (default [] (Blocks response)) = [])
      as ->; [|done].
    apply elem_of_nil_inv. intros x [Hx Hin]%list_elem_of_filter.
    rewrite Forall_forall in Hno. apply (Hno x Hin).
    by apply bool_decide_eq_true in Hx.
  - unfold ProcessInvoice.parse_response. cbn [Blocks from_option id].
    rewrite !foldl_app. cbn [foldl].
    assert (∀ st, ProcessInvoice.scan_block st b = st) as ->; [|done].
    intros st. rewrite scan_block_cases, (bool_decide_eq_true_2 _ Hq).
    by destruct Hal as [-> | ->].
Qed.

Lemma parse_response_full_text_witness :
  ProcessInvoice.parse_response iso_date_parser
    {| Blocks := Some sample_answers |}
  = ProcessInvoice.parse_response iso_date_parser
      {| Blocks := Some
           [ line_block "l1" "The Gazette";
             query_result_block "q1" "Title" "The Gazete";
             query_result_block "q2" "Date" "2023-03-03";
             line_block "l2" "Vol. 4 No. 2";
             query_result_block "q4" "Title" "The Gazette" ] |}.
Proof.
  refine (proj2 (proj2 (parse_response_full_text iso_date_parser
    [line_block "l1" "The Gazette"; query_result_block "q1" "Title" "The Gazete";
     query_result_block "q2" "Date" "2023-03-03"; line_block "l2" "Vol. 4 No. 2"]
    [query_result_block "q4" "Title" "The Gazette"]
    (query_result_block "q3" "" "stray") eq_refl _))).
  right. reflexivity.
Defined.

(** ** Configuration *)

Section configuration.
Import ProcessInvoice.

Lemma load_vars_missing (env : gmap string string) st vars :
  (foldl (load_var env) st vars).2
  = st.2 ++ filter (λ var, nonempty (env !! var) = false) vars.
Proof.
  revert st. induction vars as [|var vars IH]; intros st.
  { cbn. by rewrite app_nil_r. }
  cbn [foldl]. rewrite IH, filter_cons. unfold load_var.
  destruct (nonempty (env !! var)); cbn.
  - by rewrite decide_False by done.
  - rewrite decide_True by done. by rewrite <-app_assoc.
Qed.

Lemma load_vars_config (env : gmap string string) st vars var :
  var ∈ vars → nonempty (env !! var) = true →
  (foldl (load_var env) st vars).1 !! var = env !! var.
Proof.
  intros Hin Hval. revert st.
  induction vars as [|x vars IH] using rev_ind; intros st.
  { by apply elem_of_nil in Hin. }
  rewrite foldl_app. cbn [foldl]. unfold load_var at 1.
  destruct (decide (x = var)) as [->|Hne].
  - rewrite Hval. cbn. rewrite lookup_insert_eq.
    by destruct (env !! var).
  - apply elem_of_app in Hin as [Hin|Hin].
    2:{ by apply list_elem_of_singleton in Hin. }
    destruct (nonempty (env !! x)); cbn; [|by apply IH].
    rewrite lookup_insert_ne by done. by apply IH.
Qed.

Lemma load_config_missing (env : gmap string string) :
  missing_vars env ≠ [] →
  load_config env
  = Raise (EnvironmentError
      ("Missing environment variables: "
       +:+ PyStr.join ", " (missing_vars env))).
Proof.
  intros Hm. unfold load_config. rewrite load_vars_missing. cbn [snd app].
  fold (missing_vars env). by destruct (missing_vars env).
Qed.

Lemma load_config_Ok (env config : gmap string string) var :
  load_config env = Ok config → var ∈ env_vars →
  nonempty (env !! var) = true ∧ config !! var = env !! var.
Proof.
  unfold load_config. rewrite load_vars_missing. cbn [snd app].
  destruct (filter _ env_vars) as [|m ms] eqn:Hm; [|done].
  intros [= <-] Hin.
  assert (nonempty (env !! var) = true) as Hval.
  { destruct (nonempty (env !! var)) eqn:Hv; [done|].
    assert (var ∈ filter (λ var, nonempty (env !! var) = false) env_vars)
      as Hvar by by apply list_elem_of_filter.
    rewrite Hm in Hvar. by apply elem_of_nil in Hvar. }
  split; [done|].
  exact (load_vars_config env (∅, []) env_vars var Hin Hval).
Qed.

Lemma filter_all {A} (P : A → Prop) `{∀ x, Decision (P x)} (l : list A) :
  (∀ x, x ∈ l → P x) → filter P l = l.
Proof.
  induction l as [|x l IH]; [done|]. intros Hall.
  rewrite filter_cons_True by (apply Hall; by left).
  f_equal. apply IH. intros y Hy. apply Hall. by right.
Qed.

Lemma unset_missing (env : gmap string string) var :
  var ∈ env_vars → env !! var = None → var ∈ missing_vars env.
Proof.
  intros Hin Hnone. apply list_elem_of_filter. by rewrite Hnone.
Qed.

End configuration.

(** C7. Let the command line be well-formed. If a variable that
    [process_invoice.py] requires is unset, [load_config] raises one
    [EnvironmentError] whose message lists the missing variables, each unset
    variable among them; [main] raises it before any call is made, and the
    script logs that one message and exits with status 1. When
    [load_config] returns, every required variable has the non-empty value
    of the environment: none is defaulted. If [S3_BUCKET] or
    [SPREADSHEET_ID] is unset, [main] of [pdf_to_sheet.py] raises one
    [ValueError] before any call is made, with a message that names each
    unset one; both are read without default. With no required variable
    set, the message of [load_config] lists all seven. *)
Theorem missing_configuration
    (env : gmap string string)
    (date_parser_parse : string → bool → result ProcessInvoice.datetime)
    (textract : string → string → result Response)
    (openai_chat : string → result string)
    (s3_pages : option string → string → result (list (option (list string))))
    (textract_batch : option string → string → result Response)
    (argv : list string) (w : world) :
  length argv = 2%nat →
  ((∃ var, var ∈ ProcessInvoice.env_vars ∧ env !! var = None) →
     ∃ msg,
       ProcessInvoice.load_config env = Raise (EnvironmentError msg)
       ∧ msg = "Missing environment variables: "
               +:+ PyStr.join ", " (missing_vars env)
       ∧ (∀ var, var ∈ ProcessInvoice.env_vars → env !! var = None →
            PyStr.infix var msg)
       ∧ ProcessInvoice.main env date_parser_parse textract openai_chat argv w
         = (Raise (EnvironmentError msg), w)
       ∧ ProcessInvoice.script env date_parser_parse textract openai_chat argv w
         = (Raise (SystemExit 1),
            {| sheets := sheets w;
               trace := trace w ++ [Log ERROR ("Processing failed: " +:+ msg)] |}))
  ∧ (∀ config var,
       ProcessInvoice.load_config env = Ok config →
       var ∈ ProcessInvoice.env_vars →
       nonempty (env !! var) = true ∧ config !! var = env !! var)
  ∧ ((env !! "S3_BUCKET" = None ∨ env !! "SPREADSHEET_ID" = None) →
     ∃ msg,
       PdfToSheet.main env s3_pages textract_batch w = (Raise (ValueError msg), w)
       ∧ (∀ var, var ∈ ["S3_BUCKET"; "SPREADSHEET_ID"] → env !! var = None →
            PyStr.infix var msg))
  ∧ PdfToSheet.S3_BUCKET env = env !! "S3_BUCKET"
  ∧ PdfToSheet.SPREADSHEET_ID env = env !! "SPREADSHEET_ID"
  ∧ ((∀ var, var ∈ ProcessInvoice.env_vars → env !! var = None) →
     ProcessInvoice.load_config env
     = Raise (EnvironmentError
         "Missing environment variables: AWS_ACCESS_KEY_ID, AWS_SECRET_ACCESS_KEY, AWS_REGION, S3_BUCKET_NAME, OPENAI_API_KEY, GOOGLE_SHEET_ID, GOOGLE_CREDENTIALS_FILE")).
Proof.
  intros Hargv. split_and!; [| |..|done|done|].
  - intros (var & Hin & Hnone).
    assert (missing_vars env ≠ []) as Hm.
    { intros Hnil. pose proof (unset_missing _ _ Hin Hnone) as Hvar.
      rewrite Hnil in Hvar. by apply elem_of_nil in Hvar. }
    pose proof (load_config_missing _ Hm) as Hload.
    eexists. split_and!; [exact Hload|done|..].
    + intros v Hv Hvn. apply infix_app_r, infix_join. by apply unset_missing.
    + unfold ProcessInvoice.main.
      rewrite bool_decide_eq_false_2 by (by rewrite Hargv; intros []).
      unfold mbind, io_bind, lift. by rewrite Hload.
    + unfold ProcessInvoice.script, ProcessInvoice.main.
      rewrite bool_decide_eq_false_2 by (by rewrite Hargv; intros []).
      unfold mbind, io_bind, lift. by rewrite Hload.
  - intros config var. apply load_config_Ok.
  - intros Hunset. eexists. split.
    + unfold PdfToSheet.main, PdfToSheet.S3_BUCKET, PdfToSheet.SPREADSHEET_ID.
      assert (nonempty (env !! "S3_BUCKET") && nonempty (env !! "SPREADSHEET_ID")
              = false) as ->; [|reflexivity].
      destruct Hunset as [-> | ->]; [done|]. apply andb_false_r.
    + intros var Hvar _. apply list_elem_of_In in Hvar.
      destruct Hvar as [<-|[<-|[]]].
      * by exists "", " and SPREADSHEET_ID environment variables must be set".
      * by exists "S3_BUCKET and ", " environment variables must be set".
  - intros Hall.
    assert (missing_vars env = ProcessInvoice.env_vars) as Hm.
    { apply filter_all. intros var Hvar. by rewrite Hall. }
    rewrite load_config_missing by (by rewrite Hm). by rewrite Hm.
Qed.

Lemma missing_configuration_witness :
  ProcessInvoice.load_config ∅
  = Raise (EnvironmentError
      "Missing environment variables: AWS_ACCESS_KEY_ID, AWS_SECRET_ACCESS_KEY, AWS_REGION, S3_BUCKET_NAME, OPENAI_API_KEY, GOOGLE_SHEET_ID, GOOGLE_CREDENTIALS_FILE").
Proof.
  refine (proj2 (proj2 (proj2 (proj2 (proj2
    (missing_configuration ∅ iso_date_parser
       (λ _ _, Raise (ServiceError "unreachable"))
       (λ _, Raise (ServiceError "unreachable"))
       (λ _ _, Raise (ServiceError "unreachable"))
       (λ _ _, Raise (ServiceError "unreachable"))
       ["process_invoice.py"; "scan.pdf"] sample_world eq_refl))))) _).
  intros var _. apply lookup_empty.
Defined.

(** ** Row shaping *)

Section rows.
Import PdfToSheet.

Lemma for_each_append_row {B} (title : string) (f : B → list string)
    (l : list B) (w : world) :
  for_each (λ x, append_row title (f x)) l w
  = (Ok (), after_rows title (f <$> l) w).
Proof.
  revert w. induction l as [|x l IH]; intros w; [done|].
  cbn [for_each]. unfold mbind, io_bind. cbn [append_row].
  rewrite IH. reflexivity.
Qed.

Lemma after_rows_cons title row rows w :
  after_rows title (row :: rows) w
  = after_rows title rows (append_row title row w).2.
Proof. reflexivity. Qed.

Lemma after_rows_app title rows1 rows2 w :
  after_rows title (rows1 ++ rows2) w
  = after_rows title rows2 (after_rows title rows1 w).
Proof. unfold after_rows. by rewrite foldl_app. Qed.

Lemma after_rows_sheet title rows w old :
  sheets w !! title = Some old →
  sheets (after_rows title rows w) !! title = Some (old ++ rows).
Proof.
  revert w old. induction rows as [|row rows IH]; intros w old Hold.
  { cbn. by rewrite app_nil_r. }
  rewrite after_rows_cons, (IH _ (old ++ [row])).
  - by rewrite <-app_assoc.
  - cbn. rewrite lookup_insert_eq, Hold. done.
Qed.

Lemma after_rows_other title rows w t :
  t ≠ title → sheets (after_rows title rows w) !! t = sheets w !! t.
Proof.
  intros Hne. revert w. induction rows as [|row rows IH]; intros w; [done|].
  rewrite after_rows_cons, IH. cbn. by rewrite lookup_insert_ne.
Qed.

Lemma after_rows_trace title rows w :
  trace (after_rows title rows w)
  = trace w ++ (SheetsAppendRow title <$> rows).
Proof.
  revert w. induction rows as [|row rows IH]; intros w.
  { cbn. by rewrite app_nil_r. }
  rewrite after_rows_cons, IH. cbn. by rewrite <-app_assoc.
Qed.

Section batch.
Variable env : gmap string string.
Variable textract : option string → string → result Response.

Lemma append_form_data_row (data : gmap string string) w form_rows :
  sheets w !! FORM_TAB env = Some form_rows →
  append_form_data env data w
  = (Ok (),
     after_rows (FORM_TAB env)
       [(λ h, default "" (data !! h)) <$> first_row_values form_rows] w).
Proof.
  intros Hform. unfold append_form_data, mbind, io_bind, worksheet.
  by rewrite Hform.
Qed.

Lemma append_table_data_rows table key w :
  is_Some (sheets w !! TABLE_TAB env) →
  append_table_data env table key w
  = (Ok (), after_rows (TABLE_TAB env) ((λ row, key :: row) <$> table) w).
Proof.
  intros [old Hold]. unfold append_table_data, mbind, io_bind, worksheet.
  rewrite Hold. apply for_each_append_row.
Qed.

Lemma append_tables tables key w :
  is_Some (sheets w !! TABLE_TAB env) →
  for_each (λ table, append_table_data env table key) tables w
  = (Ok (),
     after_rows (TABLE_TAB env) ((λ row, key :: row) <$> concat tables) w).
Proof.
  revert w. induction tables as [|table tables IH]; intros w Hw; [done|].
  cbn [for_each concat]. unfold mbind, io_bind.
  rewrite append_table_data_rows by done.
  rewrite IH, fmap_app, after_rows_app; [done|].
  destruct Hw as [old Hold]. erewrite after_rows_sheet by done. by eexists.
Qed.
End batch.

End rows.

Lemma io_bind_Ok {A B} (m : io A) (f : A → io B) (w w' : world) (a : A) :
  m w = (Ok a, w') → (m ≫= f) w = f a w'.
Proof. intros H. unfold mbind, io_bind. by rewrite H. Qed.

(** C8. Let a document be processed without failure: Textract answers, both
    reconstructions return, and the form and table worksheets exist and are
    distinct. Then [process_pdf] appends exactly one row to the form
    worksheet: for each name of its header row, in order, the value the
    key-value mapping has under exactly that name, or the empty string when
    it has none. It appends to the table worksheet one row per row of the
    reconstructed tables, in order, each prefixed with the document key; for
    one 2x2 table these are exactly two rows. *)
Theorem process_pdf_rows
    (env : gmap string string)
    (textract : option string → string → result Response)
    (key : string) (w : world) (response : Response)
    (kv_pairs : gmap string string) (tables : list (list (list string)))
    (form_rows table_rows : list (list string)) :
  textract (PdfToSheet.S3_BUCKET env) key = Ok response →
  PdfToSheet.build_kv_map (default [] (Blocks response)) = Ok kv_pairs →
  PdfToSheet.extract_tables (default [] (Blocks response)) = Ok tables →
  PdfToSheet.FORM_TAB env ≠ PdfToSheet.TABLE_TAB env →
  sheets w !! PdfToSheet.FORM_TAB env = Some form_rows →
  sheets w !! PdfToSheet.TABLE_TAB env = Some table_rows →
  let form_row :=
    (λ h, default "" (kv_pairs !! h)) <$> first_row_values form_rows in
  let new_rows := (λ row, key :: row) <$> concat tables in
  ∃ w',
    PdfToSheet.process_pdf env textract key w = (Ok (), w')
    ∧ sheets w' !! PdfToSheet.FORM_TAB env = Some (form_rows ++ [form_row])
    ∧ sheets w' !! PdfToSheet.TABLE_TAB env = Some (table_rows ++ new_rows)
    ∧ (∀ title, title ≠ PdfToSheet.FORM_TAB env →
         title ≠ PdfToSheet.TABLE_TAB env →
         sheets w' !! title = sheets w !! title)
    ∧ trace w'
      = trace w
        ++ [TextractAnalyze (PdfToSheet.S3_BUCKET env) key;
            SheetsAppendRow (PdfToSheet.FORM_TAB env) form_row]
        ++ (SheetsAppendRow (PdfToSheet.TABLE_TAB env) <$> new_rows)
    ∧ (∀ a b c d, tables = [[[a; b]; [c; d]]] →
         new_rows = [[key; a; b]; [key; c; d]]).
Proof.
  intros Htextract Hkv Htables Htabs Hform Htable form_row new_rows.
  set (w1 := {| sheets := sheets w;
                trace := trace w
                  ++ [TextractAnalyze (PdfToSheet.S3_BUCKET env) key] |}).
  set (w2 := after_rows (PdfToSheet.FORM_TAB env) [form_row] w1).
  exists (after_rows (PdfToSheet.TABLE_TAB env) new_rows w2).
  assert (sheets w2 !! PdfToSheet.TABLE_TAB env = Some table_rows) as Htable2.
  { unfold w2. by rewrite after_rows_other. }
  split_and!.
  - unfold PdfToSheet.process_pdf.
    rewrite (io_bind_Ok _ _ w w1 response).
    2:{ unfold PdfToSheet.analyze_document, mbind, io_bind, emit, lift.
        by rewrite Htextract. }
    rewrite (io_bind_Ok _ _ w1 w1 kv_pairs) by (unfold lift; by rewrite Hkv).
    rewrite (io_bind_Ok _ _ w1 w2 ()).
    2:{ by apply append_form_data_row. }
    rewrite (io_bind_Ok _ _ w2 w2 tables) by (unfold lift; by rewrite Htables).
    apply append_tables. by eexists.
  - rewrite after_rows_other by done. unfold w2.
    by rewrite (after_rows_sheet _ _ _ form_rows).
  - by apply after_rows_sheet.
  - intros title Hf Ht. unfold w2. by rewrite !after_rows_other.
  - unfold w2. rewrite !after_rows_trace. cbn. by rewrite <-!app_assoc.
  - by intros a b c d ->.
Qed.

Lemma process_pdf_rows_witness :
  ∃ w',
    PdfToSheet.process_pdf ∅ (λ _ _, Ok {| Blocks := Some sample_document |})
      "scan.pdf" sample_world = (Ok (), w')
    ∧ sheets w' !! "Form Data" = Some [["Name:"; "Phone:"]; ["Ada"; "555"]]
    ∧ sheets w' !! "Table Data"
      = Some [["scan.pdf"; "A"; "B"]; ["scan.pdf"; "C"; "D"]].
Proof.
  assert (PdfToSheet.build_kv_map sample_document
          = Ok {[ "Name:" := "Ada"; "Phone:" := "555" ]}) as Hkv
    by (vm_compute; reflexivity).
  assert (PdfToSheet.extract_tables sample_document
          = Ok [[["A"; "B"]; ["C"; "D"]]]) as Htables
    by (vm_compute; reflexivity).
  destruct (process_pdf_rows ∅ (λ _ _, Ok {| Blocks := Some sample_document |})
              "scan.pdf" sample_world {| Blocks := Some sample_document |}
              {[ "Name:" := "Ada"; "Phone:" := "555" ]}
              [[["A"; "B"]; ["C"; "D"]]] [["Name:"; "Phone:"]] []
              eq_refl Hkv Htables)
    as (w' & Hrun & Hform & Htable & _);
    [discriminate|vm_compute; reflexivity..|].
  exists w'. split_and!; [exact Hrun| |].
  - vm_compute in Hform. vm_compute. exact Hform.
  - vm_compute in Htable. vm_compute. exact Htable.
Defined.

(** * Further properties of the code *)

(** ** Listing the documents *)

Section listing.

Lemma lower_app (s t : string) : lower (s +:+ t) = lower s +:+ lower t.
Proof.
  induction s as [|c s IH]; [done|].
  rewrite append_cons. cbn [lower]. by rewrite IH, append_cons.
Qed.

(** A lowered string splits where its parts split. *)
Lemma lower_split (s a b : string) :
  lower s = a +:+ b → ∃ s1 s2, s = s1 +:+ s2 ∧ lower s1 = a ∧ lower s2 = b.
Proof.
  revert s. induction a as [|c a IH]; intros s Hs.
  { exists "", s. by rewrite !append_nil_l in *. }
  destruct s as [|c' s]; [done|].
  rewrite append_cons in Hs. cbn [lower] in Hs. injection Hs as Hc Hs.
  destruct (IH _ Hs) as (s1 & s2 & -> & H1 & H2).
  exists (String c' s1), s2. split_and!; [done| |done].
  cbn [lower]. by rewrite Hc, H1.
Qed.

Lemma endswith_suffix (s suffix : string) :
  endswith s suffix = true ↔ ∃ pre, s = pre +:+ suffix.
Proof.
  induction s as [|c s IH]; cbn [endswith].
  - rewrite orb_false_r, bool_decide_eq_true. split.
    + intros <-. by exists "".
    + intros ([|c pre] & Hpre); [done|]. by rewrite append_cons in Hpre.
  - rewrite orb_true_iff, bool_decide_eq_true, IH. split.
    + intros [<-|[pre ->]]; [by exists ""|]. by exists (String c pre).
    + intros ([|c' pre] & Hpre).
      * left. by rewrite append_nil_l in Hpre.
      * right. rewrite append_cons in Hpre. injection Hpre as -> ->. by eexists.
Qed.

Lemma pdf_key_extension (key : string) :
  endswith (lower key) ".pdf" = true
  ↔ ∃ stem ext, key = stem +:+ ext ∧ lower ext = ".pdf".
Proof.
  rewrite endswith_suffix. split.
  - intros [pre Hpre]. apply lower_split in Hpre as (stem & ext & -> & _ & Hext).
    by exists stem, ext.
  - intros (stem & ext & -> & Hext). exists (lower stem).
    by rewrite lower_app, Hext.
Qed.

End listing.

(** X1. When the listing succeeds, [list_pdfs] makes the one listing call
    and returns, in the order of the pages, the keys of the listing that end
    in an extension which lower-cases to ".pdf"; a page without ["Contents"]
    contributes nothing. *)
Theorem list_pdfs_keeps_pdf_keys
    (env : gmap string string)
    (s3_pages : option string → string → result (list (option (list string))))
    (w : world) (pages : list (option (list string))) :
  s3_pages (PdfToSheet.S3_BUCKET env) (PdfToSheet.S3_PREFIX env) = Ok pages →
  let listed := concat ((λ page, default [] page) <$> pages) in
  ∃ keys,
    PdfToSheet.list_pdfs env s3_pages w
    = (Ok keys,
       {| sheets := sheets w;
          trace := trace w ++ [S3ListObjects (PdfToSheet.S3_BUCKET env)
                                             (PdfToSheet.S3_PREFIX env)] |})
    ∧ sublist keys listed
    ∧ ∀ key, key ∈ keys
             ↔ key ∈ listed
               ∧ ∃ stem ext, key = stem +:+ ext ∧ PdfToSheet.lower ext = ".pdf".
Proof.
  intros Hpages listed. exists (pdf_keys pages). split_and!.
  - unfold PdfToSheet.list_pdfs, mbind, io_bind, emit, lift.
    by rewrite Hpages.
  - apply sublist_filter.
  - intros key. unfold pdf_keys. fold listed.
    rewrite list_elem_of_filter, pdf_key_extension. tauto.
Qed.

Lemma list_pdfs_keeps_pdf_keys_witness :
  ∃ keys,
    PdfToSheet.list_pdfs ∅ (λ _ _, Ok sample_pages) sample_world
    = (Ok keys,
       {| sheets := sheets sample_world;
          trace := trace sample_world ++ [S3ListObjects None ""] |})
    ∧ sublist keys ["in/a.pdf"; "in/notes.txt"; "in/B.PDF"; "in/pdf"]
    ∧ ∀ key, key ∈ keys
             ↔ key ∈ ["in/a.pdf"; "in/notes.txt"; "in/B.PDF"; "in/pdf"]
               ∧ ∃ stem ext, key = stem +:+ ext ∧ PdfToSheet.lower ext = ".pdf".
Proof.
  exact (list_pdfs_keeps_pdf_keys ∅ (λ _ _, Ok sample_pages) sample_world
           sample_pages eq_refl).
Defined.

(** ** Effects in sequence *)

Section sequencing.

Lemma io_bind_Raise {A B} (m : io A) (f : A → io B) (w w' : world) (e : exn) :
  m w = (Raise e, w') → (m ≫= f) w = (Raise e, w').
Proof. intros H. unfold mbind, io_bind. by rewrite H. Qed.

Lemma io_bind_inv_Ok {A B} (m : io A) (f : A → io B) (w w' : world) (b : B) :
  (m ≫= f) w = (Ok b, w') → ∃ a w1, m w = (Ok a, w1) ∧ f a w1 = (Ok b, w').
Proof.
  unfold mbind, io_bind. destruct (m w) as [[a|e] w1]; [by eauto|done].
Qed.

Lemma lift_inv_Ok {A} (r : result A) (w w' : world) (a : A) :
  lift r w = (Ok a, w') → r = Ok a ∧ w' = w.
Proof. unfold lift. by intros [= -> ->]. Qed.

Lemma for_each_app {B} (f : B → io unit) (l k : list B) (w w1 : world) :
  for_each f l w = (Ok (), w1) → for_each f (l ++ k) w = for_each f k w1.
Proof.
  revert w. induction l as [|x l IH]; intros w.
  { cbn. by intros [= ->]. }
  cbn [for_each app]. intros (u & w2 & Hx & Hl)%io_bind_inv_Ok.
  rewrite (io_bind_Ok _ _ _ _ _ Hx). by apply IH.
Qed.

(** A loop ends at the first turn that raises. *)
Lemma for_each_stops {B} (f : B → io unit) (l k : list B) x (w w1 w2 : world) e :
  for_each f l w = (Ok (), w1) → f x w1 = (Raise e, w2) →
  for_each f (l ++ x :: k) w = (Raise e, w2).
Proof.
  intros Hl Hx. rewrite (for_each_app _ _ _ _ _ Hl). cbn [for_each].
  by apply io_bind_Raise.
Qed.

End sequencing.

(** ** One document *)

Section one_document.
Variable env : gmap string string.
Variable textract : option string → string → result Response.

Lemma analyze_document_Ok key w response :
  textract (S3_BUCKET env) key = Ok response →
  PdfToSheet.analyze_document env textract key w = (Ok response, analyzed env key w).
Proof.
  intros H. unfold PdfToSheet.analyze_document, mbind, io_bind, emit, lift.
  by rewrite H.
Qed.

Lemma analyze_document_Raise key w e :
  textract (S3_BUCKET env) key = Raise e →
  PdfToSheet.analyze_document env textract key w = (Raise e, analyzed env key w).
Proof.
  intros H. unfold PdfToSheet.analyze_document, mbind, io_bind, emit, lift.
  by rewrite H.
Qed.

(** [process_pdf] up to the point where the form row is written. *)
Lemma process_pdf_form_written key w response kv_pairs form_rows :
  textract (S3_BUCKET env) key = Ok response →
  build_kv_map (default [] (Blocks response)) = Ok kv_pairs →
  sheets w !! FORM_TAB env = Some form_rows →
  process_pdf env textract key w
  = (lift (extract_tables (default [] (Blocks response)))
     ≫= λ tables, for_each (λ table, append_table_data env table key) tables)
      (after_rows (FORM_TAB env) [form_row_of kv_pairs form_rows]
         (analyzed env key w)).
Proof.
  intros Htextract Hkv Hform. unfold process_pdf.
  rewrite (io_bind_Ok _ _ _ _ _ (analyze_document_Ok key w response Htextract)).
  rewrite (io_bind_Ok _ _ (analyzed env key w) (analyzed env key w) kv_pairs)
    by (unfold lift; by rewrite Hkv).
  by rewrite (io_bind_Ok _ _ _ _ _
    (append_form_data_row env kv_pairs (analyzed env key w) form_rows Hform)).
Qed.

Lemma append_table_data_missing table key w :
  sheets w !! TABLE_TAB env = None →
  append_table_data env table key w = (Raise (WorksheetNotFound (TABLE_TAB env)), w).
Proof.
  intros H. unfold append_table_data, mbind, io_bind, worksheet. by rewrite H.
Qed.

(** Whatever it returns, [append_table_data] leaves the other worksheets
    as they are. *)
Lemma append_table_data_other table key w r w' title :
  title ≠ TABLE_TAB env →
  append_table_data env table key w = (r, w') →
  sheets w' !! title = sheets w !! title.
Proof.
  intros Hne. destruct (sheets w !! TABLE_TAB env) as [old|] eqn:Hold.
  - rewrite append_table_data_rows by by eexists. intros [= <- <-].
    by apply after_rows_other.
  - rewrite append_table_data_missing by done. by intros [= <- <-].
Qed.

Lemma append_tables_other tables key w r w' title :
  title ≠ TABLE_TAB env →
  for_each (λ table, append_table_data env table key) tables w = (r, w') →
  sheets w' !! title = sheets w !! title.
Proof.
  intros Hne. revert w. induction tables as [|table tables IH]; intros w.
  { cbn. by intros [= <- <-]. }
  cbn [for_each]. unfold mbind, io_bind.
  destruct (append_table_data env table key w) as [[[]|e] w1] eqn:Hstep.
  - intros Hrest. rewrite (IH _ Hrest).
    by eapply append_table_data_other.
  - intros [= <- <-]. by eapply append_table_data_other.
Qed.

End one_document.

(** X2. If Textract fails on a document, or the key-value reconstruction
    of its blocks raises, [process_pdf] raises that exception after the one
    Textract call and leaves every worksheet as it was. *)
Theorem process_pdf_fails_before_writing
    (env : gmap string string)
    (textract : option string → string → result Response)
    (key : string) (w : world) (e : exn) :
  textract (PdfToSheet.S3_BUCKET env) key = Raise e
  ∨ (∃ response,
       textract (PdfToSheet.S3_BUCKET env) key = Ok response
       ∧ PdfToSheet.build_kv_map (default [] (Blocks response)) = Raise e) →
  PdfToSheet.process_pdf env textract key w = (Raise e, analyzed env key w)
  ∧ sheets (analyzed env key w) = sheets w.
Proof.
  intros [Hfail|(response & Hok & Hkv)]; (split; [|done]);
    unfold PdfToSheet.process_pdf.
  - apply io_bind_Raise. by apply analyze_document_Raise.
  - rewrite (io_bind_Ok _ _ _ _ _ (analyze_document_Ok env textract key w response Hok)).
    apply io_bind_Raise. unfold lift. by rewrite Hkv.
Qed.

Lemma process_pdf_fails_before_writing_witness :
  PdfToSheet.process_pdf ∅ (λ _ _, Ok {| Blocks := Some [dangling_key] |})
    "scan.pdf" sample_world
  = (Raise (KeyError "w9"), analyzed ∅ "scan.pdf" sample_world)
  ∧ sheets (analyzed ∅ "scan.pdf" sample_world) = sheets sample_world.
Proof.
  apply (process_pdf_fails_before_writing ∅
           (λ _ _, Ok {| Blocks := Some [dangling_key] |})
           "scan.pdf" sample_world (KeyError "w9")).
  right. exists {| Blocks := Some [dangling_key] |}.
  split; [reflexivity|]. vm_compute. reflexivity.
Defined.

(** X3. [process_pdf] is not atomic: when the key-value reconstruction
    succeeds and the table reconstruction raises, the exception is raised
    after the form row of the document has been appended, and the row stays
    in the form worksheet. *)
Theorem process_pdf_keeps_form_row_on_table_failure
    (env : gmap string string)
    (textract : option string → string → result Response)
    (key : string) (w : world) (response : Response)
    (kv_pairs : gmap string string) (form_rows : list (list string)) (e : exn) :
  textract (PdfToSheet.S3_BUCKET env) key = Ok response →
  PdfToSheet.build_kv_map (default [] (Blocks response)) = Ok kv_pairs →
  PdfToSheet.extract_tables (default [] (Blocks response)) = Raise e →
  sheets w !! PdfToSheet.FORM_TAB env = Some form_rows →
  ∃ w',
    PdfToSheet.process_pdf env textract key w = (Raise e, w')
    ∧ sheets w' !! PdfToSheet.FORM_TAB env
      = Some (form_rows ++ [form_row_of kv_pairs form_rows])
    ∧ ∀ title, title ≠ PdfToSheet.FORM_TAB env →
        sheets w' !! title = sheets w !! title.
Proof.
  intros Htextract Hkv Htables Hform. eexists. split_and!.
  - rewrite (process_pdf_form_written env textract key w response kv_pairs
               form_rows) by done.
    apply io_bind_Raise. unfold lift. by rewrite Htables.
  - by rewrite (after_rows_sheet _ _ _ form_rows).
  - intros title Hne. by rewrite after_rows_other.
Qed.

Lemma process_pdf_keeps_form_row_on_table_failure_witness :
  ∃ w',
    PdfToSheet.process_pdf ∅ (λ _ _, Ok {| Blocks := Some sample_broken_table |})
      "scan.pdf" sample_world = (Raise (KeyError "c9"), w')
    ∧ sheets w' !! PdfToSheet.FORM_TAB ∅
      = Some ([["Name:"; "Phone:"]]
              ++ [form_row_of {[ "Name:" := "Ada" ]} [["Name:"; "Phone:"]]])
    ∧ ∀ title, title ≠ PdfToSheet.FORM_TAB ∅ →
        sheets w' !! title = sheets sample_world !! title.
Proof.
  assert (PdfToSheet.build_kv_map sample_broken_table = Ok {[ "Name:" := "Ada" ]})
    as Hkv by (vm_compute; reflexivity).
  assert (PdfToSheet.extract_tables sample_broken_table = Raise (KeyError "c9"))
    as Htables by (vm_compute; reflexivity).
  apply (process_pdf_keeps_form_row_on_table_failure ∅
           (λ _ _, Ok {| Blocks := Some sample_broken_table |})
           "scan.pdf" sample_world {| Blocks := Some sample_broken_table |}
           {[ "Name:" := "Ada" ]} [["Name:"; "Phone:"]] (KeyError "c9")
           eq_refl Hkv Htables).
  vm_compute. reflexivity.
Defined.

(** X4. The table worksheet is looked up once per reconstructed table.
    When it does not exist, a document without table is processed
    normally, and a document with at least one table (even an empty one)
    raises [WorksheetNotFound] after its form row has been appended. *)
Theorem process_pdf_without_table_worksheet
    (env : gmap string string)
    (textract : option string → string → result Response)
    (key : string) (w : world) (response : Response)
    (kv_pairs : gmap string string) (tables : list (list (list string)))
    (form_rows : list (list string)) :
  textract (PdfToSheet.S3_BUCKET env) key = Ok response →
  PdfToSheet.build_kv_map (default [] (Blocks response)) = Ok kv_pairs →
  PdfToSheet.extract_tables (default [] (Blocks response)) = Ok tables →
  sheets w !! PdfToSheet.FORM_TAB env = Some form_rows →
  sheets w !! PdfToSheet.TABLE_TAB env = None →
  ∃ w',
    PdfToSheet.process_pdf env textract key w
    = (match tables with
       | [] => Ok ()
       | _ :: _ => Raise (WorksheetNotFound (PdfToSheet.TABLE_TAB env))
       end, w')
    ∧ sheets w' !! PdfToSheet.FORM_TAB env
      = Some (form_rows ++ [form_row_of kv_pairs form_rows])
    ∧ sheets w' !! PdfToSheet.TABLE_TAB env = None.
Proof.
  intros Htextract Hkv Htables Hform Htable.
  assert (PdfToSheet.FORM_TAB env ≠ PdfToSheet.TABLE_TAB env) as Hne
    by (intros Heq; congruence).
  exists (after_rows (PdfToSheet.FORM_TAB env) [form_row_of kv_pairs form_rows]
            (analyzed env key w)).
  split_and!.
  - rewrite (process_pdf_form_written env textract key w response kv_pairs
               form_rows) by done.
    rewrite (io_bind_Ok _ _ _ _ tables) by (unfold lift; by rewrite Htables).
    destruct tables as [|table tables]; [done|].
    cbn [for_each]. apply io_bind_Raise, append_table_data_missing.
    by rewrite after_rows_other.
  - by rewrite (after_rows_sheet _ _ _ form_rows).
  - by rewrite after_rows_other.
Qed.

Lemma process_pdf_without_table_worksheet_witness :
  ∃ w',
    PdfToSheet.process_pdf ∅ (λ _ _, Ok {| Blocks := Some sample_document |})
      "scan.pdf" sample_world_no_table
    = (Raise (WorksheetNotFound (PdfToSheet.TABLE_TAB ∅)), w')
    ∧ sheets w' !! PdfToSheet.FORM_TAB ∅
      = Some ([["Name:"; "Phone:"]]
              ++ [form_row_of {[ "Name:" := "Ada"; "Phone:" := "555" ]}
                    [["Name:"; "Phone:"]]])
    ∧ sheets w' !! PdfToSheet.TABLE_TAB ∅ = None.
Proof.
  assert (PdfToSheet.build_kv_map sample_document
          = Ok {[ "Name:" := "Ada"; "Phone:" := "555" ]}) as Hkv
    by (vm_compute; reflexivity).
  assert (PdfToSheet.extract_tables sample_document
          = Ok [[["A"; "B"]; ["C"; "D"]]]) as Htables
    by (vm_compute; reflexivity).
  apply (process_pdf_without_table_worksheet ∅
           (λ _ _, Ok {| Blocks := Some sample_document |})
           "scan.pdf" sample_world_no_table {| Blocks := Some sample_document |}
           {[ "Name:" := "Ada"; "Phone:" := "555" ]}
           [[["A"; "B"]; ["C"; "D"]]] [["Name:"; "Phone:"]]
           eq_refl Hkv Htables); vm_compute; reflexivity.
Defined.

(** ** The batch *)

Section batch_run.
Variable env : gmap string string.
Variable s3_pages : option string → string → result (list (option (list string))).
Variable textract : option string → string → result Response.

(** [main] once the two required settings are there and the listing has
    succeeded. *)
Lemma main_loop w pages :
  nonempty (S3_BUCKET env) = true → nonempty (SPREADSHEET_ID env) = true →
  s3_pages (S3_BUCKET env) (S3_PREFIX env) = Ok pages →
  PdfToSheet.main env s3_pages textract w
  = (for_each (batch_step env textract) (pdf_keys pages)
     ≫= λ _, emit (Print "Done")) (batch_start env w).
Proof.
  intros Hb Hs Hpages. unfold PdfToSheet.main. rewrite Hb, Hs. cbn [andb negb].
  set (wa := {| sheets := sheets w;
                trace := trace w
                  ++ [S3ListObjects (S3_BUCKET env) (S3_PREFIX env)] |}).
  set (wb := {| sheets := sheets wa;
                trace := trace wa
                  ++ [SheetsAuthorize (GOOGLE_SHEETS_KEYFILE env)] |}).
  set (wc := {| sheets := sheets wb;
                trace := trace wb ++ [SheetsOpen (SPREADSHEET_ID env)] |}).
  rewrite (io_bind_Ok _ _ w wa (pdf_keys pages)).
  2:{ unfold list_pdfs, mbind, io_bind, emit, lift. by rewrite Hpages. }
  rewrite (io_bind_Ok _ _ wa wb ()) by reflexivity.
  rewrite (io_bind_Ok _ _ wb wc ()) by reflexivity.
  replace wc with (batch_start env w); [reflexivity|].
  unfold batch_start, wc, wb, wa. cbn. by rewrite <-!app_assoc.
Qed.

Lemma main_inv_Ok w w' :
  PdfToSheet.main env s3_pages textract w = (Ok (), w') →
  ∃ pages w1,
    s3_pages (S3_BUCKET env) (S3_PREFIX env) = Ok pages
    ∧ for_each (batch_step env textract) (pdf_keys pages) (batch_start env w)
      = (Ok (), w1)
    ∧ sheets w' = sheets w1.
Proof.
  intros Hmain.
  destruct (nonempty (S3_BUCKET env)) eqn:Hb.
  2:{ unfold PdfToSheet.main in Hmain. by rewrite Hb in Hmain. }
  destruct (nonempty (SPREADSHEET_ID env)) eqn:Hs.
  2:{ unfold PdfToSheet.main in Hmain. by rewrite Hb, Hs in Hmain. }
  destruct (s3_pages (S3_BUCKET env) (S3_PREFIX env)) as [pages|e] eqn:Hpages.
  2:{ unfold PdfToSheet.main in Hmain. rewrite Hb, Hs in Hmain.
      unfold list_pdfs, mbind, io_bind, emit, lift in Hmain.
      by rewrite Hpages in Hmain. }
  rewrite (main_loop w pages Hb Hs Hpages) in Hmain.
  apply io_bind_inv_Ok in Hmain as ([] & w1 & Hloop & Hdone).
  exists pages, w1. split_and!; [done..|].
  unfold emit in Hdone. by injection Hdone as <-.
Qed.

Lemma process_pdf_form_count key w w' :
  FORM_TAB env ≠ TABLE_TAB env →
  process_pdf env textract key w = (Ok (), w') →
  form_count env w' = S (form_count env w).
Proof.
  intros Hne Hrun. unfold process_pdf in Hrun.
  apply io_bind_inv_Ok in Hrun as (response & w1 & Hresp & Hrun).
  assert (sheets w1 = sheets w) as Hw1.
  { unfold PdfToSheet.analyze_document, mbind, io_bind, emit, lift in Hresp.
    destruct (textract _ key); [|done]. by injection Hresp as _ <-. }
  apply io_bind_inv_Ok in Hrun as (kv_pairs & w1' & [_ ->]%lift_inv_Ok & Hrun).
  apply io_bind_inv_Ok in Hrun as ([] & w2 & Hform & Hrun).
  apply io_bind_inv_Ok in Hrun as (tables & w2' & [_ ->]%lift_inv_Ok & Hrun).
  destruct (sheets w1 !! FORM_TAB env) as [form_rows|] eqn:Hrows.
  2:{ unfold append_form_data, mbind, io_bind, worksheet in Hform.
      by rewrite Hrows in Hform. }
  rewrite (append_form_data_row env kv_pairs w1 form_rows Hrows) in Hform.
  injection Hform as <-.
  unfold form_count.
  rewrite (append_tables_other env tables key _ _ _ _ Hne Hrun).
  cbn [sheets]. rewrite lookup_insert_eq, <-Hw1, Hrows. cbn.
  rewrite length_app. cbn. lia.
Qed.

Lemma batch_step_form_count key w w' :
  FORM_TAB env ≠ TABLE_TAB env →
  batch_step env textract key w = (Ok (), w') →
  form_count env w' = S (form_count env w).
Proof.
  intros Hne Hstep. unfold batch_step in Hstep.
  apply io_bind_inv_Ok in Hstep as ([] & w1 & Hprint & Hstep).
  apply io_bind_inv_Ok in Hstep as ([] & w2 & Hrun & Hsleep).
  unfold emit in Hprint, Hsleep.
  injection Hprint as <-. injection Hsleep as <-.
  pose proof (process_pdf_form_count key _ w2 Hne Hrun) as Hcount.
  unfold form_count in *. exact Hcount.
Qed.

Lemma batch_form_count keys w w' :
  FORM_TAB env ≠ TABLE_TAB env →
  for_each (batch_step env textract) keys w = (Ok (), w') →
  form_count env w' = (form_count env w + length keys)%nat.
Proof.
  intros Hne. revert w. induction keys as [|key keys IH]; intros w.
  { cbn. intros [= <-]. lia. }
  cbn [for_each]. intros ([] & w1 & Hstep & Hrest)%io_bind_inv_Ok.
  rewrite (IH _ Hrest), (batch_step_form_count key w w1 Hne Hstep).
  cbn. lia.
Qed.

End batch_run.

(** X5. The batch has no isolation between documents: when the documents
    before one have been processed and [process_pdf] raises on that one,
    [main] raises the same exception and ends in the state of that failure;
    the documents after it are not looked at. *)
Theorem batch_stops_at_first_failure
    (env : gmap string string)
    (s3_pages : option string → string → result (list (option (list string))))
    (textract : option string → string → result Response)
    (w w1 w2 : world) (pages : list (option (list string)))
    (processed rest : list string) (key : string) (e : exn) :
  nonempty (PdfToSheet.S3_BUCKET env) = true →
  nonempty (PdfToSheet.SPREADSHEET_ID env) = true →
  s3_pages (PdfToSheet.S3_BUCKET env) (PdfToSheet.S3_PREFIX env) = Ok pages →
  pdf_keys pages = processed ++ key :: rest →
  for_each (batch_step env textract) processed (batch_start env w) = (Ok (), w1) →
  PdfToSheet.process_pdf env textract key
    {| sheets := sheets w1;
       trace := trace w1 ++ [Print ("Processing " +:+ key +:+ "...")] |}
  = (Raise e, w2) →
  PdfToSheet.main env s3_pages textract w = (Raise e, w2).
Proof.
  intros Hb Hs Hpages Hkeys Hdone Hfail.
  rewrite (main_loop env s3_pages textract w pages Hb Hs Hpages), Hkeys.
  apply io_bind_Raise. apply (for_each_stops _ _ _ _ _ w1); [done|].
  unfold batch_step. unfold mbind at 1, io_bind at 1, emit at 1.
  by apply io_bind_Raise.
Qed.

Lemma batch_stops_at_first_failure_witness :
  (PdfToSheet.main sample_env
     (λ _ _, Ok [Some ["in/a.pdf"; "in/b.pdf"; "in/c.pdf"]])
     (flaky_textract "in/b.pdf") sample_world).1
  = Raise (ServiceError "throttled").
Proof.
  assert (PdfToSheet.main sample_env
            (λ _ _, Ok [Some ["in/a.pdf"; "in/b.pdf"; "in/c.pdf"]])
            (flaky_textract "in/b.pdf") sample_world
          = (Raise (ServiceError "throttled"),
             (PdfToSheet.process_pdf sample_env (flaky_textract "in/b.pdf")
                "in/b.pdf"
                {| sheets :=
                     sheets (for_each
                       (batch_step sample_env (flaky_textract "in/b.pdf"))
                       ["in/a.pdf"] (batch_start sample_env sample_world)).2;
                   trace :=
                     trace (for_each
                       (batch_step sample_env (flaky_textract "in/b.pdf"))
                       ["in/a.pdf"] (batch_start sample_env sample_world)).2
                     ++ [Print ("Processing " +:+ "in/b.pdf" +:+ "...")] |}).2))
    as Hmain.
  { apply (batch_stops_at_first_failure sample_env
             (λ _ _, Ok [Some ["in/a.pdf"; "in/b.pdf"; "in/c.pdf"]])
             (flaky_textract "in/b.pdf") sample_world
             (for_each (batch_step sample_env (flaky_textract "in/b.pdf"))
                ["in/a.pdf"] (batch_start sample_env sample_world)).2
             _
             [Some ["in/a.pdf"; "in/b.pdf"; "in/c.pdf"]]
             ["in/a.pdf"] ["in/c.pdf"] "in/b.pdf" (ServiceError "throttled"));
      vm_compute; reflexivity. }
  by rewrite Hmain.
Defined.

(** X6. When the form and table worksheets are distinct and the batch
    ends normally, the form worksheet has gained exactly one row per
    document of the listing. *)
Theorem batch_one_form_row_per_document
    (env : gmap string string)
    (s3_pages : option string → string → result (list (option (list string))))
    (textract : option string → string → result Response)
    (w w' : world) :
  PdfToSheet.FORM_TAB env ≠ PdfToSheet.TABLE_TAB env →
  PdfToSheet.main env s3_pages textract w = (Ok (), w') →
  ∃ pages,
    s3_pages (PdfToSheet.S3_BUCKET env) (PdfToSheet.S3_PREFIX env) = Ok pages
    ∧ form_count env w' = (form_count env w + length (pdf_keys pages))%nat.
Proof.
  intros Hne Hmain.
  destruct (main_inv_Ok env s3_pages textract w w' Hmain)
    as (pages & w1 & Hpages & Hloop & Hsheets).
  exists pages. split; [done|].
  pose proof (batch_form_count env textract _ _ w1 Hne Hloop) as Hcount.
  unfold form_count in *. rewrite Hsheets. exact Hcount.
Qed.

Lemma batch_one_form_row_per_document_witness :
  ∃ pages,
    Ok [Some ["in/a.pdf"; "in/b.pdf"]; Some ["in/readme.md"]] = Ok pages
    ∧ form_count sample_env
        (PdfToSheet.main sample_env
           (λ _ _, Ok [Some ["in/a.pdf"; "in/b.pdf"]; Some ["in/readme.md"]])
           (λ _ _, Ok {| Blocks := Some sample_document |}) sample_world).2
      = (form_count sample_env sample_world + length (pdf_keys pages))%nat.
Proof.
  apply (batch_one_form_row_per_document sample_env
           (λ _ _, Ok [Some ["in/a.pdf"; "in/b.pdf"]; Some ["in/readme.md"]])
           (λ _ _, Ok {| Blocks := Some sample_document |}) sample_world).
  - vm_compute. discriminate.
  - vm_compute. reflexivity.
Defined.

(** ** More on the key-value reconstruction *)

Section key_values_more.

Lemma written_inv (m : gmap string string) ps k v :
  foldl (λ m p, <[p.1 := p.2]> m) m ps !! k = Some v →
  m !! k = Some v ∨ (k, v) ∈ ps.
Proof.
  induction ps as [|[k' v'] ps IH] using rev_ind; [by left|].
  rewrite foldl_app. cbn. rewrite lookup_insert.
  destruct (decide (k' = k)) as [->|Hne].
  - intros [= ->]. right. apply elem_of_app. right. by left.
  - intros [?|?]%IH; [by left|]. right. apply elem_of_app. by left.
Qed.

Lemma index_block_untyped (st : kv_index) (b : Block) :
  BlockType b = None → index_block st b = Raise (KeyError "BlockType").
Proof. intros H. unfold index_block. by rewrite H. Qed.

Lemma index_blocks_untyped (blocks : list Block) (b : Block) st :
  b ∈ blocks → BlockType b = None →
  foldM index_block st blocks = Raise (KeyError "BlockType").
Proof.
  intros Hb Hnone. revert st.
  induction blocks as [|x blocks IH]; intros st; [by apply elem_of_nil in Hb|].
  rewrite foldM_cons. destruct (BlockType x) as [bt|] eqn:Hx.
  - rewrite (index_block_typed _ _ _ Hx), bind_Ok. apply IH.
    apply elem_of_cons in Hb as [->|Hb]; [congruence|done].
  - by rewrite (index_block_untyped _ _ Hx).
Qed.

Lemma add_blocks_anonymous (blocks : list Block) (b : Block) (m : BlockMap) :
  b ∈ blocks → Id b = None →
  foldM add_block m blocks = Raise (KeyError "Id").
Proof.
  intros Hb Hnone. revert m.
  induction blocks as [|x blocks IH]; intros m; [by apply elem_of_nil in Hb|].
  rewrite foldM_cons.
  assert (add_block m x = match Id x with
                          | Some i => Ok (<[Id x := x]> m)
                          | None => Raise (KeyError "Id")
                          end) as ->.
  { unfold add_block. by destruct (Id x). }
  destruct (Id x) as [i|] eqn:Hx; [|done].
  rewrite bind_Ok. apply IH.
  apply elem_of_cons in Hb as [->|Hb]; [congruence|done].
Qed.

Lemma value_target_none (rel : Relationship) :
  rel_Type rel ≠ Some "VALUE" ∨ has_ids rel = false → value_target rel = [].
Proof.
  unfold value_target, has_ids. intros [Hty|Hids].
  - by rewrite bool_decide_eq_false_2.
  - case_bool_decide; [|done]. by destruct (rel_Ids rel) as [[|??]|].
Qed.

(** The lookup of a key text in the result, for the last key block of
    that text. *)
Lemma kv_lookup_last (blocks pre post : list Block) (kb : Block) kt vt :
  well_formed blocks = true → NoDup (Id <$> blocks) →
  blocks = pre ++ kb :: post → is_key_block kb = true →
  kv_entry (value_index blocks) (block_index blocks) kb = Ok (kt, vt) →
  (∀ kb', kb' ∈ post → is_key_block kb' = true →
     extract_text (Some kb') (block_index blocks) ≠ Ok kt) →
  ∃ kv, build_kv_map blocks = Ok kv ∧ kv !! kt = Some vt.
Proof.
  intros Hwf Hnd Hblocks Hkey He Hlater.
  eexists. split; [by apply build_kv_map_writes|].
  assert (entry_of blocks kb = (kt, vt)) as Hentry.
  { unfold entry_of. by rewrite He. }
  rewrite Hblocks at 2.
  rewrite filter_app, filter_cons_True, fmap_app, fmap_cons, Hentry by done.
  apply last_write_wins.
  intros ([kt' vt'] & Hfst & Hin)%list_elem_of_fmap. cbn in Hfst. subst kt'.
  apply list_elem_of_fmap in Hin as (kb' & Hentry' & [Hkey' Hin]%list_elem_of_filter).
  apply (Hlater kb' Hin Hkey').
  assert (kb' ∈ blocks) as Hkb'.
  { rewrite Hblocks. apply elem_of_app. right. by right. }
  destruct (kv_entry_well_formed _ _ Hwf Hnd Hkb') as (kt' & vt'' & He' & Hkt' & _).
  unfold entry_of in Hentry'. rewrite He' in Hentry'. congruence.
Qed.

End key_values_more.

(** X7. On a collection that follows the schema and has distinct
    identifiers, every entry of the mapping [build_kv_map] returns comes
    from a key block: its key is the text of that block and its value the
    text of the paired value block, or the empty string. A collection
    without key block gives the empty mapping. *)
Theorem build_kv_map_only_key_blocks (blocks : list Block) :
  well_formed blocks = true →
  NoDup (Id <$> blocks) →
  ∃ kv_pairs,
    PdfToSheet.build_kv_map blocks = Ok kv_pairs
    ∧ (∀ key_text val_text,
         kv_pairs !! key_text = Some val_text →
         ∃ kb, kb ∈ blocks ∧ is_key_block kb = true
               ∧ PdfToSheet.extract_text (Some kb) (block_index blocks)
                 = Ok key_text
               ∧ match paired_value blocks kb with
                 | Some vb =>
                     PdfToSheet.extract_text (Some vb) (block_index blocks)
                     = Ok val_text
                 | None => val_text = ""
                 end)
    ∧ ((∀ b, b ∈ blocks → is_key_block b = false) → kv_pairs = ∅).
Proof.
  intros Hwf Hnd. eexists. split; [by apply build_kv_map_writes|].
  assert (∀ key_text val_text,
            foldl (λ m p, <[p.1 := p.2]> m) (∅ : gmap string string)
              (entry_of blocks <$> filter (λ b, is_key_block b = true) blocks)
            !! key_text = Some val_text →
            ∃ kb, kb ∈ blocks ∧ is_key_block kb = true
                  ∧ PdfToSheet.extract_text (Some kb) (block_index blocks)
                    = Ok key_text
                  ∧ match paired_value blocks kb with
                    | Some vb =>
                        PdfToSheet.extract_text (Some vb) (block_index blocks)
                        = Ok val_text
                    | None => val_text = ""
                    end) as Hentries.
  { intros kt vt [Hempty|Hin]%written_inv; [by rewrite lookup_empty in Hempty|].
    apply list_elem_of_fmap in Hin as (kb & Hentry & [Hkey Hkb]%list_elem_of_filter).
    destruct (kv_entry_well_formed _ _ Hwf Hnd Hkb) as (kt' & vt' & He & Hkt & Hvt).
    unfold entry_of in Hentry. rewrite He in Hentry. injection Hentry as -> ->.
    by exists kb. }
  split; [exact Hentries|].
  intros Hnone. apply map_empty. intros kt.
  destruct (_ !! kt) as [vt|] eqn:Hkt; [|done].
  destruct (Hentries kt vt Hkt) as (kb & Hkb & Hkey & _).
  rewrite (Hnone kb Hkb) in Hkey. done.
Qed.

Lemma build_kv_map_only_key_blocks_witness :
  ∃ kv_pairs,
    PdfToSheet.build_kv_map sample_table = Ok kv_pairs
    ∧ (∀ key_text val_text,
         kv_pairs !! key_text = Some val_text →
         ∃ kb, kb ∈ sample_table ∧ is_key_block kb = true
               ∧ PdfToSheet.extract_text (Some kb) (block_index sample_table)
                 = Ok key_text
               ∧ match paired_value sample_table kb with
                 | Some vb =>
                     PdfToSheet.extract_text (Some vb) (block_index sample_table)
                     = Ok val_text
                 | None => val_text = ""
                 end)
    ∧ ((∀ b, b ∈ sample_table → is_key_block b = false) → kv_pairs = ∅).
Proof.
  apply (build_kv_map_only_key_blocks sample_table).
  - reflexivity.
  - apply (bool_decide_unpack _). reflexivity.
Defined.

(** X8. A single block without ["BlockType"], of whatever kind and
    wherever it stands in the collection, makes [build_kv_map] raise
    [KeyError] for that key. *)
Theorem build_kv_map_missing_block_type (blocks : list Block) (b : Block) :
  b ∈ blocks → BlockType b = None →
  PdfToSheet.build_kv_map blocks = Raise (KeyError "BlockType").
Proof.
  intros Hb Hnone. unfold PdfToSheet.build_kv_map.
  by rewrite (index_blocks_untyped blocks b).
Qed.

Lemma build_kv_map_missing_block_type_witness :
  PdfToSheet.build_kv_map (sample_form ++ [untyped_block])
  = Raise (KeyError "BlockType").
Proof.
  apply (build_kv_map_missing_block_type (sample_form ++ [untyped_block])
           untyped_block); [|reflexivity].
  apply elem_of_app. right. by left.
Defined.

(** X9. A single block without ["Id"] makes [extract_tables] raise
    [KeyError] for that key, also when the collection has no table. *)
Theorem extract_tables_missing_id (blocks : list Block) (b : Block) :
  b ∈ blocks → Id b = None →
  PdfToSheet.extract_tables blocks = Raise (KeyError "Id").
Proof.
  intros Hb Hnone. unfold PdfToSheet.extract_tables.
  by rewrite (add_blocks_anonymous blocks b).
Qed.

Lemma extract_tables_missing_id_witness :
  PdfToSheet.extract_tables (sample_form ++ [anonymous_block])
  = Raise (KeyError "Id").
Proof.
  apply (extract_tables_missing_id (sample_form ++ [anonymous_block])
           anonymous_block); [|reflexivity].
  apply elem_of_app. right. by left.
Defined.

(** X10. Among the relationships of a key block, the last VALUE
    relationship that lists targets decides the value block, and only its
    first target is looked up: whatever an earlier VALUE relationship
    found is forgotten. *)
Theorem find_value_last_relationship
    (vm : BlockMap) (kb : Block) (before after : list Relationship)
    (rel : Relationship) (vid : string) (others : list string) :
  Relationships kb = Some (before ++ rel :: after) →
  typed kb →
  rel_Type rel = Some "VALUE" →
  rel_Ids rel = Some (vid :: others) →
  Forall (λ r, rel_Type r ≠ Some "VALUE" ∨ has_ids r = false) after →
  PdfToSheet.find_value vm kb = Ok (vm !! Some vid).
Proof.
  intros Hrels Hty Hrel Hids Hafter.
  rewrite (find_value_typed vm kb Hty). unfold value_targets.
  rewrite Hrels. cbn [default from_option id].
  rewrite bind_app, bind_cons.
  assert (after ≫= value_target = []) as ->.
  { clear -Hafter. induction Hafter as [|r after Hr _ IH]; [done|].
    by rewrite bind_cons, (value_target_none _ Hr), IH. }
  assert (value_target rel = [vid]) as ->.
  { unfold value_target. rewrite bool_decide_eq_true_2 by done.
    by rewrite Hids. }
  by rewrite app_nil_r, last_snoc.
Qed.

Lemma find_value_last_relationship_witness :
  PdfToSheet.find_value (value_index sample_form) sample_two_values
  = Ok (value_index sample_form !! Some "v9").
Proof.
  apply (find_value_last_relationship (value_index sample_form)
           sample_two_values [value_rel ["v1"]; child_rel ["w1"]] []
           (value_rel ["v9"; "v1"]) "v9" ["v1"]); try reflexivity.
  - repeat constructor; by eexists.
  - constructor.
Defined.

(** X11. Only a value block is paired with a key block. If the VALUE
    relationship of a key block points to an identifier that no value
    block of the collection carries (it may be that of a key block, a WORD
    or any other block), the entry of the key block has the empty string as
    value. *)
Theorem value_target_must_be_value_block
    (blocks pre post : list Block) (kb : Block) (vid key_text : string) :
  well_formed blocks = true →
  NoDup (Id <$> blocks) →
  blocks = pre ++ kb :: post →
  is_key_block kb = true →
  last (value_targets kb) = Some vid →
  (∀ b, b ∈ blocks → Id b = Some vid → is_value_block b = false) →
  PdfToSheet.extract_text (Some kb) (block_index blocks) = Ok key_text →
  (∀ kb', kb' ∈ post → is_key_block kb' = true →
     PdfToSheet.extract_text (Some kb') (block_index blocks) ≠ Ok key_text) →
  ∃ kv_pairs,
    PdfToSheet.build_kv_map blocks = Ok kv_pairs
    ∧ kv_pairs !! key_text = Some "".
Proof.
  intros Hwf Hnd Hblocks Hkey Hlast Hnot Htext Hlater.
  assert (kb ∈ blocks) as Hkb.
  { rewrite Hblocks. apply elem_of_app. right. by left. }
  assert (paired_value blocks kb = None) as Hpair.
  { unfold paired_value. rewrite Hlast. cbn.
    destruct (head _) as [vb|] eqn:Hhd; [|done].
    apply head_Some_elem_of, list_elem_of_filter in Hhd as [Hid Hvb].
    apply list_elem_of_filter in Hvb as [Hval Hin].
    rewrite (Hnot vb Hin Hid) in Hval. done. }
  destruct (kv_entry_well_formed _ _ Hwf Hnd Hkb) as (kt & vt & He & Hkt & Hvt).
  rewrite Hpair in Hvt. subst vt.
  assert (kt = key_text) as -> by congruence.
  by apply (kv_lookup_last blocks pre post kb key_text "").
Qed.

Lemma value_target_must_be_value_block_witness :
  ∃ kv_pairs,
    PdfToSheet.build_kv_map sample_misdirected = Ok kv_pairs
    ∧ kv_pairs !! "Name:" = Some "".
Proof.
  apply (value_target_must_be_value_block sample_misdirected []
           [word_block "w1" "Name:"; word_block "w2" "Ada"]
           (kv_block "k1" ["KEY"] [value_rel ["w2"]; child_rel ["w1"]])
           "w2" "Name:"); try reflexivity.
  - apply (bool_decide_unpack _). reflexivity.
  - intros b Hb Hid. apply list_elem_of_In in Hb. cbn in Hb.
    destruct Hb as [<-|[<-|[<-|[]]]]; done.
  - intros kb' Hkb' Hkey. apply list_elem_of_In in Hkb'. cbn in Hkb'.
    destruct Hkb' as [<-|[<-|[]]]; discriminate.
Defined.

(** ** More on the configuration *)

Section configuration_more.

Lemma load_vars_other (env : gmap string string) st vars k :
  k ∉ vars → (foldl (load_var env) st vars).1 !! k = st.1 !! k.
Proof.
  revert st. induction vars as [|var vars IH]; intros st Hk; [done|].
  apply not_elem_of_cons in Hk as [Hne Hk]. cbn [foldl].
  rewrite IH by done. unfold load_var.
  destruct (nonempty (env !! var)); cbn; [|done].
  by rewrite lookup_insert_ne.
Qed.

Lemma load_config_all_set (env : gmap string string) :
  (∀ var, var ∈ env_vars → nonempty (env !! var) = true) →
  load_config env = Ok (foldl (load_var env) (∅, []) env_vars).1.
Proof.
  intros Hall. unfold load_config. rewrite load_vars_missing. cbn [snd app].
  assert (filter (λ var, nonempty (env !! var) = false) env_vars = []) as ->;
    [|done].
  apply elem_of_nil_inv. intros var [Hvar Hin]%list_elem_of_filter.
  rewrite (Hall var Hin) in Hvar. done.
Qed.

End configuration_more.

(** X12. When every required variable is set and non-empty,
    [load_config] returns a configuration that holds exactly the seven
    required variables, each with its value in the environment: no other
    variable of the environment is copied. *)
Theorem load_config_copies_required (env : gmap string string) :
  (∀ var, var ∈ ProcessInvoice.env_vars → nonempty (env !! var) = true) →
  ∃ config,
    ProcessInvoice.load_config env = Ok config
    ∧ ∀ k, config !! k
           = if decide (k ∈ ProcessInvoice.env_vars) then env !! k else None.
Proof.
  intros Hall. eexists. split; [by apply load_config_all_set|].
  intros k. case_decide as Hk.
  - by apply load_vars_config; [|apply Hall].
  - by rewrite load_vars_other.
Qed.

Lemma load_config_copies_required_witness :
  ∃ config,
    ProcessInvoice.load_config full_env = Ok config
    ∧ ∀ k, config !! k
           = if decide (k ∈ ProcessInvoice.env_vars) then full_env !! k else None.
Proof.
  apply (load_config_copies_required full_env).
  intros var Hvar. apply list_elem_of_In in Hvar. cbn in Hvar.
  destruct Hvar as [<-|[<-|[<-|[<-|[<-|[<-|[<-|[]]]]]]]]; reflexivity.
Defined.

(** X13. A required variable that is set to the empty string counts as
    missing: [load_config] raises [EnvironmentError] and names it. *)
Theorem load_config_empty_is_missing (env : gmap string string) (var : string) :
  var ∈ ProcessInvoice.env_vars →
  env !! var = Some "" →
  ∃ msg,
    ProcessInvoice.load_config env = Raise (EnvironmentError msg)
    ∧ PyStr.infix var msg.
Proof.
  intros Hin Hempty.
  assert (var ∈ missing_vars env) as Hvar.
  { apply list_elem_of_filter. by rewrite Hempty. }
  eexists. split.
  - apply load_config_missing. intros Hnil. rewrite Hnil in Hvar.
    by apply elem_of_nil in Hvar.
  - by apply infix_app_r, infix_join.
Qed.

Lemma load_config_empty_is_missing_witness :
  ∃ msg,
    ProcessInvoice.load_config (<["AWS_REGION" := ""]> full_env)
    = Raise (EnvironmentError msg)
    ∧ PyStr.infix "AWS_REGION" msg.
Proof.
  apply (load_config_empty_is_missing (<["AWS_REGION" := ""]> full_env)
           "AWS_REGION").
  - apply list_elem_of_In. cbn. tauto.
  - reflexivity.
Defined.

(** ** More on the query results *)

Section queries_more.
Variable date_parser_parse : string → bool → result datetime.

Lemma scan_keys (blocks : list Block) st k v :
  (foldl scan_block st blocks).1 !! k = Some v →
  st.1 !! k = Some v ∨ (k ≠ "" ∧ ∃ b, b ∈ blocks ∧ answers k b).
Proof.
  induction blocks as [|b blocks IH] using rev_ind; [by left|].
  rewrite foldl_app. cbn [foldl].
  destruct (decide (answers k b)) as [Hb|Hb].
  - intros Hk. destruct (decide (k = "")) as [->|Hne].
    + rewrite scan_block_cases in Hk. destruct Hb as [Hq Hal].
      rewrite (bool_decide_eq_true_2 _ Hq), Hal in Hk.
      apply IH in Hk as [?|[? _]]; [by left|done].
    + right. split; [done|]. exists b. split; [|done].
      apply elem_of_app. right. by left.
  - rewrite scan_block_other by done.
    intros [?|(Hne & b' & Hin & Hb')]%IH; [by left|].
    right. split; [done|]. exists b'. split; [|done].
    apply elem_of_app. by left.
Qed.

Lemma normalize_date_is_Some (results : gmap string string) k :
  is_Some ((normalize_date date_parser_parse results).1 !! k) →
  is_Some (results !! k).
Proof.
  unfold normalize_date. destruct (results !! "Date") as [text|] eqn:Hd; [|done].
  destruct (date_parser_parse text); [|done]. cbn.
  rewrite lookup_insert. case_decide as Hk; [|done].
  subst k. by rewrite Hd.
Qed.

Lemma normalize_date_keeps (results : gmap string string) k :
  is_Some (results !! k) →
  is_Some ((normalize_date date_parser_parse results).1 !! k).
Proof.
  intros Hk. unfold normalize_date.
  destruct (results !! "Date") as [text|]; [|done].
  destruct (date_parser_parse text true); [|done]. cbn.
  rewrite lookup_insert. by case_decide.
Qed.

Lemma scan_answered (blocks : list Block) st k (b : Block) :
  k ≠ "" → b ∈ blocks → answers k b →
  is_Some ((foldl scan_block st blocks).1 !! k).
Proof.
  intros Hk Hin Hb. rewrite scan_results by done.
  destruct (last (filter (answers k) blocks)) as [b'|] eqn:Hlast; [by eexists|].
  apply last_None in Hlast.
  assert (b ∈ filter (answers k) blocks) as Hf by by apply list_elem_of_filter.
  rewrite Hlast in Hf. by apply elem_of_nil in Hf.
Qed.

End queries_more.

(** X14. The keys of the mapping [parse_response] returns are exactly
    "full_text" and the non-empty aliases of the QUERY_RESULT blocks of the
    response: each of these is a key, and nothing else is. *)
Theorem parse_response_keys
    (date_parser_parse : string → bool → result ProcessInvoice.datetime)
    (response : Response) (k : string) :
  is_Some ((ProcessInvoice.parse_response date_parser_parse response).1 !! k)
  ↔ k = "full_text"
    ∨ (k ≠ "" ∧ ∃ b, b ∈ default [] (Blocks response) ∧ answers k b).
Proof.
  destruct (decide (k = "full_text")) as [->|Hne].
  { split; [by left|]. intros _. rewrite parse_response_full. by eexists. }
  unfold ProcessInvoice.parse_response. cbn [fst].
  rewrite lookup_insert_ne by done. split.
  - intros [v' Hv']%normalize_date_is_Some. right.
    apply scan_keys in Hv' as [Hempty|?]; [|done].
    cbn [fst] in Hempty. by rewrite lookup_empty in Hempty.
  - intros [?|(Hk & b & Hin & Hb)]; [done|].
    by eapply normalize_date_keeps, scan_answered.
Qed.

Lemma parse_response_keys_witness :
  is_Some ((ProcessInvoice.parse_response iso_date_parser
              {| Blocks := Some sample_answers |}).1 !! "Title").
Proof.
  apply (parse_response_keys iso_date_parser
           {| Blocks := Some sample_answers |} "Title").
  right. split; [discriminate|].
  exists (query_result_block "q4" "Title" "The Gazette"). split.
  - apply list_elem_of_In. cbn. tauto.
  - split; reflexivity.
Defined.

(** X15. When no QUERY_RESULT block carries the alias "Date", the date
    parser plays no part: the mapping has no "Date" entry, nothing is
    logged, and what [parse_response] returns is the same for every
    parser. *)
Theorem parse_response_without_date
    (date_parser_parse other_parser : string → bool → result ProcessInvoice.datetime)
    (response : Response) :
  (∀ b, b ∈ default [] (Blocks response) → ¬ answers "Date" b) →
  (ProcessInvoice.parse_response date_parser_parse response).1 !! "Date" = None
  ∧ (ProcessInvoice.parse_response date_parser_parse response).2 = []
  ∧ ProcessInvoice.parse_response date_parser_parse response
    = ProcessInvoice.parse_response other_parser response.
Proof.
  intros Hnone.
  assert ((foldl ProcessInvoice.scan_block (∅, []) (default [] (Blocks response))).1
            !! "Date" = None) as Hscan.
  { rewrite scan_results by done. by rewrite last_filter_none. }
  assert (∀ parser,
            ProcessInvoice.normalize_date parser
              (foldl ProcessInvoice.scan_block (∅, [])
                 (default [] (Blocks response))).1
            = ((foldl ProcessInvoice.scan_block (∅, [])
                  (default [] (Blocks response))).1, [])) as Hnorm.
  { intros parser. unfold ProcessInvoice.normalize_date. by rewrite Hscan. }
  unfold ProcessInvoice.parse_response. rewrite !Hnorm. cbn [fst snd].
  split_and!; [|done..]. by rewrite lookup_insert_ne.
Qed.

Lemma parse_response_without_date_witness :
  (ProcessInvoice.parse_response iso_date_parser
     {| Blocks := Some sample_undated |}).1 !! "Date" = None
  ∧ (ProcessInvoice.parse_response iso_date_parser
       {| Blocks := Some sample_undated |}).2 = []
  ∧ ProcessInvoice.parse_response iso_date_parser
      {| Blocks := Some sample_undated |}
    = ProcessInvoice.parse_response (λ _ _, Raise (ValueError "no parser"))
        {| Blocks := Some sample_undated |}.
Proof.
  apply (parse_response_without_date iso_date_parser
           (λ _ _, Raise (ValueError "no parser"))
           {| Blocks := Some sample_undated |}).
  intros b Hb [Hq Hal]. apply list_elem_of_In in Hb. cbn in Hb.
  destruct Hb as [<-|[<-|[]]]; discriminate.
Defined.

(** ** The invoice run *)

Section invoice_run.
Variable env : gmap string string.
Variable date_parser_parse : string → bool → result datetime.
Variable textract : string → string → result Response.
Variable openai_chat : string → result string.

Lemma config_get_Ok (config : gmap string string) k v w :
  config !! k = Some v → config_get config k w = (Ok v, w).
Proof. intros H. unfold config_get, lift. by rewrite H. Qed.

Lemma load_config_value (config : gmap string string) k :
  load_config env = Ok config → k ∈ env_vars →
  ∃ v, env !! k = Some v ∧ config !! k = Some v.
Proof.
  intros Hload Hk. destruct (load_config_Ok env config k Hload Hk) as [Hne Hc].
  destruct (env !! k) as [v|] eqn:Hv; [|done]. by exists v.
Qed.




Lemma invoice_analyze_Raise bucket key w e :
  textract bucket key = Raise e →
  ProcessInvoice.analyze_document textract bucket key w
  = (Raise e,
     {| sheets := sheets w;
        trace := trace w ++ [ TextractAnalyze (Some bucket) key;
                              Log ERROR ("Textract call failed: " +:+ exn_str e) ] |}).
Proof.
  intros H. unfold ProcessInvoice.analyze_document, reraising, mbind, io_bind,
    emit, lift. rewrite H. cbn. by rewrite <-app_assoc.
Qed.



(** [main] from a well-formed command line and a complete configuration
    up to the call of Textract. *)
Lemma invoice_main_until_analyze prog s3_key w config bucket :
  load_config env = Ok config →
  env !! "S3_BUCKET_NAME" = Some bucket →
  ∃ rest,
    ProcessInvoice.main env date_parser_parse textract openai_chat
      [prog; s3_key] w
    = (ProcessInvoice.analyze_document textract bucket s3_key ≫= rest)
        {| sheets := sheets w;
           trace := trace w
             ++ [Log INFO ("Analyzing " +:+ s3_key +:+ " from bucket "
                           +:+ bucket)] |}
    ∧ rest
      = λ response,
          let parsed := parse_response date_parser_parse response in
          _ ← for_each emit parsed.2;
          full_text ← lift (getitem "full_text" (parsed.1 !! "full_text"));
          api_key ← config_get config "OPENAI_API_KEY";
          summary ← summarize_text openai_chat full_text api_key;
          let parsed := <["Description" := summary]> parsed.1 in
          let row := [ default "" (parsed !! "Title");
                       default "" (parsed !! "Date");
                       default "" (parsed !! "Description");
                       default "" (parsed !! "VolumeIssueNumber") ] in
          creds ← config_get config "GOOGLE_CREDENTIALS_FILE";
          sheet_id ← config_get config "GOOGLE_SHEET_ID";
          _ ← append_to_sheet creds sheet_id row;
          emit (Log INFO "Row appended successfully").
Proof.
  intros Hload Hbucket. eexists. split; [|reflexivity].
  unfold ProcessInvoice.main. rewrite bool_decide_eq_false_2 by (cbn; lia).
  cbn [lookup list_lookup default from_option id].
  rewrite (io_bind_Ok _ _ w w config) by (unfold lift; by rewrite Hload).
  assert (∀ k, k ∈ env_vars → ∃ v, config !! k = Some v) as Hget.
  { intros k Hk. destruct (load_config_value config k Hload Hk) as (v & _ & Hv).
    by exists v. }
  destruct (Hget "OPENAI_API_KEY") as [v1 Hv1]; [apply list_elem_of_In; cbn; tauto|].
  destruct (Hget "AWS_ACCESS_KEY_ID") as [v2 Hv2]; [apply list_elem_of_In; cbn; tauto|].
  destruct (Hget "AWS_SECRET_ACCESS_KEY") as [v3 Hv3]; [apply list_elem_of_In; cbn; tauto|].
  destruct (Hget "AWS_REGION") as [v4 Hv4]; [apply list_elem_of_In; cbn; tauto|].
  destruct (load_config_value config "S3_BUCKET_NAME" Hload) as (v5 & Hv5 & Hc5);
    [apply list_elem_of_In; cbn; tauto|].
  assert (v5 = bucket) as -> by congruence.
  rewrite (io_bind_Ok _ _ w w v1) by by apply config_get_Ok.
  rewrite (io_bind_Ok _ _ w w v2) by by apply config_get_Ok.
  rewrite (io_bind_Ok _ _ w w v3) by by apply config_get_Ok.
  rewrite (io_bind_Ok _ _ w w v4) by by apply config_get_Ok.
  rewrite (io_bind_Ok _ _ w w bucket) by by apply config_get_Ok.
  by rewrite (io_bind_Ok _ _ w
    {| sheets := sheets w;
       trace := trace w
         ++ [Log INFO ("Analyzing " +:+ s3_key +:+ " from bucket " +:+ bucket)] |}
    ()) by reflexivity.
Qed.

End invoice_run.



(** X17. A wrong number of command-line arguments is handled before the
    configuration is read: whatever the environment, [main] prints the usage
    line and exits with status 1, and the script passes this exit on without
    logging a processing failure. *)
Theorem invoice_usage_error
    (env : gmap string string)
    (date_parser_parse : string → bool → result ProcessInvoice.datetime)
    (textract : string → string → result Response)
    (openai_chat : string → result string)
    (argv : list string) (w : world) :
  length argv ≠ 2%nat →
  ProcessInvoice.main env date_parser_parse textract openai_chat argv w
  = (Raise (SystemExit 1),
     {| sheets := sheets w;
        trace := trace w ++ [Print "Usage: process_invoice.py <s3_key>"] |})
  ∧ ProcessInvoice.script env date_parser_parse textract openai_chat argv w
    = (Raise (SystemExit 1),
       {| sheets := sheets w;
          trace := trace w ++ [Print "Usage: process_invoice.py <s3_key>"] |}).
Proof.
  intros Hargv.
  assert (ProcessInvoice.main env date_parser_parse textract openai_chat argv w
          = (Raise (SystemExit 1),
             {| sheets := sheets w;
                trace := trace w
                  ++ [Print "Usage: process_invoice.py <s3_key>"] |})) as Hmain.
  { unfold ProcessInvoice.main. by rewrite bool_decide_eq_true_2. }
  split; [done|]. unfold ProcessInvoice.script. by rewrite Hmain.
Qed.

Lemma invoice_usage_error_witness :
  ProcessInvoice.main ∅ iso_date_parser
    (λ _ _, Raise (ServiceError "unreachable"))
    (λ _, Raise (ServiceError "unreachable")) ["process_invoice.py"] invoice_world
  = (Raise (SystemExit 1),
     {| sheets := sheets invoice_world;
        trace := trace invoice_world
          ++ [Print "Usage: process_invoice.py <s3_key>"] |})
  ∧ ProcessInvoice.script ∅ iso_date_parser
      (λ _ _, Raise (ServiceError "unreachable"))
      (λ _, Raise (ServiceError "unreachable")) ["process_invoice.py"] invoice_world
    = (Raise (SystemExit 1),
       {| sheets := sheets invoice_world;
          trace := trace invoice_world
            ++ [Print "Usage: process_invoice.py <s3_key>"] |}).
Proof.
  apply (invoice_usage_error ∅ iso_date_parser
           (λ _ _, Raise (ServiceError "unreachable"))
           (λ _, Raise (ServiceError "unreachable"))
           ["process_invoice.py"] invoice_world).
  discriminate.
Defined.

(** X18. When Textract fails (with an exception other than an exit), the
    failure is logged twice, by [analyze_document] and by the script, the
    script exits with status 1, and neither OpenAI nor Google Sheets is
    called: the events of the run are the two log lines around the
    Textract call and the final one, and no worksheet changes. *)
Theorem invoice_textract_failure
    (env : gmap string string)
    (date_parser_parse : string → bool → result ProcessInvoice.datetime)
    (textract : string → string → result Response)
    (openai_chat : string → result string)
    (prog s3_key bucket : string) (w : world)
    (config : gmap string string) (e : exn) :
  ProcessInvoice.load_config env = Ok config →
  env !! "S3_BUCKET_NAME" = Some bucket →
  textract bucket s3_key = Raise e →
  (∀ code, e ≠ SystemExit code) →
  ProcessInvoice.script env date_parser_parse textract openai_chat
    [prog; s3_key] w
  = (Raise (SystemExit 1),
     {| sheets := sheets w;
        trace := trace w
          ++ [ Log INFO ("Analyzing " +:+ s3_key +:+ " from bucket " +:+ bucket);
               TextractAnalyze (Some bucket) s3_key;
               Log ERROR ("Textract call failed: " +:+ exn_str e);
               Log ERROR ("Processing failed: " +:+ exn_str e) ] |}).
Proof.
  intros Hload Hbucket Htextract Hexit.
  destruct (invoice_main_until_analyze env date_parser_parse textract
              openai_chat prog s3_key w config bucket Hload Hbucket)
    as (rest & Hmain & _).
  unfold ProcessInvoice.script. rewrite Hmain.
  erewrite io_bind_Raise; [|by apply invoice_analyze_Raise].
  destruct e; try (cbn; by rewrite <-!app_assoc).
  by destruct (Hexit code).
Qed.

Lemma invoice_textract_failure_witness :
  ProcessInvoice.script full_env iso_date_parser
    (λ _ _, Raise (ServiceError "throttled")) (λ _, Ok "unused")
    ["process_invoice.py"; "in/gazette.pdf"] invoice_world
  = (Raise (SystemExit 1),
     {| sheets := sheets invoice_world;
        trace := trace invoice_world
          ++ [ Log INFO ("Analyzing " +:+ "in/gazette.pdf" +:+ " from bucket "
                         +:+ "scans");
               TextractAnalyze (Some "scans") "in/gazette.pdf";
               Log ERROR ("Textract call failed: "
                          +:+ exn_str (ServiceError "throttled"));
               Log ERROR ("Processing failed: "
                          +:+ exn_str (ServiceError "throttled")) ] |}).
Proof.
  assert (ProcessInvoice.load_config full_env
          = Ok (delete "HOME" full_env)) as Hload by (vm_compute; reflexivity).
  apply (invoice_textract_failure full_env iso_date_parser
           (λ _ _, Raise (ServiceError "throttled")) (λ _, Ok "unused")
           "process_invoice.py" "in/gazette.pdf" "scans" invoice_world
           (delete "HOME" full_env) (ServiceError "throttled") Hload);
    [vm_compute; reflexivity|reflexivity|discriminate].
Defined.

(** ** All or nothing *)

Section atomicity.

Lemma quiet_emit (e : event) : quiet (emit e).
Proof. intros w r w'. unfold emit. by intros [= <- <-]. Qed.

Lemma quiet_lift {A} (r : result A) : quiet (lift r).
Proof. intros w r' w'. unfold lift. by intros [= <- <-]. Qed.

Lemma quiet_bind {A B} (m : io A) (f : A → io B) :
  quiet m → (∀ a, quiet (f a)) → quiet (m ≫= f).
Proof.
  intros Hm Hf w r w'. unfold mbind, io_bind.
  destruct (m w) as [[a|e] w1] eqn:Hmw.
  - intros Hfa. rewrite (Hf a _ _ _ Hfa). by eapply Hm.
  - intros [= <- <-]. by eapply Hm.
Qed.

Lemma quiet_reraising {A} (m : io A) (h : exn → io unit) :
  quiet m → (∀ e, quiet (h e)) → quiet (reraising m h).
Proof.
  intros Hm Hh w r w'. unfold reraising.
  destruct (m w) as [[a|e] w1] eqn:Hmw.
  - intros [= <- <-]. by eapply Hm.
  - destruct (h e w1) as [[[]|e'] w2] eqn:Hhw; intros [= <- <-];
      rewrite (Hh e _ _ _ Hhw); by eapply Hm.
Qed.

Lemma quiet_for_each {B} (f : B → io unit) (l : list B) :
  (∀ x, quiet (f x)) → quiet (for_each f l).
Proof.
  intros Hf. induction l as [|x l IH].
  - intros w r w'. cbn. by intros [= <- <-].
  - cbn [for_each]. apply quiet_bind; [apply Hf|by intros _].
Qed.

Lemma all_or_nothing_quiet {A} (m : io A) : quiet m → all_or_nothing m.
Proof. intros Hm w r w' Hrun. right. by eapply Hm. Qed.

Lemma all_or_nothing_bind {A B} (m : io A) (f : A → io B) :
  quiet m → (∀ a, all_or_nothing (f a)) → all_or_nothing (m ≫= f).
Proof.
  intros Hm Hf w r w'. unfold mbind, io_bind.
  destruct (m w) as [[a|e] w1] eqn:Hmw.
  - intros Hfa. destruct (Hf a _ _ _ Hfa) as [?|Hs]; [by left|].
    right. rewrite Hs. by eapply Hm.
  - intros [= <- <-]. right. by eapply Hm.
Qed.

(** A step that always returns may follow the write. *)
Lemma all_or_nothing_then {A B} (m : io A) (f : A → io B) :
  all_or_nothing m → (∀ a w, ∃ b w', f a w = (Ok b, w')) →
  all_or_nothing (m ≫= f).
Proof.
  intros Hm Hf w r w'. unfold mbind, io_bind.
  destruct (m w) as [[a|e] w1] eqn:Hmw.
  - destruct (Hf a w1) as (b & w2 & ->). intros [= <- <-]. left. by eexists.
  - intros [= <- <-]. destruct (Hm _ _ _ Hmw) as [[a ?]|?]; [done|by right].
Qed.

Lemma all_or_nothing_append_to_sheet creds sheet_id row :
  all_or_nothing (append_to_sheet creds sheet_id row).
Proof.
  intros w r w'. unfold append_to_sheet, reraising, mbind, io_bind, emit,
    worksheet, append_row. cbn.
  destruct (sheets w !! "Form Data"); cbn; intros [= <- <-];
    [left; by eexists|by right].
Qed.

Section run.
Variable env : gmap string string.
Variable date_parser_parse : string → bool → result datetime.
Variable textract : string → string → result Response.
Variable openai_chat : string → result string.

Lemma quiet_config_get (config : gmap string string) k :
  quiet (config_get config k).
Proof. apply quiet_lift. Qed.

Lemma quiet_invoice_analyze bucket key :
  quiet (ProcessInvoice.analyze_document textract bucket key).
Proof.
  apply quiet_reraising; [|intros; apply quiet_emit].
  apply quiet_bind; [apply quiet_emit|intros; apply quiet_lift].
Qed.

Lemma quiet_summarize_text full_text api_key :
  quiet (summarize_text openai_chat full_text api_key).
Proof.
  apply quiet_reraising; [|intros; apply quiet_emit].
  apply quiet_bind; [apply quiet_emit|intros].
  apply quiet_bind; [apply quiet_lift|intros].
  intros w r w'. unfold mret, io_ret. by intros [= <- <-].
Qed.

Lemma all_or_nothing_main argv :
  all_or_nothing
    (ProcessInvoice.main env date_parser_parse textract openai_chat argv).
Proof.
  unfold ProcessInvoice.main. case_bool_decide.
  { apply all_or_nothing_quiet, quiet_bind; [apply quiet_emit|intros].
    apply quiet_lift. }
  apply all_or_nothing_bind; [apply quiet_lift|intros config].
  do 5 (apply all_or_nothing_bind; [apply quiet_config_get|intros ?]).
  apply all_or_nothing_bind; [apply quiet_emit|intros _].
  apply all_or_nothing_bind; [apply quiet_invoice_analyze|intros response].
  cbv zeta.
  apply all_or_nothing_bind;
    [apply quiet_for_each; intros; apply quiet_emit|intros _].
  apply all_or_nothing_bind; [apply quiet_lift|intros full_text].
  apply all_or_nothing_bind; [apply quiet_config_get|intros api_key].
  apply all_or_nothing_bind; [apply quiet_summarize_text|intros summary].
  do 2 (apply all_or_nothing_bind; [apply quiet_config_get|intros ?]).
  apply all_or_nothing_then; [apply all_or_nothing_append_to_sheet|].
  intros [] w. unfold emit. by eexists _, _.
Qed.

End run.

End atomicity.

(** X19. The invoice run writes all or nothing: whatever the environment,
    the command line and the answers of the services, if [main] (or the
    script around it) does not return normally, no worksheet has
    changed. *)
Theorem invoice_all_or_nothing
    (env : gmap string string)
    (date_parser_parse : string → bool → result ProcessInvoice.datetime)
    (textract : string → string → result Response)
    (openai_chat : string → result string)
    (argv : list string) (w w' : world) (r : result unit) :
  ProcessInvoice.script env date_parser_parse textract openai_chat argv w
  = (r, w') →
  r ≠ Ok () →
  sheets w' = sheets w
  ∧ ∃ e w1,
      ProcessInvoice.main env date_parser_parse textract openai_chat argv w
      = (Raise e, w1)
      ∧ sheets w1 = sheets w.
Proof.
  intros Hscript Hr. unfold ProcessInvoice.script in Hscript.
  destruct (ProcessInvoice.main env date_parser_parse textract openai_chat
              argv w) as [[[]|e] w1] eqn:Hmain.
  { injection Hscript as <- <-. done. }
  destruct (all_or_nothing_main env date_parser_parse textract openai_chat
              argv w _ _ Hmain) as [[a ?]|Hsheets]; [done|].
  split; [|by eauto].
  destruct e; injection Hscript as <- <-; done.
Qed.

Lemma invoice_all_or_nothing_witness :
  sheets (ProcessInvoice.script full_env iso_date_parser
            (λ _ _, Ok {| Blocks := Some sample_answers |})
            (λ _, Raise (ServiceError "quota"))
            ["process_invoice.py"; "in/gazette.pdf"] invoice_world).2
  = sheets invoice_world.
Proof.
  refine (proj1 (invoice_all_or_nothing full_env iso_date_parser
    (λ _ _, Ok {| Blocks := Some sample_answers |})
    (λ _, Raise (ServiceError "quota"))
    ["process_invoice.py"; "in/gazette.pdf"] invoice_world
    (ProcessInvoice.script full_env iso_date_parser
       (λ _ _, Ok {| Blocks := Some sample_answers |})
       (λ _, Raise (ServiceError "quota"))
       ["process_invoice.py"; "in/gazette.pdf"] invoice_world).2
    (Raise (SystemExit 1)) _ _)).
  - vm_compute. reflexivity.
  - discriminate.
Defined.

(** ** Words are joined by single spaces *)

Section words.

Lemma rstrip_app_space (s : string) : PyStr.rstrip (s +:+ " ") = PyStr.rstrip s.
Proof.
  induction s as [|c s IH]; [done|].
  rewrite append_cons. cbn [PyStr.rstrip]. by rewrite IH.
Qed.

Lemma rstrip_clean (s : string) : ends_with_space s = false → PyStr.rstrip s = s.
Proof.
  induction s as [|c s IH]; [done|]. cbn [ends_with_space PyStr.rstrip].
  destruct s as [|c' s]; [by intros ->|].
  intros Hs. by rewrite (IH Hs).
Qed.

Lemma lstrip_clean (s : string) :
  starts_with_space s = false → PyStr.lstrip s = s.
Proof. destruct s as [|c s]; [done|]. cbn. by intros ->. Qed.

Lemma starts_with_space_app (s t : string) :
  s ≠ "" → starts_with_space (s +:+ t) = starts_with_space s.
Proof. by destruct s. Qed.

Lemma ends_with_space_app (s t : string) :
  t ≠ "" → ends_with_space (s +:+ t) = ends_with_space t.
Proof.
  intros Ht. induction s as [|c s IH]; [done|].
  rewrite append_cons. cbn [ends_with_space].
  destruct (s +:+ t) eqn:Hst; [|done].
  destruct s; [|done]. by rewrite append_nil_l in Hst.
Qed.

Lemma append_nonempty_r (s t : string) : t ≠ "" → s +:+ t ≠ "".
Proof. intros Ht. destruct s; [by rewrite append_nil_l|done]. Qed.

Lemma strip_app_space (s : string) : trimmed s → PyStr.strip (s +:+ " ") = s.
Proof.
  intros (Hne & Hhd & Htl). unfold PyStr.strip.
  rewrite lstrip_clean by by rewrite starts_with_space_app.
  by rewrite rstrip_app_space, rstrip_clean.
Qed.

Lemma join_trimmed (texts : list string) :
  texts ≠ [] → Forall trimmed texts → trimmed (PyStr.join " " texts).
Proof.
  intros Hne Hall. induction Hall as [|t texts Ht Hall IH]; [done|].
  destruct texts as [|t' texts]; [done|].
  destruct (IH ltac:(done)) as (Hn & Hhd & Htl).
  destruct Ht as (Htn & Hthd & Httl).
  change (trimmed (t +:+ " " +:+ PyStr.join " " (t' :: texts))).
  split_and!.
  - by destruct t.
  - by rewrite starts_with_space_app.
  - rewrite ends_with_space_app by by apply append_nonempty_r.
    by rewrite ends_with_space_app.
Qed.

Lemma concat_str_spaced (texts : list string) :
  texts ≠ [] →
  concat_str ((λ t, t +:+ " ") <$> texts) = PyStr.join " " texts +:+ " ".
Proof.
  intros Hne. induction texts as [|t texts IH]; [done|].
  destruct texts as [|t' texts].
  { cbn. by rewrite append_nil_r. }
  change ((t +:+ " ") +:+ concat_str ((λ t, t +:+ " ") <$> t' :: texts)
          = (t +:+ " " +:+ PyStr.join " " (t' :: texts)) +:+ " ").
  rewrite IH by done. by rewrite <-!append_assoc.
Qed.

End words.

(** X20. The text of a block whose children are all WORD blocks, each with
    a non-empty text without whitespace at its ends, is the texts of the
    words in listed order, separated by single spaces. *)
Theorem extract_text_joins_words
    (b : Block) (bm : BlockMap) (words : list Block) :
  typed b →
  Forall2 (λ cid word, bm !! Some cid = Some word) (child_targets b) words →
  words ≠ [] →
  Forall (λ word, BlockType word = Some "WORD"
                  ∧ trimmed (default "" (Text word))) words →
  PdfToSheet.extract_text (Some b) bm
  = Ok (PyStr.join " " ((λ word, default "" (Text word)) <$> words)).
Proof.
  intros Hty Hch Hne Hwords.
  rewrite (extract_text_children b bm words Hty Hch).
  assert (piece <$> words
          = (λ t, t +:+ " ") <$> ((λ word, default "" (Text word)) <$> words))
    as ->.
  { rewrite <-list_fmap_compose. apply Forall_fmap_ext_1.
    eapply Forall_impl; [exact Hwords|]. intros word [Hw _]. cbn.
    unfold piece. by rewrite bool_decide_eq_true_2. }
  rewrite concat_str_spaced by (by destruct words).
  f_equal. apply strip_app_space, join_trimmed; [by destruct words|].
  apply Forall_fmap. eapply Forall_impl; [exact Hwords|]. by intros word [_ ?].
Qed.

Lemma extract_text_joins_words_witness :
  PdfToSheet.extract_text
    (Some (kv_block "v1" ["VALUE"] [child_rel ["w1"; "w2"; "w3"]]))
    (block_index sample_sentence)
  = Ok (PyStr.join " "
          ((λ word, default "" (Text word))
           <$> [word_block "w1" "12"; word_block "w2" "Main";
                word_block "w3" "St."])).
Proof.
  apply (extract_text_joins_words
           (kv_block "v1" ["VALUE"] [child_rel ["w1"; "w2"; "w3"]])
           (block_index sample_sentence)
           [word_block "w1" "12"; word_block "w2" "Main"; word_block "w3" "St."]).
  - repeat constructor; by eexists.
  - repeat constructor.
  - discriminate.
  - repeat constructor; discriminate.
Defined.

(** ** The listing order of the cells of a table *)

Section cell_order.
Import PdfToSheet.

Lemma filter_position_unique (cells : list (Z * Z * string)) (k : Z * Z) :
  NoDup cells.*1 →
  filter (λ x, x.1 = k) cells = []
  ∨ ∃ x, filter (λ x, x.1 = k) cells = [x].
Proof.
  induction cells as [|x cells IH]; [by left|].
  rewrite fmap_cons. intros [Hx Hnd]%NoDup_cons. rewrite filter_cons.
  destruct (decide (x.1 = k)) as [Hk|Hk]; [|by apply IH].
  right. exists x. f_equal.
  destruct (filter (λ x, x.1 = k) cells) as [|y l] eqn:Hf; [done|].
  assert (y ∈ filter (λ x, x.1 = k) cells) as [Hy Hin]%list_elem_of_filter.
  { rewrite Hf. left. }
  destruct Hx. rewrite Hk, <-Hy. by apply list_elem_of_fmap_2.
Qed.

Lemma cell_text_Permutation (cells1 cells2 : list (Z * Z * string)) r c :
  cells1 ≡ₚ cells2 → NoDup cells1.*1 →
  cell_text cells1 r c = cell_text cells2 r c.
Proof.
  intros Hp Hnd. unfold cell_text.
  assert (filter (λ x, x.1 = (r, c)) cells1
          ≡ₚ filter (λ x, x.1 = (r, c)) cells2) as Hf by by rewrite Hp.
  destruct (filter_position_unique cells1 (r, c) Hnd) as [H1|[x H1]];
    rewrite H1 in *.
  - by apply Permutation_nil_l in Hf as <-.
  - by apply Permutation_singleton_l in Hf as <-.
Qed.

Lemma rows_determined (rows1 rows2 : gmap Z (gmap Z string)) :
  map_Forall (λ _ row, row ≠ ∅) rows1 →
  map_Forall (λ _ row, row ≠ ∅) rows2 →
  (∀ r c, lookup2 rows1 r c = lookup2 rows2 r c) →
  rows1 = rows2.
Proof.
  intros Hne1 Hne2 Heq. apply map_eq. intros r.
  destruct (rows1 !! r) as [m1|] eqn:H1, (rows2 !! r) as [m2|] eqn:H2; [| | |done].
  - f_equal. apply map_eq. intros c. specialize (Heq r c).
    unfold lookup2 in Heq. by rewrite H1, H2 in Heq.
  - destruct (map_choose m1 (Hne1 _ _ H1)) as (c & t & Hc).
    specialize (Heq r c). unfold lookup2 in Heq. rewrite H1, H2 in Heq.
    cbn in Heq. congruence.
  - destruct (map_choose m2 (Hne2 _ _ H2)) as (c & t & Hc).
    specialize (Heq r c). unfold lookup2 in Heq. rewrite H1, H2 in Heq.
    cbn in Heq. congruence.
Qed.

Lemma rows_Permutation (cells1 cells2 : list (Z * Z * string)) :
  cells1 ≡ₚ cells2 → NoDup cells1.*1 →
  foldl place ∅ cells1 = foldl place ∅ cells2.
Proof.
  intros Hp Hnd. apply rows_determined.
  - apply rows_nonempty, map_Forall_empty.
  - apply rows_nonempty, map_Forall_empty.
  - intros r c. rewrite !lookup2_rows.
    by rewrite (cell_text_Permutation cells1 cells2 r c Hp Hnd).
Qed.

End cell_order.

(** X21. The rows reconstructed for a table do not depend on the order in
    which its relationships list the cells, as long as no two listed cells
    sit at the same position: two table blocks whose CHILD targets are the
    same up to order, all of them processable, give the same rows. *)
Theorem table_rows_any_cell_order (bm : BlockMap) (tb1 tb2 : Block) :
  typed tb1 → typed tb2 →
  Forall (cell_ok bm) (child_targets tb1) →
  child_targets tb1 ≡ₚ child_targets tb2 →
  NoDup (observed_cells bm tb1).*1 →
  ∃ rows, PdfToSheet.table_rows bm tb1 = Ok rows
          ∧ PdfToSheet.table_rows bm tb2 = Ok rows.
Proof.
  intros Hty1 Hty2 Hok Hp Hnd. exists (rows_of bm tb1).
  rewrite !table_rows_ok by (done || by rewrite <-Hp). split; [done|].
  f_equal. symmetry. apply rows_Permutation; [|done].
  unfold observed_cells. by rewrite Hp.
Qed.

Lemma table_rows_any_cell_order_witness :
  ∃ rows,
    PdfToSheet.table_rows (block_index sample_table)
      (table_block "t1" ["c21"; "c12"; "c11"]) = Ok rows
    ∧ PdfToSheet.table_rows (block_index sample_table)
        sample_table_reordered = Ok rows.
Proof.
  apply (table_rows_any_cell_order (block_index sample_table)
           (table_block "t1" ["c21"; "c12"; "c11"]) sample_table_reordered).
  - repeat constructor; by eexists.
  - repeat constructor; by eexists.
  - apply (well_formed_cell_ok sample_table); [by vm_compute|].
    apply list_elem_of_In. left. reflexivity.
  - change (["c21"; "c12"; "c11"] ≡ₚ ["c11"; "c12"; "c21"]).
    etrans; [apply Permutation_cons_append|]. apply perm_swap.
  - apply (bool_decide_unpack _). by vm_compute.
Defined.
